(** * SelfAdjusting_I2C: a shallow embedding of the self-tuning I2C controller

    The development follows [src/SelfAdjusting_I2C.h] and
    [src/SelfAdjusting_I2C.cpp]:

    - unsigned C++ integers are [Z] with the wrap-around of their width
      written out ([u8], [u16], [u32]);
    - [float] is IEEE-754 binary32, through the Standard Library's executable
      specification [SpecFloat] at precision 24 and maximal exponent 128.
      The floating literals of the source ([0.6], [100.0], ...) are read at
      the same precision, which is what the AVR toolchain of the classic
      Arduino boards does ([double] is a 32-bit type there);
    - the controller object, the two file-level [DynamicRange] tables and the
      clock pushed through [Wire.setClock] form the [World];
    - every member function is a computation in a small monad that threads
      the [World], reads the values the platform returns ([Wire], [millis],
      [micros]) from a tape, and may fail to return ([None]) where the source
      recurses without bound. *)

From Stdlib Require Import ZArith Lia Bool.
From Stdlib Require Import Floats.SpecFloat.
From stdpp Require Import base list strings.

Open Scope Z_scope.

(** ** Machine integers *)

Definition u8 (x : Z) : Z := x mod 256.
Definition u16 (x : Z) : Z := x mod 65536.
Definition u32 (x : Z) : Z := x mod 4294967296.

(** ** Configuration constants ([SelfAdjusting_I2C.h], lines 9-14) *)

Definition LEARNING_WINDOW_SIZE : Z := 10.
Definition ERROR_THRESHOLD : Z := 3.
Definition PERFORMANCE_SAMPLES : Z := 5.
Definition MAX_DEVICES : Z := 16.
Definition DYNAMIC_RANGE_STEPS : Z := 20.

(** ** Single-precision floating point *)

Module F32.

Definition prec : Z := 24.
Definition emax : Z := 128.

Definition float : Type := spec_float.

(** Conversion of an integer to [float], rounding to nearest even. *)
Definition of_Z (z : Z) : float := binary_normalize prec emax z 0 false.

Definition add : float -> float -> float := SFadd prec emax.
Definition sub : float -> float -> float := SFsub prec emax.
Definition mul : float -> float -> float := SFmul prec emax.
Definition div : float -> float -> float := SFdiv prec emax.
Definition sqrt : float -> float := SFsqrt prec emax.

(** [x < y]; the source's [a > b] is [ltb b a]. *)
Definition ltb : float -> float -> bool := SFltb.

(** A decimal literal [num/den]: the division is correctly rounded, so this
    is the binary32 number nearest to the decimal. *)
Definition lit (num den : Z) : float := div (of_Z num) (of_Z den).

Definition zero : float := S754_zero false.

(** Truncation toward zero, the value part of a C++ float-to-integer
    conversion. The conversion is undefined for NaN, the infinities and
    values outside the target type; they are sent to 0 and wrapped here,
    and no theorem below relies on those cases. *)
Definition trunc (f : float) : Z :=
  match f with
  | S754_finite s m e =>
      let a := match e with
               | Z0 => Zpos m
               | Zpos _ => Zpos m * 2 ^ e
               | Zneg p => Zpos m / 2 ^ Zpos p
               end in
      if s then - a else a
  | _ => 0
  end.

Definition to_u32 (f : float) : Z := u32 (trunc f).
Definition to_u8 (f : float) : Z := u8 (trunc f).

(** Arduino's [max(a,b)] macro, [((a)>(b)?(a):(b))]. *)
Definition max (a b : float) : float := if ltb b a then a else b.

End F32.

Abbreviation float := F32.float.

(** ** Data model ([SelfAdjusting_I2C.h], lines 17-93) *)

Record DynamicRange := mkDynamicRange {
  min_value : Z;
  max_value : Z;
  current_value : Z;
  default_value : Z;
  current_step : Z;
  optimal_step : Z;
  step_size : float
}.

Record I2CPerformanceMetrics := mkMetrics {
  successfulTransactions : Z;
  failedTransactions : Z;
  totalTransactionTime : Z;
  averageTransactionTime : Z;
  errorRate : Z;
  stabilityScore : Z;
  lastUpdateTime : Z
}.

Record I2CConfig := mkConfig {
  clockSpeedStep : Z;
  riseTimeStep : Z;
  clockSpeed : Z;
  riseTime : Z;
  metrics : I2CPerformanceMetrics;
  isValid : bool
}.

Record DeviceConfig := mkDevice {
  address : Z;
  config : I2CConfig;
  hasCustomConfig : bool
}.

Record AIDecision := mkDecision {
  clockSpeedDelta : Z;
  riseTimeDelta : Z;
  confidence : Z;
  shouldAdjust : bool;
  reason : string
}.

Inductive I2CErrorType :=
| ERROR_NONE
| ERROR_TIMEOUT
| ERROR_NACK_ADDRESS
| ERROR_NACK_DATA
| ERROR_OTHER.

Definition error_code (e : I2CErrorType) : Z :=
  match e with
  | ERROR_NONE => 0
  | ERROR_TIMEOUT => 1
  | ERROR_NACK_ADDRESS => 2
  | ERROR_NACK_DATA => 3
  | ERROR_OTHER => 4
  end.

(** The private members of [class SelfAdjustingI2C]. *)
Record SelfAdjustingI2C := mkController {
  currentConfig : I2CConfig;
  bestConfig : I2CConfig;
  performanceHistory : list I2CPerformanceMetrics;
  deviceConfigs : list DeviceConfig;
  historyIndex : Z;
  consecutiveErrors : Z;
  deviceCount : Z;
  lastAdjustmentTime : Z;
  adjustmentCooldown : Z;
  lastErrorTime : Z;
  learningMode : bool;
  emergencyRecovery : bool;
  adaptiveMode : bool;
  performanceScore : float;
  trendAnalysis : float;
  adaptationRate : Z;
  currentDeviceAddress : Z;
  lastError : I2CErrorType;
  errorHistory : list Z;
  errorHistoryIndex : Z
}.

(** The controller, the two file-level range tables, and the arguments of the
    [Wire.setClock] calls made so far (newest first). *)
Record World := mkWorld {
  ctl : SelfAdjustingI2C;
  clockSpeedRange : DynamicRange;
  riseTimeRange : DynamicRange;
  wireClock : list Z
}.

(** *** Field updates *)

Definition set_current_value (value : Z) (r : DynamicRange) : DynamicRange :=
  mkDynamicRange (min_value r) (max_value r) value (default_value r)
                 (current_step r) (optimal_step r) (step_size r).
Definition set_current_step (step : Z) (r : DynamicRange) : DynamicRange :=
  mkDynamicRange (min_value r) (max_value r) (current_value r) (default_value r)
                 step (optimal_step r) (step_size r).
Definition set_optimal_step (step : Z) (r : DynamicRange) : DynamicRange :=
  mkDynamicRange (min_value r) (max_value r) (current_value r) (default_value r)
                 (current_step r) step (step_size r).
Definition set_step_size (s : float) (r : DynamicRange) : DynamicRange :=
  mkDynamicRange (min_value r) (max_value r) (current_value r) (default_value r)
                 (current_step r) (optimal_step r) s.

Definition zeroMetrics : I2CPerformanceMetrics := mkMetrics 0 0 0 0 0 0 0.

Definition set_successfulTransactions v (m : I2CPerformanceMetrics) :=
  mkMetrics v (failedTransactions m) (totalTransactionTime m)
            (averageTransactionTime m) (errorRate m) (stabilityScore m)
            (lastUpdateTime m).
Definition set_failedTransactions v (m : I2CPerformanceMetrics) :=
  mkMetrics (successfulTransactions m) v (totalTransactionTime m)
            (averageTransactionTime m) (errorRate m) (stabilityScore m)
            (lastUpdateTime m).
Definition set_totalTransactionTime v (m : I2CPerformanceMetrics) :=
  mkMetrics (successfulTransactions m) (failedTransactions m) v
            (averageTransactionTime m) (errorRate m) (stabilityScore m)
            (lastUpdateTime m).
Definition set_averageTransactionTime v (m : I2CPerformanceMetrics) :=
  mkMetrics (successfulTransactions m) (failedTransactions m)
            (totalTransactionTime m) v (errorRate m) (stabilityScore m)
            (lastUpdateTime m).
Definition set_errorRate v (m : I2CPerformanceMetrics) :=
  mkMetrics (successfulTransactions m) (failedTransactions m)
            (totalTransactionTime m) (averageTransactionTime m) v
            (stabilityScore m) (lastUpdateTime m).
Definition set_lastUpdateTime v (m : I2CPerformanceMetrics) :=
  mkMetrics (successfulTransactions m) (failedTransactions m)
            (totalTransactionTime m) (averageTransactionTime m) (errorRate m)
            (stabilityScore m) v.

Definition set_clockSpeedStep v (c : I2CConfig) :=
  mkConfig v (riseTimeStep c) (clockSpeed c) (riseTime c) (metrics c) (isValid c).
Definition set_riseTimeStep v (c : I2CConfig) :=
  mkConfig (clockSpeedStep c) v (clockSpeed c) (riseTime c) (metrics c) (isValid c).
Definition set_clockSpeed v (c : I2CConfig) :=
  mkConfig (clockSpeedStep c) (riseTimeStep c) v (riseTime c) (metrics c) (isValid c).
Definition set_riseTime v (c : I2CConfig) :=
  mkConfig (clockSpeedStep c) (riseTimeStep c) (clockSpeed c) v (metrics c) (isValid c).
Definition set_metrics v (c : I2CConfig) :=
  mkConfig (clockSpeedStep c) (riseTimeStep c) (clockSpeed c) (riseTime c) v (isValid c).
Definition set_isValid v (c : I2CConfig) :=
  mkConfig (clockSpeedStep c) (riseTimeStep c) (clockSpeed c) (riseTime c) (metrics c) v.
Definition upd_metrics (f : I2CPerformanceMetrics -> I2CPerformanceMetrics)
    (c : I2CConfig) : I2CConfig :=
  set_metrics (f (metrics c)) c.

Definition set_config v (d : DeviceConfig) :=
  mkDevice (address d) v (hasCustomConfig d).
Definition set_hasCustomConfig v (d : DeviceConfig) :=
  mkDevice (address d) (config d) v.
Definition upd_config (f : I2CConfig -> I2CConfig) (d : DeviceConfig) :=
  set_config (f (config d)) d.

Definition set_currentConfig v (c : SelfAdjustingI2C) : SelfAdjustingI2C :=
  mkController v (bestConfig c) (performanceHistory c) (deviceConfigs c)
    (historyIndex c) (consecutiveErrors c) (deviceCount c)
    (lastAdjustmentTime c) (adjustmentCooldown c) (lastErrorTime c)
    (learningMode c) (emergencyRecovery c) (adaptiveMode c)
    (performanceScore c) (trendAnalysis c) (adaptationRate c)
    (currentDeviceAddress c) (lastError c) (errorHistory c)
    (errorHistoryIndex c).
Definition set_bestConfig v (c : SelfAdjustingI2C) : SelfAdjustingI2C :=
  mkController (currentConfig c) v (performanceHistory c) (deviceConfigs c)
    (historyIndex c) (consecutiveErrors c) (deviceCount c)
    (lastAdjustmentTime c) (adjustmentCooldown c) (lastErrorTime c)
    (learningMode c) (emergencyRecovery c) (adaptiveMode c)
    (performanceScore c) (trendAnalysis c) (adaptationRate c)
    (currentDeviceAddress c) (lastError c) (errorHistory c)
    (errorHistoryIndex c).
Definition set_performanceHistory v (c : SelfAdjustingI2C) : SelfAdjustingI2C :=
  mkController (currentConfig c) (bestConfig c) v (deviceConfigs c)
    (historyIndex c) (consecutiveErrors c) (deviceCount c)
    (lastAdjustmentTime c) (adjustmentCooldown c) (lastErrorTime c)
    (learningMode c) (emergencyRecovery c) (adaptiveMode c)
    (performanceScore c) (trendAnalysis c) (adaptationRate c)
    (currentDeviceAddress c) (lastError c) (errorHistory c)
    (errorHistoryIndex c).
Definition set_deviceConfigs v (c : SelfAdjustingI2C) : SelfAdjustingI2C :=
  mkController (currentConfig c) (bestConfig c) (performanceHistory c) v
    (historyIndex c) (consecutiveErrors c) (deviceCount c)
    (lastAdjustmentTime c) (adjustmentCooldown c) (lastErrorTime c)
    (learningMode c) (emergencyRecovery c) (adaptiveMode c)
    (performanceScore c) (trendAnalysis c) (adaptationRate c)
    (currentDeviceAddress c) (lastError c) (errorHistory c)
    (errorHistoryIndex c).
Definition set_historyIndex v (c : SelfAdjustingI2C) : SelfAdjustingI2C :=
  mkController (currentConfig c) (bestConfig c) (performanceHistory c)
    (deviceConfigs c) v (consecutiveErrors c) (deviceCount c)
    (lastAdjustmentTime c) (adjustmentCooldown c) (lastErrorTime c)
    (learningMode c) (emergencyRecovery c) (adaptiveMode c)
    (performanceScore c) (trendAnalysis c) (adaptationRate c)
    (currentDeviceAddress c) (lastError c) (errorHistory c)
    (errorHistoryIndex c).
Definition set_consecutiveErrors v (c : SelfAdjustingI2C) : SelfAdjustingI2C :=
  mkController (currentConfig c) (bestConfig c) (performanceHistory c)
    (deviceConfigs c) (historyIndex c) v (deviceCount c)
    (lastAdjustmentTime c) (adjustmentCooldown c) (lastErrorTime c)
    (learningMode c) (emergencyRecovery c) (adaptiveMode c)
    (performanceScore c) (trendAnalysis c) (adaptationRate c)
    (currentDeviceAddress c) (lastError c) (errorHistory c)
    (errorHistoryIndex c).
Definition set_deviceCount v (c : SelfAdjustingI2C) : SelfAdjustingI2C :=
  mkController (currentConfig c) (bestConfig c) (performanceHistory c)
    (deviceConfigs c) (historyIndex c) (consecutiveErrors c) v
    (lastAdjustmentTime c) (adjustmentCooldown c) (lastErrorTime c)
    (learningMode c) (emergencyRecovery c) (adaptiveMode c)
    (performanceScore c) (trendAnalysis c) (adaptationRate c)
    (currentDeviceAddress c) (lastError c) (errorHistory c)
    (errorHistoryIndex c).
Definition set_lastAdjustmentTime v (c : SelfAdjustingI2C) : SelfAdjustingI2C :=
  mkController (currentConfig c) (bestConfig c) (performanceHistory c)
    (deviceConfigs c) (historyIndex c) (consecutiveErrors c) (deviceCount c) v
    (adjustmentCooldown c) (lastErrorTime c) (learningMode c)
    (emergencyRecovery c) (adaptiveMode c) (performanceScore c)
    (trendAnalysis c) (adaptationRate c) (currentDeviceAddress c)
    (lastError c) (errorHistory c) (errorHistoryIndex c).
Definition set_adjustmentCooldown v (c : SelfAdjustingI2C) : SelfAdjustingI2C :=
  mkController (currentConfig c) (bestConfig c) (performanceHistory c)
    (deviceConfigs c) (historyIndex c) (consecutiveErrors c) (deviceCount c)
    (lastAdjustmentTime c) v (lastErrorTime c) (learningMode c)
    (emergencyRecovery c) (adaptiveMode c) (performanceScore c)
    (trendAnalysis c) (adaptationRate c) (currentDeviceAddress c)
    (lastError c) (errorHistory c) (errorHistoryIndex c).
Definition set_lastErrorTime v (c : SelfAdjustingI2C) : SelfAdjustingI2C :=
  mkController (currentConfig c) (bestConfig c) (performanceHistory c)
    (deviceConfigs c) (historyIndex c) (consecutiveErrors c) (deviceCount c)
    (lastAdjustmentTime c) (adjustmentCooldown c) v (learningMode c)
    (emergencyRecovery c) (adaptiveMode c) (performanceScore c)
    (trendAnalysis c) (adaptationRate c) (currentDeviceAddress c)
    (lastError c) (errorHistory c) (errorHistoryIndex c).
Definition set_learningMode v (c : SelfAdjustingI2C) : SelfAdjustingI2C :=
  mkController (currentConfig c) (bestConfig c) (performanceHistory c)
    (deviceConfigs c) (historyIndex c) (consecutiveErrors c) (deviceCount c)
    (lastAdjustmentTime c) (adjustmentCooldown c) (lastErrorTime c) v
    (emergencyRecovery c) (adaptiveMode c) (performanceScore c)
    (trendAnalysis c) (adaptationRate c) (currentDeviceAddress c)
    (lastError c) (errorHistory c) (errorHistoryIndex c).
Definition set_emergencyRecovery v (c : SelfAdjustingI2C) : SelfAdjustingI2C :=
  mkController (currentConfig c) (bestConfig c) (performanceHistory c)
    (deviceConfigs c) (historyIndex c) (consecutiveErrors c) (deviceCount c)
    (lastAdjustmentTime c) (adjustmentCooldown c) (lastErrorTime c)
    (learningMode c) v (adaptiveMode c) (performanceScore c) (trendAnalysis c)
    (adaptationRate c) (currentDeviceAddress c) (lastError c) (errorHistory c)
    (errorHistoryIndex c).
Definition set_adaptiveMode v (c : SelfAdjustingI2C) : SelfAdjustingI2C :=
  mkController (currentConfig c) (bestConfig c) (performanceHistory c)
    (deviceConfigs c) (historyIndex c) (consecutiveErrors c) (deviceCount c)
    (lastAdjustmentTime c) (adjustmentCooldown c) (lastErrorTime c)
    (learningMode c) (emergencyRecovery c) v (performanceScore c)
    (trendAnalysis c) (adaptationRate c) (currentDeviceAddress c)
    (lastError c) (errorHistory c) (errorHistoryIndex c).
Definition set_performanceScore v (c : SelfAdjustingI2C) : SelfAdjustingI2C :=
  mkController (currentConfig c) (bestConfig c) (performanceHistory c)
    (deviceConfigs c) (historyIndex c) (consecutiveErrors c) (deviceCount c)
    (lastAdjustmentTime c) (adjustmentCooldown c) (lastErrorTime c)
    (learningMode c) (emergencyRecovery c) (adaptiveMode c) v
    (trendAnalysis c) (adaptationRate c) (currentDeviceAddress c)
    (lastError c) (errorHistory c) (errorHistoryIndex c).
Definition set_trendAnalysis v (c : SelfAdjustingI2C) : SelfAdjustingI2C :=
  mkController (currentConfig c) (bestConfig c) (performanceHistory c)
    (deviceConfigs c) (historyIndex c) (consecutiveErrors c) (deviceCount c)
    (lastAdjustmentTime c) (adjustmentCooldown c) (lastErrorTime c)
    (learningMode c) (emergencyRecovery c) (adaptiveMode c)
    (performanceScore c) v (adaptationRate c) (currentDeviceAddress c)
    (lastError c) (errorHistory c) (errorHistoryIndex c).
Definition set_adaptationRate v (c : SelfAdjustingI2C) : SelfAdjustingI2C :=
  mkController (currentConfig c) (bestConfig c) (performanceHistory c)
    (deviceConfigs c) (historyIndex c) (consecutiveErrors c) (deviceCount c)
    (lastAdjustmentTime c) (adjustmentCooldown c) (lastErrorTime c)
    (learningMode c) (emergencyRecovery c) (adaptiveMode c)
    (performanceScore c) (trendAnalysis c) v (currentDeviceAddress c)
    (lastError c) (errorHistory c) (errorHistoryIndex c).
Definition set_currentDeviceAddress v (c : SelfAdjustingI2C) : SelfAdjustingI2C :=
  mkController (currentConfig c) (bestConfig c) (performanceHistory c)
    (deviceConfigs c) (historyIndex c) (consecutiveErrors c) (deviceCount c)
    (lastAdjustmentTime c) (adjustmentCooldown c) (lastErrorTime c)
    (learningMode c) (emergencyRecovery c) (adaptiveMode c)
    (performanceScore c) (trendAnalysis c) (adaptationRate c) v (lastError c)
    (errorHistory c) (errorHistoryIndex c).
Definition set_lastError v (c : SelfAdjustingI2C) : SelfAdjustingI2C :=
  mkController (currentConfig c) (bestConfig c) (performanceHistory c)
    (deviceConfigs c) (historyIndex c) (consecutiveErrors c) (deviceCount c)
    (lastAdjustmentTime c) (adjustmentCooldown c) (lastErrorTime c)
    (learningMode c) (emergencyRecovery c) (adaptiveMode c)
    (performanceScore c) (trendAnalysis c) (adaptationRate c)
    (currentDeviceAddress c) v (errorHistory c) (errorHistoryIndex c).
Definition set_errorHistory v (c : SelfAdjustingI2C) : SelfAdjustingI2C :=
  mkController (currentConfig c) (bestConfig c) (performanceHistory c)
    (deviceConfigs c) (historyIndex c) (consecutiveErrors c) (deviceCount c)
    (lastAdjustmentTime c) (adjustmentCooldown c) (lastErrorTime c)
    (learningMode c) (emergencyRecovery c) (adaptiveMode c)
    (performanceScore c) (trendAnalysis c) (adaptationRate c)
    (currentDeviceAddress c) (lastError c) v (errorHistoryIndex c).
Definition set_errorHistoryIndex v (c : SelfAdjustingI2C) : SelfAdjustingI2C :=
  mkController (currentConfig c) (bestConfig c) (performanceHistory c)
    (deviceConfigs c) (historyIndex c) (consecutiveErrors c) (deviceCount c)
    (lastAdjustmentTime c) (adjustmentCooldown c) (lastErrorTime c)
    (learningMode c) (emergencyRecovery c) (adaptiveMode c)
    (performanceScore c) (trendAnalysis c) (adaptationRate c)
    (currentDeviceAddress c) (lastError c) (errorHistory c) v.

Definition upd_currentConfig (f : I2CConfig -> I2CConfig) (c : SelfAdjustingI2C) :=
  set_currentConfig (f (currentConfig c)) c.

Definition set_ctl v (w : World) : World :=
  mkWorld v (clockSpeedRange w) (riseTimeRange w) (wireClock w).
Definition set_clockSpeedRange v (w : World) : World :=
  mkWorld (ctl w) v (riseTimeRange w) (wireClock w).
Definition set_riseTimeRange v (w : World) : World :=
  mkWorld (ctl w) (clockSpeedRange w) v (wireClock w).
Definition set_wireClock v (w : World) : World :=
  mkWorld (ctl w) (clockSpeedRange w) (riseTimeRange w) v.
Definition upd_ctl (f : SelfAdjustingI2C -> SelfAdjustingI2C) (w : World) : World :=
  set_ctl (f (ctl w)) w.

(** ** Dynamic range model ([SelfAdjusting_I2C.h], lines 28-47 and 840-872) *)

Definition clockSpeedRange_static : DynamicRange :=
  mkDynamicRange 75000 3500000 100000 100000 1 1 F32.zero.

Definition riseTimeRange_static : DynamicRange :=
  mkDynamicRange 40 250 125 125 8 8 F32.zero.

Definition calculateValueFromStep (range : DynamicRange) (step : Z) : Z :=
  let step := if DYNAMIC_RANGE_STEPS <=? step
              then DYNAMIC_RANGE_STEPS - 1 else step in
  u32 (min_value range
       + F32.to_u32 (F32.mul (F32.of_Z step) (step_size range))).

Definition calculateStepFromValue (range : DynamicRange) (value : Z) : Z :=
  if value <=? min_value range then 0
  else if max_value range <=? value then DYNAMIC_RANGE_STEPS - 1
  else
    let step :=
      F32.to_u8 (F32.div (F32.of_Z (u32 (value - min_value range)))
                         (step_size range)) in
    if step <? u8 (DYNAMIC_RANGE_STEPS - 1) then step
    else u8 (DYNAMIC_RANGE_STEPS - 1).

Definition updateDynamicRange (range : DynamicRange) (newStep : Z)
    : DynamicRange :=
  if newStep <? DYNAMIC_RANGE_STEPS then
    let range := set_current_step newStep range in
    set_current_value (calculateValueFromStep range newStep) range
  else range.

Definition isStepValid (step : Z) : bool := step <? DYNAMIC_RANGE_STEPS.

Definition initializeRange (range : DynamicRange) : DynamicRange :=
  let range :=
    set_step_size
      (F32.div (F32.of_Z (u32 (max_value range - min_value range)))
               (F32.of_Z (DYNAMIC_RANGE_STEPS - 1))) range in
  let range :=
    set_current_step (calculateStepFromValue range (default_value range))
                     range in
  set_optimal_step (current_step range) range.

(** The three assignments of [initializeDynamicRanges] touch each table
    independently, so they are grouped per table. *)
Definition initializeDynamicRanges (w : World) : World :=
  set_riseTimeRange (initializeRange (riseTimeRange w))
    (set_clockSpeedRange (initializeRange (clockSpeedRange w)) w).

(** ** Array access

    The three member arrays have a fixed length; every index the source
    uses is bounded by a loop guard or by [deviceCount < MAX_DEVICES], so the
    default of [arr_get] and the no-op of an out-of-range insert are never
    observed on a state the controller reaches. *)

Definition arr_get {A} (d : A) (l : list A) (i : nat) : A := default d (l !! i).

Definition zeroConfig : I2CConfig := mkConfig 0 0 0 0 zeroMetrics false.
Definition zeroDevice : DeviceConfig := mkDevice 0 zeroConfig false.

Definition device (c : SelfAdjustingI2C) (i : nat) : DeviceConfig :=
  arr_get zeroDevice (deviceConfigs c) i.

Definition history (c : SelfAdjustingI2C) (i : nat) : I2CPerformanceMetrics :=
  arr_get zeroMetrics (performanceHistory c) i.

(** Indices [lo, lo+1, ..., hi-1] of a counting [for] loop. *)
Definition indices (lo hi : Z) : list nat :=
  seq (Z.to_nat lo) (Z.to_nat hi - Z.to_nat lo).

(** ** Scoring ([SelfAdjusting_I2C.h], lines 576-627) *)

Definition calculateReliabilityScore (c : SelfAdjustingI2C) : float :=
  let m := metrics (currentConfig c) in
  let total := u32 (successfulTransactions m + failedTransactions m) in
  if total =? 0 then F32.zero
  else F32.mul (F32.div (F32.of_Z (successfulTransactions m)) (F32.of_Z total))
               (F32.of_Z 100).

Definition calculateEfficiencyScore (c : SelfAdjustingI2C) : float :=
  let m := metrics (currentConfig c) in
  if averageTransactionTime m =? 0 then F32.zero
  else
    let baseTime := F32.of_Z 1000 in
    let normalizedTime := F32.div (F32.of_Z (averageTransactionTime m)) baseTime in
    F32.max F32.zero
            (F32.div (F32.of_Z 100) (F32.add (F32.of_Z 1) normalizedTime)).

(** [acc += f(i)] over the indices [l], where [f] may fail to return. *)
Fixpoint accumulate (f : nat -> option float) (l : list nat) (acc : float)
    : option float :=
  match l with
  | [] => Some acc
  | i :: l' =>
      match f i with
      | Some x => accumulate f l' (F32.add acc x)
      | None => None
      end
  end.

(** The two loops of [calculateStabilityScore], for [historyIndex >= 3],
    over a given scoring function. *)
Definition stabilityLoops (score : I2CPerformanceMetrics -> option float)
    (c : SelfAdjustingI2C) : option float :=
  let samples := Z.min (historyIndex c) LEARNING_WINDOW_SIZE in
  match accumulate (fun i => score (history c i)) (indices 0 samples) F32.zero with
  | None => None
  | Some total =>
      let mean := F32.div total (F32.of_Z samples) in
      match accumulate
              (fun i => match score (history c i) with
                        | Some s => Some (F32.mul (F32.sub s mean) (F32.sub s mean))
                        | None => None
                        end)
              (indices 0 samples) F32.zero with
      | None => None
      | Some total =>
          let variance := F32.div total (F32.of_Z samples) in
          Some (F32.max F32.zero (F32.sub (F32.of_Z 100) (F32.sqrt variance)))
      end
  end.

(** [calculatePerformanceScore] and [calculateStabilityScore] call each
    other; [depth] bounds the nesting of these calls, and [None] is a call
    that does not return within it. The argument [m] is only tested for
    [successfulTransactions == 0]: reliability and efficiency are read from
    [currentConfig.metrics], as in the source. *)
Fixpoint calculatePerformanceScore (depth : nat) (c : SelfAdjustingI2C)
    (m : I2CPerformanceMetrics) : option float :=
  if successfulTransactions m =? 0 then Some F32.zero
  else
    let reliabilityScore := calculateReliabilityScore c in
    let efficiencyScore := calculateEfficiencyScore c in
    match
      (if historyIndex c <? 3 then Some (F32.of_Z 50)
       else match depth with
            | O => None
            | S d => stabilityLoops (calculatePerformanceScore d c) c
            end)
    with
    | None => None
    | Some stabilityScore =>
        Some (F32.add
                (F32.add (F32.mul reliabilityScore (F32.lit 6 10))
                         (F32.mul efficiencyScore (F32.lit 25 100)))
                (F32.mul stabilityScore (F32.lit 15 100)))
    end.

Definition calculateStabilityScore (depth : nat) (c : SelfAdjustingI2C)
    : option float :=
  if historyIndex c <? 3 then Some (F32.of_Z 50)
  else match depth with
       | O => None
       | S d => stabilityLoops (calculatePerformanceScore d c) c
       end.

(** [analyzeTrend] ([SelfAdjusting_I2C.cpp], lines 355-371). *)
Definition analyzeTrend (depth : nat) (c : SelfAdjustingI2C) : option float :=
  if historyIndex c <? 3 then Some F32.zero
  else
    let samples := Z.min (historyIndex c) LEARNING_WINDOW_SIZE in
    match accumulate
            (fun i =>
               match calculatePerformanceScore depth c (history c i),
                     calculatePerformanceScore depth c (history c (i - 1)) with
               | Some currentScore, Some previousScore =>
                   Some (F32.sub currentScore previousScore)
               | _, _ => None
               end)
            (indices 1 samples) F32.zero with
    | None => None
    | Some trend => Some (F32.div trend (F32.of_Z (samples - 1)))
    end.

(** ** Error history ([SelfAdjusting_I2C.h], lines 803-816) *)

Definition updateErrorHistory (error : I2CErrorType) (c : SelfAdjustingI2C)
    : SelfAdjustingI2C :=
  let c := set_errorHistory
             (<[Z.to_nat (errorHistoryIndex c) := u8 (error_code error)]>
                (errorHistory c)) c in
  set_errorHistoryIndex (u8 ((errorHistoryIndex c + 1) mod 10)) c.

Definition getRecentErrorRate (c : SelfAdjustingI2C) : float :=
  let errorCount :=
    fold_left (fun n i => if arr_get 0 (errorHistory c) i =? error_code ERROR_NONE
                          then n else u8 (n + 1))
              (indices 0 10) 0 in
  F32.mul (F32.div (F32.of_Z errorCount) (F32.of_Z 10)) (F32.of_Z 100).

Definition classifyError (wireError : Z) : I2CErrorType :=
  if wireError =? 1 then ERROR_TIMEOUT
  else if wireError =? 2 then ERROR_NACK_ADDRESS
  else if wireError =? 3 then ERROR_NACK_DATA
  else if wireError =? 4 then ERROR_OTHER
  else ERROR_NONE.

(** ** Device registry ([SelfAdjusting_I2C.h], lines 785-801) *)

(** The pointer [findDeviceConfig] returns is the index of the entry. *)
Definition findDeviceConfig (c : SelfAdjustingI2C) (a : Z) : option nat :=
  List.find (fun i => address (device c i) =? a) (indices 0 (deviceCount c)).

Definition upd_device (i : nat) (f : DeviceConfig -> DeviceConfig)
    (c : SelfAdjustingI2C) : SelfAdjustingI2C :=
  set_deviceConfigs (<[i := f (device c i)]> (deviceConfigs c)) c.

Definition addDeviceConfig (a : Z) (c : SelfAdjustingI2C) : SelfAdjustingI2C :=
  if deviceCount c <? MAX_DEVICES then
    let c := set_deviceConfigs
               (<[Z.to_nat (deviceCount c) := mkDevice a (currentConfig c) false]>
                  (deviceConfigs c)) c in
    set_deviceCount (u8 (deviceCount c + 1)) c
  else c.

(** [removeDeviceConfig] ([SelfAdjusting_I2C.cpp], lines 166-177): the outer
    loop stops at the first entry with the address, which is the entry
    [findDeviceConfig] returns. *)
Definition removeDeviceConfig (a : Z) (c : SelfAdjustingI2C) : SelfAdjustingI2C :=
  match findDeviceConfig c a with
  | None => c
  | Some i =>
      let shifted :=
        fold_left (fun devs j => <[j := arr_get zeroDevice devs (S j)]> devs)
                  (indices (Z.of_nat i) (deviceCount c - 1)) (deviceConfigs c) in
      set_deviceCount (u8 (deviceCount c - 1)) (set_deviceConfigs shifted c)
  end.

(** ** Configuration management *)

(** [applyConfiguration]: [setHardwareClockSpeed] is [Wire.setClock]; the
    body of [setHardwareRiseTime] is empty on every platform branch. *)
Definition applyConfiguration (w : World) : World :=
  set_wireClock (clockSpeed (currentConfig (ctl w)) :: wireClock w) w.

Definition saveCurrentAsBest (c : SelfAdjustingI2C) : SelfAdjustingI2C :=
  set_bestConfig (currentConfig c) c.

Definition restoreBestConfiguration (w : World) : World :=
  applyConfiguration (upd_ctl (fun c => set_currentConfig (bestConfig c) c) w).

(** [updateDynamicRange(clockSpeedRange, step)] and
    [updateDynamicRange(riseTimeRange, step)]. *)
Definition updateClockSpeedRange (step : Z) (w : World) : World :=
  set_clockSpeedRange (updateDynamicRange (clockSpeedRange w) step) w.
Definition updateRiseTimeRange (step : Z) (w : World) : World :=
  set_riseTimeRange (updateDynamicRange (riseTimeRange w) step) w.

(** [currentConfig.clockSpeed = clockSpeedRange.current_value] and
    [currentConfig.riseTime = riseTimeRange.current_value] (a [uint16_t]). *)
Definition loadClockSpeed (w : World) : World :=
  upd_ctl (upd_currentConfig
             (set_clockSpeed (current_value (clockSpeedRange w)))) w.
Definition loadRiseTime (w : World) : World :=
  upd_ctl (upd_currentConfig
             (set_riseTime (u16 (current_value (riseTimeRange w))))) w.

(** [applyDeviceConfiguration] ([SelfAdjusting_I2C.cpp], lines 373-389). *)
Definition applyDeviceConfiguration (a : Z) (w : World) : World :=
  let c := ctl w in
  match findDeviceConfig c a with
  | Some i =>
      let d := device c i in
      if hasCustomConfig d
         && (negb (clockSpeed (currentConfig c) =? clockSpeed (config d))
             || negb (riseTime (currentConfig c) =? riseTime (config d)))
      then
        applyConfiguration
          (upd_ctl (upd_currentConfig (fun cfg =>
             set_riseTime (riseTime (config d))
               (set_clockSpeed (clockSpeed (config d))
                  (set_riseTimeStep (riseTimeStep (config d))
                     (set_clockSpeedStep (clockSpeedStep (config d)) cfg))))) w)
      else w
  | None => w
  end.

(** [setDeviceSpecificConfig] ([SelfAdjusting_I2C.cpp], lines 143-164). *)
Definition setDeviceSpecificConfig (a clockSpeed_ riseTime_ : Z) (w : World)
    : World :=
  let w := match findDeviceConfig (ctl w) a with
           | None => upd_ctl (addDeviceConfig a) w
           | Some _ => w
           end in
  match findDeviceConfig (ctl w) a with
  | Some i =>
      let clockStep := calculateStepFromValue (clockSpeedRange w) clockSpeed_ in
      let riseStep := calculateStepFromValue (riseTimeRange w) riseTime_ in
      if isStepValid clockStep && isStepValid riseStep then
        let w := upd_ctl (upd_device i (upd_config (fun cfg =>
                   set_riseTimeStep riseStep (set_clockSpeedStep clockStep cfg)))) w in
        let w := updateClockSpeedRange clockStep w in
        let w := updateRiseTimeRange riseStep w in
        let w := upd_ctl (upd_device i (upd_config (fun cfg =>
                   set_riseTime (u16 (current_value (riseTimeRange w)))
                     (set_clockSpeed (current_value (clockSpeedRange w)) cfg)))) w in
        upd_ctl (upd_device i (set_hasCustomConfig true)) w
      else w
  | None => w
  end.

(** [setClockSpeed] and [setRiseTime] ([SelfAdjusting_I2C.cpp], lines 79-97). *)
Definition setClockSpeed (clockSpeed_ : Z) (w : World) : World :=
  let step := calculateStepFromValue (clockSpeedRange w) clockSpeed_ in
  if isStepValid step then
    applyConfiguration
      (loadClockSpeed
         (updateClockSpeedRange step
            (upd_ctl (upd_currentConfig (set_clockSpeedStep step)) w)))
  else w.

Definition setRiseTime (riseTimeNs : Z) (w : World) : World :=
  let step := calculateStepFromValue (riseTimeRange w) riseTimeNs in
  if isStepValid step then
    applyConfiguration
      (loadRiseTime
         (updateRiseTimeRange step
            (upd_ctl (upd_currentConfig (set_riseTimeStep step)) w)))
  else w.

(** [shouldTriggerAdjustment] ([SelfAdjusting_I2C.h], lines 733-737). *)
Definition shouldTriggerAdjustment (c : SelfAdjustingI2C) : bool :=
  let m := metrics (currentConfig c) in
  let totalTransactions := u32 (successfulTransactions m + failedTransactions m) in
  (0 <? totalTransactions) && (totalTransactions mod PERFORMANCE_SAMPLES =? 0).

(** Arduino's [constrain(x,lo,hi)] macro,
    [((x)<(lo)?(lo):((x)>(hi)?(hi):(x)))]. *)
Definition constrain (x lo hi : Z) : Z :=
  if x <? lo then lo else if hi <? x then hi else x.

Definition enableLearning (enable : bool) (c : SelfAdjustingI2C) : SelfAdjustingI2C :=
  let c := set_learningMode enable c in
  if enable then set_adjustmentCooldown 5000 c else c.

Definition enableAdaptiveMode (enable : bool) (c : SelfAdjustingI2C) :=
  set_adaptiveMode enable c.

Definition setAdaptationRate (rate : Z) (c : SelfAdjustingI2C) :=
  set_adaptationRate (constrain rate 1 10) c.

Definition enableEmergencyRecovery (enable : bool) (c : SelfAdjustingI2C) :=
  set_emergencyRecovery enable c.

Definition setCooldownPeriod (milliseconds : Z) (c : SelfAdjustingI2C) :=
  set_adjustmentCooldown milliseconds c.

Definition isInRecoveryMode (c : SelfAdjustingI2C) : bool :=
  ERROR_THRESHOLD <=? consecutiveErrors c.

Definition getDeviceMetrics (c : SelfAdjustingI2C) (a : Z) : I2CPerformanceMetrics :=
  match findDeviceConfig c a with
  | Some i => metrics (config (device c i))
  | None => zeroMetrics
  end.

(** [shiftPerformanceHistory] ([SelfAdjusting_I2C.cpp], lines 432-444), a
    private member that no other member calls. *)
Definition shiftPerformanceHistory (c : SelfAdjustingI2C) : SelfAdjustingI2C :=
  let c :=
    if LEARNING_WINDOW_SIZE <=? historyIndex c then
      let shifted :=
        fold_left (fun h i => <[i := arr_get zeroMetrics h (S i)]> h)
                  (indices 0 (LEARNING_WINDOW_SIZE - 1)) (performanceHistory c) in
      set_historyIndex (LEARNING_WINDOW_SIZE - 1) (set_performanceHistory shifted c)
    else c in
  let c := set_performanceHistory
             (<[Z.to_nat (historyIndex c) := metrics (currentConfig c)]>
                (performanceHistory c)) c in
  set_historyIndex (u8 (historyIndex c + 1)) c.

(** [optimizeDynamicRanges] ([SelfAdjusting_I2C.h], lines 874-880), a
    private member that no other member calls. *)
Definition optimizeDynamicRanges (depth : nat) (w : World) : option World :=
  match calculatePerformanceScore depth (ctl w) (metrics (bestConfig (ctl w))) with
  | None => None
  | Some best =>
      if F32.ltb best (performanceScore (ctl w)) then
        Some (set_riseTimeRange
                (set_optimal_step (current_step (riseTimeRange w)) (riseTimeRange w))
                (set_clockSpeedRange
                   (set_optimal_step (current_step (clockSpeedRange w))
                                     (clockSpeedRange w)) w))
      else Some w
  end.

(** ** The constructor ([SelfAdjusting_I2C.h], lines 237-273) *)

Definition constructor : World :=
  let w := initializeDynamicRanges
             (mkWorld
                (mkController zeroConfig zeroConfig [] [] 0 0 0 0 0 0
                              false false false F32.zero F32.zero 0 0
                              ERROR_NONE [] 0)
                clockSpeedRange_static riseTimeRange_static []) in
  let current :=
    mkConfig (current_step (clockSpeedRange w)) (current_step (riseTimeRange w))
             (current_value (clockSpeedRange w))
             (u16 (current_value (riseTimeRange w)))
             zeroMetrics true in
  set_ctl
    (mkController
       current                                  (* currentConfig *)
       current                                  (* bestConfig = currentConfig *)
       (replicate 10 zeroMetrics)               (* performanceHistory *)
       (replicate 16 zeroDevice)                (* deviceConfigs *)
       0                                        (* historyIndex *)
       0                                        (* consecutiveErrors *)
       0                                        (* deviceCount *)
       0                                        (* lastAdjustmentTime *)
       5000                                     (* adjustmentCooldown *)
       0                                        (* lastErrorTime *)
       true                                     (* learningMode *)
       true                                     (* emergencyRecovery *)
       true                                     (* adaptiveMode *)
       F32.zero                                 (* performanceScore *)
       F32.zero                                 (* trendAnalysis *)
       5                                        (* adaptationRate *)
       0                                        (* currentDeviceAddress *)
       ERROR_NONE                               (* lastError *)
       (replicate 10 0)                         (* errorHistory *)
       0)                                       (* errorHistoryIndex *)
    w.

(** ** Computations against the platform

    [returned p n] is the [n]-th value the platform hands back to the
    library (the result of a [Wire] transaction, [millis()], [micros()]);
    [stackDepth p] bounds the nesting of score evaluations. A computation
    starts at a tape position and a world, and yields a result, the next
    position and the new world, or [None] when it does not return. *)

Record Platform := mkPlatform {
  returned : nat -> Z;
  stackDepth : nat
}.

Definition M (A : Type) : Type :=
  Platform -> nat -> World -> option (A * nat * World).

Definition ret {A} (a : A) : M A := fun _ n w => Some (a, n, w).

Definition bind {A B} (m : M A) (k : A -> M B) : M B :=
  fun p n w =>
    match m p n w with
    | Some (a, n', w') => k a p n' w'
    | None => None
    end.

Notation "'let*' x ':=' m 'in' k" := (bind m (fun x => k))
  (at level 10, x name, m at level 100, k at level 200).
Notation "m >> k" := (bind m (fun _ => k))
  (at level 90, right associativity).

Definition get : M World := fun _ n w => Some (w, n, w).
Definition getc : M SelfAdjustingI2C := fun _ n w => Some (ctl w, n, w).
Definition modify (f : World -> World) : M unit := fun _ n w => Some (tt, n, f w).
Definition modc (f : SelfAdjustingI2C -> SelfAdjustingI2C) : M unit :=
  modify (upd_ctl f).
Definition platformRead : M Z := fun p n w => Some (returned p n, S n, w).
Definition liftOption {A} (f : nat -> World -> option A) : M A :=
  fun p n w => match f (stackDepth p) w with
               | Some a => Some (a, n, w)
               | None => None
               end.

(** [millis()], [micros()]: 32-bit counters. *)
Definition millis : M Z := let* t := platformRead in ret (u32 t).
Definition micros : M Z := let* t := platformRead in ret (u32 t).

(** The [uint8_t] result of [Wire.requestFrom] and [Wire.endTransmission]. *)
Definition wireResult : M Z := let* r := platformRead in ret (u8 r).

(** What the remaining [Wire] calls return ([write], [available], [read],
    [peek]). *)
Definition wireValue : M Z := platformRead.

Definition scoreOf (m : I2CPerformanceMetrics) : M float :=
  liftOption (fun depth w => calculatePerformanceScore depth (ctl w) m).

Definition trendNow : M float :=
  liftOption (fun depth w => analyzeTrend depth (ctl w)).

(** A [for] loop over [l] carrying the loop's local variables in [a]. *)
Fixpoint forEach {A X} (body : A -> X -> M A) (l : list X) (a : A) : M A :=
  match l with
  | [] => ret a
  | x :: l' => let* a' := body a x in forEach body l' a'
  end.

(** ** Metrics, decision and recovery ([SelfAdjusting_I2C.h], lines 421-692) *)

Definition updatePerformanceMetrics (success : bool)
    (transactionTime deviceAddress : Z) : M unit :=
  (* global metrics *)
  modc (fun c =>
    if success then
      set_consecutiveErrors 0
        (upd_currentConfig (upd_metrics (fun m =>
           set_totalTransactionTime (u32 (totalTransactionTime m + transactionTime))
             (set_successfulTransactions (u32 (successfulTransactions m + 1)) m))) c)
    else
      set_consecutiveErrors (u8 (consecutiveErrors c + 1))
        (upd_currentConfig (upd_metrics (fun m =>
           set_failedTransactions (u32 (failedTransactions m + 1)) m)) c)) >>
  (* device-specific metrics *)
  modc (fun c =>
    if adaptiveMode c then
      let c := match findDeviceConfig c deviceAddress with
               | None => addDeviceConfig deviceAddress c
               | Some _ => c
               end in
      match findDeviceConfig c deviceAddress with
      | Some i =>
          upd_device i (upd_config (upd_metrics (fun m =>
            if success then
              set_totalTransactionTime (u32 (totalTransactionTime m + transactionTime))
                (set_successfulTransactions (u32 (successfulTransactions m + 1)) m)
            else set_failedTransactions (u32 (failedTransactions m + 1)) m))) c
      | None => c
      end
    else c) >>
  modc (upd_currentConfig (upd_metrics (fun m =>
    let totalTransactions := u32 (successfulTransactions m + failedTransactions m) in
    if 0 <? totalTransactions then
      let m := set_errorRate
                 (u8 (u32 (failedTransactions m * 100) / totalTransactions)) m in
      if 0 <? successfulTransactions m then
        set_averageTransactionTime
          (totalTransactionTime m / successfulTransactions m) m
      else m
    else m))) >>
  let* now := millis in
  modc (upd_currentConfig (upd_metrics (set_lastUpdateTime now))) >>
  let* c := getc in
  let* score := scoreOf (metrics (currentConfig c)) in
  modc (set_performanceScore score).

Definition analyzePerformanceAndDecide : M AIDecision :=
  let decision := mkDecision 0 0 0 false "No adjustment needed" in
  let* now := millis in
  let* c := getc in
  if u32 (now - lastAdjustmentTime c) <? adjustmentCooldown c then
    ret (mkDecision 0 0 0 false "Cooldown period active")
  else
    let* currentScore := scoreOf (metrics (currentConfig c)) in
    let* bestScore := scoreOf (metrics (bestConfig c)) in
    let* trend := trendNow in
    let recentErrorRate := getRecentErrorRate c in
    if F32.ltb (F32.of_Z 10) recentErrorRate then
      ret (mkDecision (-1) 1 85 true "High error rate detected")
    else if (errorRate (metrics (currentConfig c)) =? 0)
            && (20 <? successfulTransactions (metrics (currentConfig c))) then
      let* decision :=
        (if F32.ltb (F32.mul bestScore (F32.lit 115 100)) currentScore then
           modc saveCurrentAsBest >>
           ret (mkDecision 0 0 0 false "New best configuration found")
         else ret decision) in
      if F32.ltb (F32.lit 2 10) trend && (6 <? adaptationRate c) then
        ret (mkDecision 1 (-1) 70 true "Positive trend, optimizing speed")
      else if F32.ltb (F32.lit 1 10) trend && (3 <? adaptationRate c) then
        ret (mkDecision 1 0 60 true "Moderate optimization")
      else ret decision
    else if F32.ltb currentScore (F32.mul bestScore (F32.lit 7 10)) then
      modify restoreBestConfiguration >>
      ret (mkDecision 0 0 95 false "Restoring best configuration")
    else if 2 <=? consecutiveErrors c then
      ret (mkDecision (-1) 1 80 true "Consecutive errors, reducing speed")
    else ret decision.

Definition applyAIDecision (decision : AIDecision) : M unit :=
  let* c := getc in
  let newClockStep := clockSpeedStep (currentConfig c) in
  let newRiseStep := riseTimeStep (currentConfig c) in
  let newClockStep :=
    if (0 <? clockSpeedDelta decision) && (newClockStep <? DYNAMIC_RANGE_STEPS - 1)
    then u8 (newClockStep + 1)
    else if (clockSpeedDelta decision <? 0) && (0 <? newClockStep)
    then u8 (newClockStep - 1)
    else newClockStep in
  let newRiseStep :=
    if (0 <? riseTimeDelta decision) && (newRiseStep <? DYNAMIC_RANGE_STEPS - 1)
    then u8 (newRiseStep + 1)
    else if (riseTimeDelta decision <? 0) && (0 <? newRiseStep)
    then u8 (newRiseStep - 1)
    else newRiseStep in
  if isStepValid newClockStep && isStepValid newRiseStep then
    modc (upd_currentConfig (fun cfg =>
      set_riseTimeStep newRiseStep (set_clockSpeedStep newClockStep cfg))) >>
    modify (updateClockSpeedRange newClockStep) >>
    modify (updateRiseTimeRange newRiseStep) >>
    modify loadClockSpeed >>
    modify loadRiseTime >>
    modify applyConfiguration >>
    let* now := millis in
    modc (set_lastAdjustmentTime now) >>
    modc (upd_currentConfig (set_metrics zeroMetrics)) >>
    let* now := millis in
    modc (upd_currentConfig (upd_metrics (set_lastUpdateTime now)))
  else ret tt.

Definition emergencyRecoveryProcedure : M unit :=
  modc (upd_currentConfig (fun cfg =>
    set_riseTimeStep (DYNAMIC_RANGE_STEPS - 1) (set_clockSpeedStep 0 cfg))) >>
  modify (updateClockSpeedRange 0) >>
  modify (updateRiseTimeRange (DYNAMIC_RANGE_STEPS - 1)) >>
  modify loadClockSpeed >>
  modify loadRiseTime >>
  modify applyConfiguration >>
  modc (set_consecutiveErrors 0) >>
  modc (set_learningMode false) >>
  let* now := millis in
  modc (set_lastAdjustmentTime now) >>
  modc (set_adjustmentCooldown 15000).

(** The [else] branch of [adaptiveRecovery]: one step back on the clock, one
    step up on the rise time. *)
Definition adaptiveRetreat (w : World) : World :=
  let w :=
    if 0 <? clockSpeedStep (currentConfig (ctl w)) then
      let w := upd_ctl (upd_currentConfig (fun cfg =>
                 set_clockSpeedStep (u8 (clockSpeedStep cfg - 1)) cfg)) w in
      loadClockSpeed
        (updateClockSpeedRange (clockSpeedStep (currentConfig (ctl w))) w)
    else w in
  let w :=
    if riseTimeStep (currentConfig (ctl w)) <? DYNAMIC_RANGE_STEPS - 1 then
      let w := upd_ctl (upd_currentConfig (fun cfg =>
                 set_riseTimeStep (u8 (riseTimeStep cfg + 1)) cfg)) w in
      loadRiseTime
        (updateRiseTimeRange (riseTimeStep (currentConfig (ctl w))) w)
    else w in
  upd_ctl (set_consecutiveErrors 0) (applyConfiguration w).

Definition adaptiveRecovery : M unit :=
  let* c := getc in
  let recentErrorRate := getRecentErrorRate c in
  if F32.ltb (F32.of_Z 20) recentErrorRate then emergencyRecoveryProcedure
  else modify adaptiveRetreat.

(** [incrementalRecovery] ([SelfAdjusting_I2C.cpp], lines 391-401). *)
Definition incrementalRecovery (w : World) : World :=
  let w :=
    if 0 <? clockSpeedStep (currentConfig (ctl w)) then
      let w := upd_ctl (upd_currentConfig (fun cfg =>
                 set_clockSpeedStep (u8 (clockSpeedStep cfg - 1)) cfg)) w in
      applyConfiguration
        (loadClockSpeed
           (updateClockSpeedRange (clockSpeedStep (currentConfig (ctl w))) w))
    else w in
  upd_ctl (set_consecutiveErrors 0) w.

Definition handleError (errorType : I2CErrorType) : M unit :=
  modc (set_lastError errorType) >>
  let* now := millis in
  modc (set_lastErrorTime now) >>
  modc (updateErrorHistory errorType) >>
  let* c := getc in
  if ERROR_THRESHOLD <=? consecutiveErrors c then
    if emergencyRecovery c then emergencyRecoveryProcedure
    else if adaptiveMode c then adaptiveRecovery
    else modify incrementalRecovery
  else ret tt.

(** ** Bus operations ([SelfAdjusting_I2C.h], lines 275-418) *)

Definition begin : M unit :=
  modify applyConfiguration >>
  let* now := millis in
  modc (upd_currentConfig (upd_metrics (set_lastUpdateTime now))).

(** After a transaction that succeeded: the periodic decision. *)
Definition adjustIfDue : M unit :=
  let* c := getc in
  if learningMode c && shouldTriggerAdjustment c then
    let* decision := analyzePerformanceAndDecide in
    if shouldAdjust decision then applyAIDecision decision else ret tt
  else ret tt.

(** Both overloads of [requestFrom]: [stop] is only passed on to [Wire]. *)
Definition requestFrom (a quantity : Z) : M Z :=
  modc (set_currentDeviceAddress a) >>
  let* c := getc in
  (if adaptiveMode c then modify (applyDeviceConfiguration a) else ret tt) >>
  let* startTime := micros in
  let* result := wireResult in
  let* endTime := micros in
  let transactionTime := u32 (endTime - startTime) in
  updatePerformanceMetrics (0 <? result) transactionTime a >>
  (if result =? 0 then handleError ERROR_TIMEOUT else adjustIfDue) >>
  ret result.

Definition beginTransmission (a : Z) : M unit :=
  modc (set_currentDeviceAddress a) >>
  let* c := getc in
  if adaptiveMode c then modify (applyDeviceConfiguration a) else ret tt.

(** Both overloads of [endTransmission]. *)
Definition endTransmission : M Z :=
  let* startTime := micros in
  let* result := wireResult in
  let* endTime := micros in
  let transactionTime := u32 (endTime - startTime) in
  let* c := getc in
  updatePerformanceMetrics (result =? 0) transactionTime (currentDeviceAddress c) >>
  (if negb (result =? 0) then handleError (classifyError result)
   else adjustIfDue) >>
  ret result.

(** ** Control operations ([SelfAdjusting_I2C.cpp]) *)

Definition forceOptimization : M unit :=
  modc (set_lastAdjustmentTime 0) >>
  let* c := getc in
  if 0 <? successfulTransactions (metrics (currentConfig c)) then
    let* decision := analyzePerformanceAndDecide in
    if shouldAdjust decision then applyAIDecision decision else ret tt
  else ret tt.

Definition resetToDefaults : M unit :=
  modc (upd_currentConfig (fun cfg =>
    set_riseTimeStep (DYNAMIC_RANGE_STEPS / 2) (set_clockSpeedStep 0 cfg))) >>
  let* c := getc in
  modify (updateClockSpeedRange (clockSpeedStep (currentConfig c))) >>
  modify (updateRiseTimeRange (riseTimeStep (currentConfig c))) >>
  modify loadClockSpeed >>
  modify loadRiseTime >>
  modc (upd_currentConfig (set_isValid true)) >>
  modc (upd_currentConfig (set_metrics zeroMetrics)) >>
  let* now := millis in
  modc (upd_currentConfig (upd_metrics (set_lastUpdateTime now))) >>
  modc (fun c =>
    set_errorHistoryIndex 0
      (set_lastError ERROR_NONE
         (set_adaptationRate 5
            (set_trendAnalysis F32.zero
               (set_performanceScore F32.zero
                  (set_adaptiveMode true
                     (set_emergencyRecovery true
                        (set_learningMode true
                           (set_adjustmentCooldown 5000
                              (set_lastErrorTime 0
                                 (set_lastAdjustmentTime 0
                                    (set_consecutiveErrors 0 c)))))))))))) >>
  modc (set_errorHistory (replicate 10 0)) >>
  modify applyConfiguration >>
  modc (fun c => set_bestConfig (currentConfig c) c).

Definition resetLearning : M unit :=
  modc (set_performanceHistory (replicate 10 zeroMetrics)) >>
  modc (set_historyIndex 0) >>
  modc (upd_currentConfig (set_metrics zeroMetrics)) >>
  let* now := millis in
  modc (upd_currentConfig (upd_metrics (set_lastUpdateTime now))) >>
  modc (fun c =>
    set_lastAdjustmentTime 0
      (set_consecutiveErrors 0
         (set_trendAnalysis F32.zero (set_performanceScore F32.zero c)))) >>
  modc (set_errorHistory (replicate 10 0)) >>
  modc (set_errorHistoryIndex 0).

(** [testConfiguration] ([SelfAdjusting_I2C.cpp], lines 267-323). The loop
    state is [(testPassed, testErrors)]; once [testPassed] is false the loop
    guard stops the remaining iterations. *)
Definition testConfiguration (clockStep riseStep : Z) : M bool :=
  if negb (isStepValid clockStep) || negb (isStepValid riseStep) then ret false
  else
    let* c := getc in
    let originalConfig := currentConfig c in
    modify (fun w => upd_ctl (upd_currentConfig (fun cfg =>
      set_riseTime (u16 (calculateValueFromStep (riseTimeRange w) riseStep))
        (set_clockSpeed (calculateValueFromStep (clockSpeedRange w) clockStep)
           (set_riseTimeStep riseStep (set_clockSpeedStep clockStep cfg))))) w) >>
    modc (upd_currentConfig (set_metrics zeroMetrics)) >>
    let* now := millis in
    modc (upd_currentConfig (upd_metrics (set_lastUpdateTime now))) >>
    modify applyConfiguration >>
    let* c := getc in
    let* loop :=
      forEach (fun (st : bool * Z) (i : nat) =>
        let '(testPassed, testErrors) := st in
        if testPassed then
          let* result := wireResult in
          let* st' :=
            (if negb (result =? 0) then
               let testErrors := u8 (testErrors + 1) in
               ret (if 2 <? testErrors then false else true, testErrors)
             else
               modc (upd_currentConfig (upd_metrics (fun m =>
                 set_successfulTransactions (u32 (successfulTransactions m + 1)) m))) >>
               ret (testPassed, testErrors)) in
          modc (upd_currentConfig (upd_metrics (fun m =>
            set_failedTransactions (u32 (failedTransactions m + snd st')) m))) >>
          ret st'
        else ret st)
        (indices 0 (deviceCount c)) (true, 0) in
    let testPassed := if deviceCount c =? 0 then true else fst loop in
    (if negb testPassed then
       modc (set_currentConfig originalConfig) >> modify applyConfiguration
     else ret tt) >>
    ret testPassed.

(** [scanBus] ([SelfAdjusting_I2C.cpp], lines 325-353), without the serial
    output. *)
Definition scanBus : M Z :=
  forEach (fun (devicesFound : Z) (i : nat) =>
    let a := Z.of_nat i in
    let* error := wireResult in
    if error =? 0 then
      let* c := getc in
      (match findDeviceConfig c a with
       | None => modc (addDeviceConfig a)
       | Some _ => ret tt
       end) >>
      ret (u8 (devicesFound + 1))
    else ret devicesFound)
    (indices 1 127) 0.

(** [scanAndOptimize] ([SelfAdjusting_I2C.cpp], lines 111-141). The loop
    state is [(bestOverallConfig, bestOverallScore)]. *)
Definition scanAndOptimize : M unit :=
  let* devicesFound := scanBus in
  if devicesFound =? 0 then ret tt
  else
    let* c := getc in
    let* best :=
      forEach (fun st (clockStep : nat) =>
        forEach (fun (st : I2CConfig * float) (riseStep : nat) =>
          let* passed := testConfiguration (Z.of_nat clockStep) (Z.of_nat riseStep) in
          if passed then
            let* c := getc in
            let* score := scoreOf (metrics (currentConfig c)) in
            if F32.ltb (snd st) score then ret (currentConfig c, score)
            else ret st
          else ret st)
          (indices 0 DYNAMIC_RANGE_STEPS) st)
        (indices 0 DYNAMIC_RANGE_STEPS) (currentConfig c, F32.zero) in
    modc (set_currentConfig (fst best)) >>
    modify applyConfiguration >>
    modc saveCurrentAsBest.

(** ** The public interface

    One constructor per public member that can change the controller or
    consume a platform value; overloads that differ only in what they pass on
    to [Wire] share a constructor. The [const] members ([getClockSpeed],
    [getMetrics], [isInRecoveryMode], [printDiagnostics], ...) read the state
    and leave it unchanged. *)
Inductive Operation :=
| OpBegin
| OpEnd
| OpRequestFrom (a quantity : Z)
| OpBeginTransmission (a : Z)
| OpEndTransmission
| OpWrite
| OpAvailable
| OpRead
| OpPeek
| OpFlush
| OpEnableLearning (enable : bool)
| OpEnableAdaptiveMode (enable : bool)
| OpSetAdaptationRate (rate : Z)
| OpForceOptimization
| OpResetToDefaults
| OpResetLearning
| OpSetClockSpeed (clockSpeed_ : Z)
| OpSetRiseTime (riseTimeNs : Z)
| OpScanAndOptimize
| OpSetDeviceSpecificConfig (a clockSpeed_ riseTime_ : Z)
| OpRemoveDeviceConfig (a : Z)
| OpEnableEmergencyRecovery (enable : bool)
| OpSetCooldownPeriod (milliseconds : Z)
| OpTestConfiguration (clockStep riseStep : Z)
| OpScanBus.

Definition void {A} (m : M A) : M unit := m >> ret tt.

(** Arguments are converted to the parameter types of the member. *)
Definition run (op : Operation) : M unit :=
  match op with
  | OpBegin => begin
  | OpEnd => ret tt
  | OpRequestFrom a quantity => void (requestFrom (u8 a) (u8 quantity))
  | OpBeginTransmission a => beginTransmission (u8 a)
  | OpEndTransmission => void endTransmission
  | OpWrite | OpAvailable | OpRead | OpPeek => void wireValue
  | OpFlush => ret tt
  | OpEnableLearning enable => modc (enableLearning enable)
  | OpEnableAdaptiveMode enable => modc (enableAdaptiveMode enable)
  | OpSetAdaptationRate rate => modc (setAdaptationRate (u8 rate))
  | OpForceOptimization => forceOptimization
  | OpResetToDefaults => resetToDefaults
  | OpResetLearning => resetLearning
  | OpSetClockSpeed v => modify (setClockSpeed (u32 v))
  | OpSetRiseTime v => modify (setRiseTime (u16 v))
  | OpScanAndOptimize => scanAndOptimize
  | OpSetDeviceSpecificConfig a cs rt =>
      modify (setDeviceSpecificConfig (u8 a) (u32 cs) (u16 rt))
  | OpRemoveDeviceConfig a => modc (removeDeviceConfig (u8 a))
  | OpEnableEmergencyRecovery enable => modc (enableEmergencyRecovery enable)
  | OpSetCooldownPeriod ms => modc (setCooldownPeriod (u32 ms))
  | OpTestConfiguration cs rs => void (testConfiguration (u8 cs) (u8 rs))
  | OpScanBus => void scanBus
  end.

(** The worlds a program can observe: the constructed controller, and what
    any public operation returns from such a world, on any platform and from
    any position of its tape. *)
Inductive reachable : World -> Prop :=
| reachable_constructor : reachable constructor
| reachable_run p op n w r n' w' :
    reachable w -> run op p n w = Some (r, n', w') -> reachable w'.

(** * Vocabulary of the properties *)

(** A range has the same definition as [r0] when the fields the conversions
    read agree; the stepping functions only ever change [current_step],
    [current_value] and [optimal_step]. *)
Definition same_definition (r r0 : DynamicRange) : Prop :=
  min_value r = min_value r0 /\ max_value r = max_value r0
  /\ step_size r = step_size r0.

Definition all_steps : list Z := map Z.of_nat (seq 0 20).

(** The table check behind the conversion theorem: every pair of steps. *)
Definition conversions_ok (r : DynamicRange) : bool :=
  forallb (fun s =>
    forallb (fun s' =>
      implb (s <=? s')
            (calculateValueFromStep r s <=? calculateValueFromStep r s'))
      all_steps
    && (s - 1 <=? calculateStepFromValue r (calculateValueFromStep r s))
    && (calculateStepFromValue r (calculateValueFromStep r s) <=? s + 1))
    all_steps.


(** Total correctness of a computation: from every world satisfying [P], on
    every platform and tape position, [m] returns, with a result and a world
    satisfying [Q]. *)
Definition hoare {A} (P : World -> Prop) (m : M A) (Q : A -> World -> Prop)
    : Prop :=
  forall p n w, P w ->
    exists a n' w', m p n w = Some (a, n', w') /\ Q a w'.

(** The part of the controller the recovery invariants speak about. *)
Definition ccore (c : SelfAdjustingI2C)
    : Z * list I2CPerformanceMetrics * Z * bool :=
  (historyIndex c, performanceHistory c, consecutiveErrors c, emergencyRecovery c).

Definition core (w : World) : Z * list I2CPerformanceMetrics * Z * bool :=
  ccore (ctl w).

(** No snapshot was ever recorded, the consecutive-error counter is [k] and
    the emergency tier is enabled iff [e]. *)
Definition tracked (k : Z) (e : bool) (w : World) : Prop :=
  core w = (0, replicate 10 zeroMetrics, k, e).

(** What holds whenever a public operation has returned. *)
Definition idle (w : World) : Prop :=
  exists k e, 0 <= k < ERROR_THRESHOLD /\ tracked k e w.

(** The most conservative configuration, as the emergency tier leaves it. *)
Definition emergency_settings (w : World) : Prop :=
  clockSpeedStep (currentConfig (ctl w)) = 0
  /\ riseTimeStep (currentConfig (ctl w)) = DYNAMIC_RANGE_STEPS - 1
  /\ learningMode (ctl w) = false
  /\ adjustmentCooldown (ctl w) = 15000.

(** After [handleError]: below the threshold nothing tracked changes; at the
    threshold the counter is back to 0, and with the emergency tier enabled
    the settings are the most conservative ones. *)
Definition handled (k : Z) (e : bool) (w : World) : Prop :=
  if ERROR_THRESHOLD <=? k
  then tracked 0 e w /\ (e = true -> emergency_settings w)
  else tracked k e w.

(** After a bus transaction started with counter [k]: a failure is counted
    and handled, a success clears the counter. *)
Definition after_transaction (failed : bool) (k : Z) (e : bool) (w : World)
    : Prop :=
  if failed then handled (u8 (k + 1)) e w else tracked 0 e w.

(** The cooldown test of the decision engine, for the time read at tape
    position [n]. *)
Definition in_cooldown (p : Platform) (n : nat) (w : World) : Prop :=
  u32 (u32 (returned p n) - lastAdjustmentTime (ctl w))
    < adjustmentCooldown (ctl w).

(** The three recovery tiers, the tier the configuration flags select, and
    the member that implements each tier. *)
Inductive RecoveryTier := Emergency | Adaptive | Incremental.

Definition selectTier (c : SelfAdjustingI2C) : RecoveryTier :=
  if emergencyRecovery c then Emergency
  else if adaptiveMode c then Adaptive
  else Incremental.

Definition runTier (t : RecoveryTier) : M unit :=
  match t with
  | Emergency => emergencyRecoveryProcedure
  | Adaptive => adaptiveRecovery
  | Incremental => modify incrementalRecovery
  end.

(** The values of the two tables, as the configuration stores them (the
    rise time is a [uint16_t]). *)
Definition clockSpeedAt (w : World) (step : Z) : Z :=
  calculateValueFromStep (clockSpeedRange w) step.
Definition riseTimeAt (w : World) (step : Z) : Z :=
  u16 (calculateValueFromStep (riseTimeRange w) step).

(** The value that goes with a step after a tier has run: the table value
    of the new step where the step moved, the value as it was where it did
    not. *)
Definition value_after (table : Z -> Z) (step value step' : Z) : Z :=
  if step' =? step then value else table step'.

(** What each tier leaves behind, in the words of the specification; [w] is
    the world the tier starts from and [w'] the world it leaves.

    Emergency: clock step 0 and rise-time step STEPS-1 with their table
    values, pushed to the hardware once; learning disabled, the cooldown
    extended to 15 s and restarted at [now]. *)
Definition emergency_outcome (now : Z) (w w' : World) : Prop :=
  currentConfig (ctl w')
  = mkConfig 0 (DYNAMIC_RANGE_STEPS - 1)
      (clockSpeedAt w 0) (riseTimeAt w (DYNAMIC_RANGE_STEPS - 1))
      (metrics (currentConfig (ctl w))) (isValid (currentConfig (ctl w)))
  /\ wireClock w' = clockSpeed (currentConfig (ctl w')) :: wireClock w
  /\ learningMode (ctl w') = false
  /\ adjustmentCooldown (ctl w') = 15000
  /\ lastAdjustmentTime (ctl w') = now.

(** Adaptive, when it does not escalate: the clock one step back and the
    rise time one step up, both within the table, pushed to the hardware
    once; learning and cooldown as they were. *)
Definition adaptive_outcome (w w' : World) : Prop :=
  let cfg := currentConfig (ctl w) in
  let cfg' := currentConfig (ctl w') in
  clockSpeedStep cfg' = Z.max 0 (clockSpeedStep cfg - 1)
  /\ riseTimeStep cfg' = Z.min (DYNAMIC_RANGE_STEPS - 1) (riseTimeStep cfg + 1)
  /\ clockSpeed cfg'
     = value_after (clockSpeedAt w) (clockSpeedStep cfg) (clockSpeed cfg)
         (clockSpeedStep cfg')
  /\ riseTime cfg'
     = value_after (riseTimeAt w) (riseTimeStep cfg) (riseTime cfg)
         (riseTimeStep cfg')
  /\ wireClock w' = clockSpeed cfg' :: wireClock w
  /\ learningMode (ctl w') = learningMode (ctl w)
  /\ adjustmentCooldown (ctl w') = adjustmentCooldown (ctl w)
  /\ lastAdjustmentTime (ctl w') = lastAdjustmentTime (ctl w).

(** Incremental: the clock one step back within the table, pushed to the
    hardware if it moved; the rise time, learning and cooldown as they
    were. *)
Definition incremental_outcome (w w' : World) : Prop :=
  let cfg := currentConfig (ctl w) in
  let cfg' := currentConfig (ctl w') in
  clockSpeedStep cfg' = Z.max 0 (clockSpeedStep cfg - 1)
  /\ riseTimeStep cfg' = riseTimeStep cfg
  /\ clockSpeed cfg'
     = value_after (clockSpeedAt w) (clockSpeedStep cfg) (clockSpeed cfg)
         (clockSpeedStep cfg')
  /\ riseTime cfg' = riseTime cfg
  /\ wireClock w'
     = (if clockSpeedStep cfg' =? clockSpeedStep cfg then wireClock w
        else clockSpeed cfg' :: wireClock w)
  /\ learningMode (ctl w') = learningMode (ctl w)
  /\ adjustmentCooldown (ctl w') = adjustmentCooldown (ctl w)
  /\ lastAdjustmentTime (ctl w') = lastAdjustmentTime (ctl w).

(** The outcome of the tier [t] started at tape position [n] on [w], and
    the position it ends at: only the emergency procedure reads the clock.
    The Adaptive tier is the one tier with two outcomes: when the recent
    error rate is above 20% it hands over to the emergency procedure, and
    its outcome is that of the Emergency tier. *)
Definition tier_outcome (t : RecoveryTier) (p : Platform) (n : nat)
    (w : World) (n' : nat) (w' : World) : Prop :=
  let emergency :=
    n' = S n /\ emergency_outcome (u32 (returned p n)) w w' in
  match t with
  | Emergency => emergency
  | Adaptive =>
      if F32.ltb (F32.of_Z 20) (getRecentErrorRate (ctl w)) then emergency
      else n' = n /\ adaptive_outcome w w'
  | Incremental => n' = n /\ incremental_outcome w w'
  end.

(** What [handleError] records before it looks at the counter; [now] is the
    value of [millis()]. *)
Definition recordError (errorType : I2CErrorType) (now : Z) (w : World) : World :=
  upd_ctl (updateErrorHistory errorType)
    (upd_ctl (set_lastErrorTime now) (upd_ctl (set_lastError errorType) w)).

(** A bus transaction that the controller records as a failure:
    [endTransmission] returning a non-zero code (possibly after the
    [beginTransmission] that addresses the device), or [requestFrom]
    returning no byte. *)
Inductive failedTransaction (p : Platform) (n : nat) (w : World)
    (n' : nat) (w' : World) : Prop :=
| failed_endTransmission r :
    endTransmission p n w = Some (r, n', w') -> r <> 0 ->
    failedTransaction p n w n' w'
| failed_write a r :
    (beginTransmission (u8 a) >> endTransmission) p n w = Some (r, n', w') ->
    r <> 0 ->
    failedTransaction p n w n' w'
| failed_requestFrom a quantity :
    requestFrom (u8 a) (u8 quantity) p n w = Some (0, n', w') ->
    failedTransaction p n w n' w'.

(** The score as the specification words it, from the fields of the
    snapshot [m] alone, for a given stability term. The operations are those
    of [calculateReliabilityScore] and [calculateEfficiencyScore], applied to
    [m] instead of [currentConfig.metrics]. *)
Definition snapshot_score (stability : float) (m : I2CPerformanceMetrics)
    : float :=
  if successfulTransactions m =? 0 then F32.zero
  else
    let reliability :=
      F32.mul (F32.div (F32.of_Z (successfulTransactions m))
                       (F32.of_Z (u32 (successfulTransactions m
                                       + failedTransactions m))))
              (F32.of_Z 100) in
    let efficiency :=
      F32.div (F32.of_Z 100)
              (F32.add (F32.of_Z 1)
                       (F32.div (F32.of_Z (averageTransactionTime m))
                                (F32.of_Z 1000))) in
    F32.add (F32.add (F32.mul reliability (F32.lit 6 10))
                     (F32.mul efficiency (F32.lit 25 100)))
            (F32.mul stability (F32.lit 15 100)).

(** ** Concrete runs *)

(** A sequence of public operations. *)
Fixpoint runAll (ops : list Operation) : M unit :=
  match ops with
  | [] => ret tt
  | op :: ops' => run op >> runAll ops'
  end.

(** The world after [ops] on a freshly constructed controller. *)
Definition world_after (p : Platform) (ops : list Operation) : World :=
  match runAll ops p 0%nat constructor with
  | Some (_, _, w) => w
  | None => constructor
  end.

(** A platform that answers with the values of [l], then with 0. *)
Definition tape (l : list Z) : Platform :=
  mkPlatform (fun n => nth n l 0) 0.

(** The reads of one [endTransmission]: [micros()] before and after, the
    result of [Wire.endTransmission] in between, then the [millis()] of
    [updatePerformanceMetrics]. *)
Definition transaction_reads (result elapsed : Z) : list Z :=
  [0; result; elapsed; 0].

(** The reads of a failing [endTransmission]: those of the transaction, then
    the [millis()] of [handleError]. *)
Definition failure_reads (result : Z) : list Z :=
  transaction_reads result 300 ++ [0].

(** The reads of a succeeding [endTransmission] after which the periodic
    decision runs and reads the time [now]. *)
Definition decision_reads (now : Z) : list Z :=
  transaction_reads 0 500 ++ [now].

(** Two NACKs on the address, then a probe of the registered device through
    [testConfiguration] (which starts a fresh metrics epoch with one
    success), then 24 successful transactions whose five periodic decisions
    all fall inside the cooldown. *)
Definition noisy_then_clean_tape : Platform :=
  tape (failure_reads 2 ++ failure_reads 2 ++ [0; 0]
        ++ concat (replicate 3 (transaction_reads 0 500))
        ++ concat (replicate 4 (decision_reads 0
                                ++ concat (replicate 4 (transaction_reads 0 500))))
        ++ decision_reads 0).

Definition noisy_then_clean : World :=
  world_after noisy_then_clean_tape
    ([OpEndTransmission; OpEndTransmission; OpTestConfiguration 0 7]
     ++ replicate 24 OpEndTransmission).

(** Three NACKs in a row on a fresh controller; the last read is the
    [millis()] of the emergency procedure. *)
Definition three_failures_tape : Platform :=
  tape (failure_reads 2 ++ failure_reads 2 ++ failure_reads 2 ++ [0]).

Definition after_failures (k : nat) : World :=
  world_after three_failures_tape (replicate k OpEndTransmission).

(** Two NACKs with the emergency tier switched off, and the world inside
    the third failing transaction, between [updatePerformanceMetrics] and
    [handleError]: the Adaptive tier is the one selected. *)
Definition third_failure_adaptive : World :=
  match updatePerformanceMetrics false 300 0 (tape [0]) 0%nat
          (world_after (tape (failure_reads 2 ++ failure_reads 2))
             [OpEnableEmergencyRecovery false;
              OpEndTransmission; OpEndTransmission]) with
  | Some (_, _, w) => w
  | None => constructor
  end.

(** 25 successful transactions with the promotion of the current
    configuration to best at the last one, then two NACKs: the best
    snapshot is clean, the current metrics are not. *)
Definition promoted_then_degraded_tape : Platform :=
  tape (concat (replicate 4 (concat (replicate 4 (transaction_reads 0 500))
                             ++ decision_reads 0))
        ++ concat (replicate 4 (transaction_reads 0 500))
        ++ decision_reads 6000
        ++ failure_reads 2 ++ failure_reads 2).

Definition promoted_then_degraded : World :=
  world_after promoted_then_degraded_tape
    (replicate 25 OpEndTransmission ++ [OpEndTransmission; OpEndTransmission]).

(** The reads of three failing transactions in a row with the emergency
    tier enabled: the third one ends with the [millis()] of the emergency
    procedure. *)
Definition breach_reads (result : Z) : list Z :=
  failure_reads result ++ failure_reads result ++ failure_reads result ++ [0].

(** 25 successful transactions with the promotion of the current
    configuration to best at the last one, then 40 transactions that fail
    with the [Wire] code 5 (a timeout on current cores), which
    [classifyError] maps to [ERROR_NONE]: the best snapshot is clean, the
    current metrics hold 25 successes and 40 failures, and the error ring
    holds no error. *)
Definition promoted_then_failing_tape : Platform :=
  tape (concat (replicate 4 (concat (replicate 4 (transaction_reads 0 500))
                             ++ decision_reads 0))
        ++ concat (replicate 4 (transaction_reads 0 500))
        ++ decision_reads 6000
        ++ concat (replicate 13 (breach_reads 5))
        ++ failure_reads 5).

Definition promoted_then_failing : World :=
  world_after promoted_then_failing_tape
    (replicate 25 OpEndTransmission ++ replicate 40 OpEndTransmission).

(** A controller that has seen one successful write to the device at
    address 0x40, which registers the device. *)
Definition one_device : World :=
  world_after (tape (transaction_reads 0 500))
    [OpBeginTransmission 64; OpEndTransmission].

(** Partial correctness of an invariant: whenever [m] returns from a world
    satisfying [Q], the world it returns satisfies [Q]. *)
Definition keeps {A} (Q : World -> Prop) (m : M A) : Prop :=
  forall p n w a n' w', m p n w = Some (a, n', w') -> Q w -> Q w'.

(** The fields of the two ranges that define the conversions. *)
Definition range_definitions (w : World) : (Z * Z * float) * (Z * Z * float) :=
  ((min_value (clockSpeedRange w), max_value (clockSpeedRange w),
    step_size (clockSpeedRange w)),
   (min_value (riseTimeRange w), max_value (riseTimeRange w),
    step_size (riseTimeRange w))).

Definition as_constructed (w : World) : Prop :=
  range_definitions w = range_definitions constructor.

(** * Further members and vocabulary *)

(** [getLastErrorString] ([SelfAdjusting_I2C.h], lines 774-783). *)
Definition getLastErrorString (c : SelfAdjustingI2C) : string :=
  match lastError c with
  | ERROR_NONE => "No error"
  | ERROR_TIMEOUT => "Timeout"
  | ERROR_NACK_ADDRESS => "NACK on address"
  | ERROR_NACK_DATA => "NACK on data"
  | ERROR_OTHER => "Other error"
  end.

(** [calculateDeviceCompatibilityScore] ([SelfAdjusting_I2C.cpp], lines
    412-420), a private member that no other member calls. *)
Definition calculateDeviceCompatibilityScore (depth : nat)
    (c : SelfAdjustingI2C) (a : Z) : option float :=
  match findDeviceConfig c a with
  | None => Some (F32.of_Z 50)
  | Some i => calculatePerformanceScore depth c (metrics (config (device c i)))
  end.

(** The getters of the query surface. *)
Definition getClockSpeed (c : SelfAdjustingI2C) : Z := clockSpeed (currentConfig c).
Definition getRiseTime (c : SelfAdjustingI2C) : Z := riseTime (currentConfig c).
Definition getCurrentClockSpeedStep (c : SelfAdjustingI2C) : Z :=
  clockSpeedStep (currentConfig c).
Definition getCurrentRiseTimeStep (c : SelfAdjustingI2C) : Z :=
  riseTimeStep (currentConfig c).
Definition getMetrics (c : SelfAdjustingI2C) : I2CPerformanceMetrics :=
  metrics (currentConfig c).
Definition getPerformanceScore (c : SelfAdjustingI2C) : float := performanceScore c.

(** Partial correctness with a postcondition on the result: whenever [m]
    returns from a world satisfying [P], result and world satisfy [Q]. *)
Definition ensures {A} (P : World -> Prop) (m : M A) (Q : A -> World -> Prop)
    : Prop :=
  forall p n w a n' w', P w -> m p n w = Some (a, n', w') -> Q a w'.

(** The tuning parameters and the error ring are in shape. *)
Definition tuning_ok (w : World) : Prop :=
  1 <= adaptationRate (ctl w) <= 10
  /\ length (errorHistory (ctl w)) = 10%nat
  /\ 0 <= errorHistoryIndex (ctl w) < 10.

(** The operations that switch learning back on. *)
Definition enables_learning (op : Operation) : bool :=
  match op with
  | OpEnableLearning true => true
  | OpResetToDefaults => true
  | _ => false
  end.

Definition learning_off (w : World) : Prop := learningMode (ctl w) = false.

(** The world after running [ops] from [w] at tape position [n]. *)
Definition run_from (p : Platform) (n : nat) (w : World) (ops : list Operation)
    : World :=
  match runAll ops p n w with
  | Some (_, _, w') => w'
  | None => w
  end.

(** Five successful transactions long after the emergency procedure, then a
    forced optimisation and a manual clock setting. *)
Definition long_after_tape : Platform :=
  tape (concat (replicate 5 (transaction_reads 0 500))
        ++ [100000; 100000; 100000]).

Definition long_after_ops : list Operation :=
  replicate 5 OpEndTransmission ++ [OpForceOptimization; OpSetClockSpeed 400000].

(** The registry is in shape: the count is within the capacity of the
    array, and no two registered entries carry the same address. *)
Definition registry_ok (c : SelfAdjustingI2C) : Prop :=
  0 <= deviceCount c <= MAX_DEVICES
  /\ length (deviceConfigs c) = 16%nat
  /\ (forall i j : nat,
        Z.of_nat i < deviceCount c -> Z.of_nat j < deviceCount c ->
        address (device c i) = address (device c j) -> i = j).

Definition registry_inv (w : World) : Prop := registry_ok (ctl w).

(** A value within the limits of a range table. *)
Definition in_range (r : DynamicRange) (v : Z) : Prop :=
  min_value r <= v <= max_value r.

(** The table check behind the bounds: the value of every step lies within
    the limits of the range. *)
Definition values_in_range (r : DynamicRange) : bool :=
  forallb (fun s => (min_value r <=? calculateValueFromStep r s)
                    && (calculateValueFromStep r s <=? max_value r))
          all_steps.

(** A configuration the bus can be driven with: both steps index the
    tables, and clock speed and rise time are within the limits of
    [clockSpeedRange] (75 kHz to 3.5 MHz) and [riseTimeRange] (40 to
    250 ns). *)
Definition cfg_ok (cfg : I2CConfig) : Prop :=
  0 <= clockSpeedStep cfg < DYNAMIC_RANGE_STEPS
  /\ 0 <= riseTimeStep cfg < DYNAMIC_RANGE_STEPS
  /\ in_range clockSpeedRange_static (clockSpeed cfg)
  /\ in_range riseTimeRange_static (riseTime cfg).

(** Only a custom configuration of a device is ever applied. *)
Definition dev_ok (d : DeviceConfig) : Prop :=
  hasCustomConfig d = true -> cfg_ok (config d).

Definition ranges_ok (w : World) : Prop :=
  as_constructed w
  /\ in_range clockSpeedRange_static (current_value (clockSpeedRange w))
  /\ in_range riseTimeRange_static (current_value (riseTimeRange w)).

(** The configurations the controller holds. *)
Definition ctl_ok (c : SelfAdjustingI2C) : Prop :=
  cfg_ok (currentConfig c) /\ cfg_ok (bestConfig c)
  /\ Forall dev_ok (deviceConfigs c).

(** Everything the controller can drive the bus with, and every clock it has
    pushed through [Wire.setClock], is within the limits. *)
Definition safe (w : World) : Prop :=
  ranges_ok w /\ ctl_ok (ctl w)
  /\ Forall (in_range clockSpeedRange_static) (wireClock w).

(** Two devices with a configuration of their own, at 0x40 and 0x48. *)
Definition two_devices : World :=
  world_after (tape [])
    [OpSetDeviceSpecificConfig 64 400000 100;
     OpSetDeviceSpecificConfig 72 1000000 60].

(** The device at 0x40 gets a configuration of its own and is addressed. *)
Definition device_selected : World :=
  world_after (tape [])
    [OpSetDeviceSpecificConfig 64 400000 100; OpBeginTransmission 64].

(** The number of slots of the error ring that hold an error. *)
Definition recentErrors (c : SelfAdjustingI2C) : Z :=
  Z.of_nat (length (filter (fun i => arr_get 0 (errorHistory c) i <> 0)
                           (indices 0 10))).

(** The registry entry of an address, if it has one. *)
Definition lookupDevice (c : SelfAdjustingI2C) (a : Z) : option DeviceConfig :=
  match findDeviceConfig c a with
  | Some i => Some (device c i)
  | None => None
  end.

(** The operation that frees a slot of the registry. *)
Definition removes_device (op : Operation) : bool :=
  match op with
  | OpRemoveDeviceConfig _ => true
  | _ => false
  end.

(** The registry is at capacity and has no entry for [a]. *)
Definition full_without (a : Z) (c : SelfAdjustingI2C) : Prop :=
  deviceCount c = MAX_DEVICES /\ findDeviceConfig c a = None.

(** Sixteen devices with a configuration of their own, at 8 to 23. *)
Definition full_registry : World :=
  world_after (tape [])
    (map (fun i => OpSetDeviceSpecificConfig (Z.of_nat i) 100000 125)
         (seq 8 16)).

(** The device part of [updatePerformanceMetrics], as a function of the
    controller. *)
Definition record_device (success : bool) (t a : Z) (c : SelfAdjustingI2C)
    : SelfAdjustingI2C :=
  if adaptiveMode c then
    let c := match findDeviceConfig c a with
             | None => addDeviceConfig a c
             | Some _ => c
             end in
    match findDeviceConfig c a with
    | Some i =>
        upd_device i (upd_config (upd_metrics (fun m =>
          if success then
            set_totalTransactionTime (u32 (totalTransactionTime m + t))
              (set_successfulTransactions (u32 (successfulTransactions m + 1)) m)
          else set_failedTransactions (u32 (failedTransactions m + 1)) m))) c
    | None => c
    end
  else c.

(** One step in the direction of a delta, within the table. *)
Definition nudge (delta step : Z) : Z :=
  if 0 <? delta then Z.min (step + 1) (DYNAMIC_RANGE_STEPS - 1)
  else if delta <? 0 then Z.max (step - 1) 0
  else step.

(** The global part of [updatePerformanceMetrics], as a function of the
    controller. *)
Definition count_transaction (success : bool) (t : Z) (c : SelfAdjustingI2C)
    : SelfAdjustingI2C :=
  if success then
    set_consecutiveErrors 0
      (upd_currentConfig (upd_metrics (fun m =>
         set_totalTransactionTime (u32 (totalTransactionTime m + t))
           (set_successfulTransactions (u32 (successfulTransactions m + 1)) m))) c)
  else
    set_consecutiveErrors (u8 (consecutiveErrors c + 1))
      (upd_currentConfig (upd_metrics (fun m =>
         set_failedTransactions (u32 (failedTransactions m + 1)) m)) c).

(** One round of the test loop of [testConfiguration], on the loop state
    [(testPassed, testErrors)]. *)
Definition test_step (st : bool * Z) (i : nat) : M (bool * Z) :=
  let '(testPassed, testErrors) := st in
  if testPassed then
    let* result := wireResult in
    let* st' :=
      (if negb (result =? 0) then
         let testErrors := u8 (testErrors + 1) in
         ret (if 2 <? testErrors then false else true, testErrors)
       else
         modc (upd_currentConfig (upd_metrics (fun m =>
           set_successfulTransactions (u32 (successfulTransactions m + 1)) m))) >>
         ret (testPassed, testErrors)) in
    modc (upd_currentConfig (upd_metrics (fun m =>
      set_failedTransactions (u32 (failedTransactions m + snd st')) m))) >>
    ret st'
  else ret st.

(** What [handleError] records, and what its recovery tiers leave alone. *)
Definition error_recorded (e : I2CErrorType) (failed : Z) (h : list Z)
    (w : World) : Prop :=
  lastError (ctl w) = e
  /\ failedTransactions (metrics (currentConfig (ctl w))) = failed
  /\ errorHistory (ctl w) = h.


(** One address of the scan loop of [scanBus], on the loop variable
    [devicesFound]. *)
Definition scan_step (devicesFound : Z) (i : nat) : M Z :=
  let a := Z.of_nat i in
  let* error := wireResult in
  if error =? 0 then
    let* c := getc in
    (match findDeviceConfig c a with
     | None => modc (addDeviceConfig a)
     | Some _ => ret tt
     end) >>
    ret (u8 (devicesFound + 1))
  else ret devicesFound.

(** [w'] is [w] but for the device registry. *)
Definition registry_only (w w' : World) : Prop :=
  w' = upd_ctl (fun c => set_deviceCount (deviceCount (ctl w'))
                           (set_deviceConfigs (deviceConfigs (ctl w')) c)) w.

(** The number of positions among the [k] from [n] on at which the
    platform answers 0 (the device acknowledged). *)
Definition acknowledged (p : Platform) (n k : nat) : Z :=
  Z.of_nat (length (filter (fun j => u8 (returned p j) = 0) (seq n k))).

(** The step a table value converts back to, over all steps: the check
    behind the round trip of [setClockSpeed] and [setRiseTime]. *)
Definition steps_back (r : DynamicRange) : list Z :=
  map (fun s => calculateStepFromValue r (calculateValueFromStep r s)) all_steps.

(** The [k] platform values from position [n] on are acknowledgements. *)
Definition acks (p : Platform) (n k : nat) : Prop :=
  forall i, (i < k)%nat -> u8 (returned p (n + i)) = 0.

(** [k] tests in a row from position [n] on, each of them the [millis()]
    read of [testConfiguration] followed by one ping per registered device,
    of which there are [d]: every ping is acknowledged. Nothing is asked of
    the values [millis()] returns. *)
Definition tests_acked (p : Platform) (n d k : nat) : Prop :=
  forall j, (j < k)%nat -> acks p (n + (d + 1) * j + 1) d.

(** Every ping of a [scanAndOptimize] started at position [n] is
    acknowledged: the 126 pings of the scan, after which the registry holds
    [MAX_DEVICES] = 16 devices, and the 16 pings of each of the 400 tests. *)
Definition pings_acknowledged (p : Platform) (n : nat) : Prop :=
  acks p n 126 /\ tests_acked p (n + 126) 16 400.

(** A platform on which every device acknowledges and the clock reads
    [now]: position [k] is the [millis()] read of a test when it is past
    the 126 pings of the scan at a multiple of 17. *)
Definition healthy_bus_at (now : Z) : Platform :=
  mkPlatform (fun k => if (126 <=? k)%nat && ((k - 126) mod 17 =? 0)%nat
                       then now else 0) 0.

(** The world [testConfiguration] leaves when the test is passed: the
    tested steps with their table values as current configuration, with
    metrics [m], and the clocks [clocks] pushed so far. *)
Definition tested (cs rs : Z) (m : I2CPerformanceMetrics) (clocks : list Z)
    (w : World) : World :=
  set_wireClock clocks
    (upd_ctl (set_currentConfig
                (mkConfig cs rs
                   (calculateValueFromStep (clockSpeedRange w) cs)
                   (u16 (calculateValueFromStep (riseTimeRange w) rs))
                   m (isValid (currentConfig (ctl w))))) w).

(** The body of the inner loop of [scanAndOptimize], on the loop state
    [(bestOverallConfig, bestOverallScore)]. *)
Definition try_configuration (clockStep : nat) (st : I2CConfig * float)
    (riseStep : nat) : M (I2CConfig * float) :=
  let* passed := testConfiguration (Z.of_nat clockStep) (Z.of_nat riseStep) in
  if passed then
    let* c := getc in
    let* score := scoreOf (metrics (currentConfig c)) in
    if F32.ltb (snd st) score then ret (currentConfig c, score)
    else ret st
  else ret st.

(** The score of a configuration whose test pinged every device with
    success: full reliability, no efficiency term (the test measures no
    time), and the stability of a controller without snapshots. *)
Definition healthy_score : float :=
  F32.add
    (F32.add (F32.mul (F32.of_Z 100) (F32.lit 6 10))
             (F32.mul F32.zero (F32.lit 25 100)))
    (F32.mul (F32.of_Z 50) (F32.lit 15 100)).

(** * Properties *)


(** ** Dynamic range model *)

Lemma all_steps_complete (s : Z) :
  0 <= s -> s <= DYNAMIC_RANGE_STEPS - 1 -> In s all_steps.
Proof.
  intros H0 H1. unfold DYNAMIC_RANGE_STEPS in H1.
  apply in_map_iff. exists (Z.to_nat s). split; [lia|].
  apply in_seq. lia.
Qed.

Lemma calculateValueFromStep_same r r0 s :
  same_definition r r0 ->
  calculateValueFromStep r s = calculateValueFromStep r0 s.
Proof.
  intros (Hmin & _ & Hsz). unfold calculateValueFromStep.
  now rewrite Hmin, Hsz.
Qed.

Lemma calculateStepFromValue_same r r0 v :
  same_definition r r0 ->
  calculateStepFromValue r v = calculateStepFromValue r0 v.
Proof.
  intros (Hmin & Hmax & Hsz). unfold calculateStepFromValue.
  now rewrite Hmin, Hmax, Hsz.
Qed.

Lemma conversions_ok_sound r s s' :
  conversions_ok r = true ->
  0 <= s -> s <= s' -> s' <= DYNAMIC_RANGE_STEPS - 1 ->
  calculateValueFromStep r s <= calculateValueFromStep r s'
  /\ s - 1 <= calculateStepFromValue r (calculateValueFromStep r s) <= s + 1.
Proof.
  intros Hok H0 Hle H1.
  unfold conversions_ok in Hok.
  rewrite forallb_forall in Hok.
  specialize (Hok s (all_steps_complete s H0 ltac:(lia))).
  apply andb_prop in Hok as [Hok Hhi].
  apply andb_prop in Hok as [Hmono Hlo].
  rewrite forallb_forall in Hmono.
  specialize (Hmono s' (all_steps_complete s' ltac:(lia) H1)).
  assert (Hb : (s <=? s') = true) by (apply Z.leb_le; lia).
  rewrite Hb in Hmono. simpl in Hmono.
  apply Z.leb_le in Hmono, Hlo, Hhi. lia.
Qed.

(** C7. On both range definitions of the program (clock speed and rise
    time, as the constructor initialises them), the value of a step is
    non-decreasing in the step over [0, STEPS-1], and converting the value of
    a step back to a step gives a step within one of the original. *)
Theorem range_value_monotone_and_roundtrip (r : DynamicRange) (s s' : Z) :
  same_definition r (clockSpeedRange constructor)
  \/ same_definition r (riseTimeRange constructor) ->
  0 <= s -> s <= s' -> s' <= DYNAMIC_RANGE_STEPS - 1 ->
  calculateValueFromStep r s <= calculateValueFromStep r s'
  /\ s - 1 <= calculateStepFromValue r (calculateValueFromStep r s) <= s + 1.
Proof.
  intros Hr H0 Hle H1.
  destruct Hr as [Hr | Hr];
    rewrite !(calculateValueFromStep_same _ _ _ Hr),
            (calculateStepFromValue_same _ _ _ Hr);
    apply conversions_ok_sound; try assumption; vm_compute; reflexivity.
Qed.

Lemma range_value_monotone_and_roundtrip_witness :
  calculateValueFromStep (clockSpeedRange constructor) 6
    <= calculateValueFromStep (clockSpeedRange constructor) 7
  /\ 6 - 1 <= calculateStepFromValue (clockSpeedRange constructor)
                (calculateValueFromStep (clockSpeedRange constructor) 6)
           <= 6 + 1.
Proof.
  apply (range_value_monotone_and_roundtrip (clockSpeedRange constructor) 6 7).
  - left. repeat split.
  - lia.
  - lia.
  - unfold DYNAMIC_RANGE_STEPS. lia.
Defined.

(** ** Reasoning about computations *)

Lemma hoare_conseq {A} (P P' : World -> Prop) (m : M A) (Q Q' : A -> World -> Prop) :
  hoare P' m Q' ->
  (forall w, P w -> P' w) ->
  (forall a w, Q' a w -> Q a w) ->
  hoare P m Q.
Proof.
  intros Hm HP HQ p n w Hw.
  destruct (Hm p n w (HP w Hw)) as (a & n' & w' & Hrun & Hq).
  exists a, n', w'. split; [assumption | now apply HQ].
Qed.

Lemma hoare_ret {A} (a : A) (P : World -> Prop) (Q : A -> World -> Prop) :
  (forall w, P w -> Q a w) -> hoare P (ret a) Q.
Proof.
  intros H p n w Hw. exists a, n, w. split; [reflexivity | now apply H].
Qed.

Lemma hoare_bind {A B} (P : World -> Prop) (m : M A) (Q : A -> World -> Prop)
    (k : A -> M B) (R : B -> World -> Prop) :
  hoare P m Q ->
  (forall a, hoare (Q a) (k a) R) ->
  hoare P (bind m k) R.
Proof.
  intros Hm Hk p n w Hw.
  destruct (Hm p n w Hw) as (a & n1 & w1 & Hrun & Hq).
  destruct (Hk a p n1 w1 Hq) as (b & n2 & w2 & Hrun2 & Hr).
  exists b, n2, w2. split; [|assumption].
  unfold bind. now rewrite Hrun.
Qed.

(** Sequencing under an assertion that the first computation keeps. *)
Lemma hoare_seq {A B} (P : World -> Prop) (m : M A) (k : A -> M B)
    (R : B -> World -> Prop) :
  hoare P m (fun _ => P) ->
  (forall a, hoare P (k a) R) ->
  hoare P (bind m k) R.
Proof. intros Hm Hk. now apply hoare_bind with (Q := fun _ => P). Qed.

Lemma hoare_modify (f : World -> World) (P : World -> Prop)
    (Q : unit -> World -> Prop) :
  (forall w, P w -> Q tt (f w)) -> hoare P (modify f) Q.
Proof.
  intros H p n w Hw. exists tt, n, (f w). split; [reflexivity | now apply H].
Qed.

Lemma hoare_modc (f : SelfAdjustingI2C -> SelfAdjustingI2C) (P : World -> Prop)
    (Q : unit -> World -> Prop) :
  (forall w, P w -> Q tt (upd_ctl f w)) -> hoare P (modc f) Q.
Proof. apply hoare_modify. Qed.

Lemma hoare_getc (P : World -> Prop) (Q : SelfAdjustingI2C -> World -> Prop) :
  (forall w, P w -> Q (ctl w) w) -> hoare P getc Q.
Proof.
  intros H p n w Hw. exists (ctl w), n, w. split; [reflexivity | now apply H].
Qed.

(** Reading the controller in front of a continuation. *)
Lemma hoare_getc_bind {B} (P : World -> Prop) (k : SelfAdjustingI2C -> M B)
    (R : B -> World -> Prop) :
  (forall c, hoare (fun w => P w /\ ctl w = c) (k c) R) ->
  hoare P (bind getc k) R.
Proof.
  intros Hk p n w Hw.
  destruct (Hk (ctl w) p n w (conj Hw eq_refl)) as (b & n2 & w2 & Hrun & Hr).
  exists b, n2, w2. split; [exact Hrun | exact Hr].
Qed.

Lemma hoare_platformRead (P : World -> Prop) (Q : Z -> World -> Prop) :
  (forall x w, P w -> Q x w) -> hoare P platformRead Q.
Proof.
  intros H p n w Hw. exists (returned p n), (S n), w.
  split; [reflexivity | now apply H].
Qed.

Lemma hoare_millis (P : World -> Prop) : hoare P millis (fun _ => P).
Proof.
  apply hoare_bind with (Q := fun _ => P).
  - now apply hoare_platformRead.
  - intros t. now apply hoare_ret.
Qed.

Lemma hoare_micros (P : World -> Prop) : hoare P micros (fun _ => P).
Proof. exact (hoare_millis P). Qed.

Lemma hoare_wireResult (P : World -> Prop) : hoare P wireResult (fun _ => P).
Proof.
  apply hoare_bind with (Q := fun _ => P).
  - now apply hoare_platformRead.
  - intros t. now apply hoare_ret.
Qed.

Lemma hoare_wireValue (P : World -> Prop) : hoare P wireValue (fun _ => P).
Proof. now apply hoare_platformRead. Qed.

Lemma hoare_forEach {A X} (I : World -> Prop) (body : A -> X -> M A)
    (l : list X) (a : A) :
  (forall a x, hoare I (body a x) (fun _ => I)) ->
  hoare I (forEach body l a) (fun _ => I).
Proof.
  intros Hbody. revert a.
  induction l as [|x l IH]; intros a; simpl.
  - now apply hoare_ret.
  - apply hoare_seq; [apply Hbody | apply IH].
Qed.

Lemma hoare_void {A} (P : World -> Prop) (m : M A) (Q : World -> Prop) :
  hoare P m (fun _ => Q) -> hoare P (void m) (fun _ => Q).
Proof.
  intros H. unfold void. eapply hoare_bind; [exact H|].
  intros a. now apply hoare_ret.
Qed.

(** A computation that returns does so with one result. *)
Lemma hoare_run {A} (P : World -> Prop) (m : M A) (Q : A -> World -> Prop)
    p n w a n' w' :
  hoare P m Q -> P w -> m p n w = Some (a, n', w') -> Q a w'.
Proof.
  intros H Hw Hrun.
  destruct (H p n w Hw) as (a0 & n0 & w0 & Hrun0 & Hq).
  rewrite Hrun in Hrun0. now inversion Hrun0; subst.
Qed.

(** ** Scores on a controller without recorded snapshots *)

Lemma calculatePerformanceScore_short depth c m :
  historyIndex c < 3 ->
  calculatePerformanceScore depth c m =
    if successfulTransactions m =? 0 then Some F32.zero
    else Some (F32.add
                 (F32.add (F32.mul (calculateReliabilityScore c) (F32.lit 6 10))
                          (F32.mul (calculateEfficiencyScore c) (F32.lit 25 100)))
                 (F32.mul (F32.of_Z 50) (F32.lit 15 100))).
Proof.
  intros H. apply Z.ltb_lt in H.
  destruct depth; simpl; rewrite H; reflexivity.
Qed.

Lemma calculatePerformanceScore_returns depth c m :
  historyIndex c < 3 -> exists s, calculatePerformanceScore depth c m = Some s.
Proof.
  intros H. rewrite calculatePerformanceScore_short by assumption.
  destruct (successfulTransactions m =? 0); eauto.
Qed.

(** Beyond its zero test, the snapshot passed to [calculatePerformanceScore]
    plays no part in the result. *)
Lemma calculatePerformanceScore_ignores_snapshot depth c m1 m2 :
  successfulTransactions m1 <> 0 ->
  successfulTransactions m2 <> 0 ->
  calculatePerformanceScore depth c m1 = calculatePerformanceScore depth c m2.
Proof.
  intros H1 H2. apply Z.eqb_neq in H1, H2.
  destruct depth; simpl; rewrite H1, H2; reflexivity.
Qed.

Lemma calculateStabilityScore_short depth c :
  historyIndex c < 3 -> calculateStabilityScore depth c = Some (F32.of_Z 50).
Proof.
  intros H. apply Z.ltb_lt in H. unfold calculateStabilityScore. now rewrite H.
Qed.

Lemma analyzeTrend_short depth c :
  historyIndex c < 3 -> analyzeTrend depth c = Some F32.zero.
Proof.
  intros H. apply Z.ltb_lt in H. unfold analyzeTrend. now rewrite H.
Qed.

Lemma hoare_scoreOf (P : World -> Prop) m :
  (forall w, P w -> historyIndex (ctl w) < 3) ->
  hoare P (scoreOf m) (fun _ => P).
Proof.
  intros HP p n w Hw. unfold scoreOf, liftOption.
  destruct (calculatePerformanceScore_returns (stackDepth p) (ctl w) m (HP w Hw))
    as [s Hs].
  rewrite Hs. now exists s, n, w.
Qed.

Lemma hoare_trendNow (P : World -> Prop) :
  (forall w, P w -> historyIndex (ctl w) < 3) ->
  hoare P trendNow (fun t w => P w /\ t = F32.zero).
Proof.
  intros HP p n w Hw. unfold trendNow, liftOption.
  rewrite analyzeTrend_short by now apply HP.
  now exists F32.zero, n, w.
Qed.

(** Arithmetic and scoring stay folded during symbolic evaluation. *)
Arguments u8 : simpl never.
Arguments u16 : simpl never.
Arguments u32 : simpl never.
Arguments F32.of_Z : simpl never.
Arguments F32.add : simpl never.
Arguments F32.sub : simpl never.
Arguments F32.mul : simpl never.
Arguments F32.div : simpl never.
Arguments F32.sqrt : simpl never.
Arguments F32.ltb : simpl never.
Arguments F32.lit : simpl never.
Arguments F32.max : simpl never.
Arguments F32.to_u32 : simpl never.
Arguments F32.to_u8 : simpl never.
Arguments calculateValueFromStep : simpl never.
Arguments calculateStepFromValue : simpl never.
Arguments calculateReliabilityScore : simpl never.
Arguments calculateEfficiencyScore : simpl never.
Arguments calculatePerformanceScore : simpl never.
Arguments analyzeTrend : simpl never.
Arguments getRecentErrorRate : simpl never.
Arguments findDeviceConfig : simpl never.
Arguments replicate : simpl never.

(** ** What the pure members leave alone *)

Ltac unfold_members :=
  unfold core, ccore, applyConfiguration, restoreBestConfiguration,
    updateClockSpeedRange, updateRiseTimeRange, loadClockSpeed, loadRiseTime,
    applyDeviceConfiguration, setDeviceSpecificConfig, setClockSpeed,
    setRiseTime, addDeviceConfig, removeDeviceConfig, updateErrorHistory,
    saveCurrentAsBest, enableLearning, enableAdaptiveMode, setAdaptationRate,
    setCooldownPeriod, upd_device, upd_currentConfig, upd_ctl in *.

Ltac frame := intros; unfold_members; cbn; repeat (case_match; cbn); reflexivity.

Lemma core_upd_ctl f w :
  (forall c, ccore (f c) = ccore c) -> core (upd_ctl f w) = core w.
Proof. intros H. unfold core. cbn. apply H. Qed.

Lemma ccore_addDeviceConfig a c : ccore (addDeviceConfig a c) = ccore c.
Proof. frame. Qed.

Lemma ccore_removeDeviceConfig a c : ccore (removeDeviceConfig a c) = ccore c.
Proof. frame. Qed.

Lemma ccore_updateErrorHistory e c : ccore (updateErrorHistory e c) = ccore c.
Proof. frame. Qed.

Lemma ccore_saveCurrentAsBest c : ccore (saveCurrentAsBest c) = ccore c.
Proof. frame. Qed.

Lemma ccore_upd_currentConfig g c : ccore (upd_currentConfig g c) = ccore c.
Proof. frame. Qed.

Lemma ccore_upd_device i g c : ccore (upd_device i g c) = ccore c.
Proof. frame. Qed.

Lemma ccore_enableLearning b c : ccore (enableLearning b c) = ccore c.
Proof. frame. Qed.

Lemma core_applyConfiguration w : core (applyConfiguration w) = core w.
Proof. frame. Qed.

Lemma core_restoreBestConfiguration w : core (restoreBestConfiguration w) = core w.
Proof. frame. Qed.

Lemma core_updateClockSpeedRange s w : core (updateClockSpeedRange s w) = core w.
Proof. frame. Qed.

Lemma core_updateRiseTimeRange s w : core (updateRiseTimeRange s w) = core w.
Proof. frame. Qed.

Lemma core_loadClockSpeed w : core (loadClockSpeed w) = core w.
Proof. frame. Qed.

Lemma core_loadRiseTime w : core (loadRiseTime w) = core w.
Proof. frame. Qed.

Lemma core_applyDeviceConfiguration a w :
  core (applyDeviceConfiguration a w) = core w.
Proof. frame. Qed.

Lemma core_setDeviceSpecificConfig a cs rt w :
  core (setDeviceSpecificConfig a cs rt w) = core w.
Proof. frame. Qed.

Lemma core_setClockSpeed v w : core (setClockSpeed v w) = core w.
Proof. frame. Qed.

Lemma core_setRiseTime v w : core (setRiseTime v w) = core w.
Proof. frame. Qed.

Lemma hoare_getc_any {B} (P : World -> Prop) (k : SelfAdjustingI2C -> M B)
    (R : B -> World -> Prop) :
  (forall c, hoare P (k c) R) -> hoare P (bind getc k) R.
Proof.
  intros Hk. apply hoare_getc_bind. intros c.
  eapply hoare_conseq; [apply Hk | tauto | auto].
Qed.

Create Rewrite HintDb core_frame.

#[local] Hint Rewrite core_applyConfiguration core_restoreBestConfiguration
  core_updateClockSpeedRange core_updateRiseTimeRange core_loadClockSpeed
  core_loadRiseTime core_applyDeviceConfiguration core_setDeviceSpecificConfig
  core_setClockSpeed core_setRiseTime : core_frame.

(** Closes [tracked k e (f w)] from [tracked k e w] when [f] leaves the
    tracked fields alone. *)
Ltac tracked_frame :=
  unfold tracked in *;
  first
    [ progress (autorewrite with core_frame); assumption
    | match goal with
      | H : core ?w = _ |- core _ = _ => rewrite <- H; clear H; frame
      end ].

(** One syntax-directed step on a goal [hoare P m (fun _ => P)]; [leaf]
    closes the goals [P (f w)] of the state updates. *)
Ltac hstep_with leaf :=
  lazymatch goal with
  | |- hoare _ (bind getc _) _ => apply hoare_getc_any; intros ?c
  | |- hoare _ (bind _ _) _ => apply hoare_seq; [ | intros ? ]
  | |- hoare _ (if ?b then _ else _) _ => destruct b
  | |- hoare _ (match ?x with _ => _ end) _ => destruct x
  | |- hoare _ (ret _) _ => apply hoare_ret; intros; assumption
  | |- hoare _ (modify _) _ => apply hoare_modify; intros; leaf
  | |- hoare _ (modc _) _ => apply hoare_modc; intros; leaf
  | |- hoare _ millis _ => apply hoare_millis
  | |- hoare _ micros _ => apply hoare_micros
  | |- hoare _ wireResult _ => apply hoare_wireResult
  | |- hoare _ wireValue _ => apply hoare_wireValue
  | |- hoare _ (forEach _ _ _) _ => apply hoare_forEach; intros ? ?
  end.

Ltac hstep := hstep_with tracked_frame.

Lemma tracked_historyIndex k e w : tracked k e w -> historyIndex (ctl w) < 3.
Proof. unfold tracked, core, ccore. intros H. inversion H. lia. Qed.

Lemma hoare_scoreOf_tracked k e m :
  hoare (tracked k e) (scoreOf m) (fun _ => tracked k e).
Proof. apply hoare_scoreOf. apply tracked_historyIndex. Qed.

Lemma hoare_trendNow_tracked k e :
  hoare (tracked k e) trendNow (fun _ => tracked k e).
Proof.
  eapply hoare_conseq;
    [apply (hoare_trendNow (tracked k e)); apply tracked_historyIndex
    | auto | intros a w [H _]; exact H].
Qed.

Lemma updatePerformanceMetrics_tracked success t a k e :
  hoare (tracked k e) (updatePerformanceMetrics success t a)
        (fun _ => tracked (if success then 0 else u8 (k + 1)) e).
Proof.
  unfold updatePerformanceMetrics.
  eapply hoare_bind.
  - apply hoare_modc with
      (Q := fun _ => tracked (if success then 0 else u8 (k + 1)) e).
    intros w H. unfold tracked, core, ccore in *.
    injection H as H1 H2 H3 H4.
    destruct success; cbn; rewrite ?H1, ?H2, ?H3, ?H4; reflexivity.
  - intros _u. repeat hstep. apply hoare_scoreOf_tracked.
Qed.

Lemma analyzePerformanceAndDecide_tracked k e :
  hoare (tracked k e) analyzePerformanceAndDecide (fun _ => tracked k e).
Proof.
  unfold analyzePerformanceAndDecide.
  hstep; [hstep|]. hstep. hstep; [hstep|].
  hstep; [apply hoare_scoreOf_tracked|].
  hstep; [apply hoare_scoreOf_tracked|].
  hstep; [apply hoare_trendNow_tracked|].
  repeat hstep.
Qed.

Lemma applyAIDecision_tracked d k e :
  hoare (tracked k e) (applyAIDecision d) (fun _ => tracked k e).
Proof. unfold applyAIDecision. hstep. hstep; repeat hstep. Qed.

Lemma tracked_parts k e w :
  tracked k e w <->
  historyIndex (ctl w) = 0
  /\ performanceHistory (ctl w) = replicate 10 zeroMetrics
  /\ consecutiveErrors (ctl w) = k
  /\ emergencyRecovery (ctl w) = e.
Proof.
  unfold tracked, core, ccore. split.
  - intros H. injection H as H1 H2 H3 H4. auto.
  - intros (-> & -> & -> & ->). reflexivity.
Qed.

Lemma emergencyRecoveryProcedure_tracked k e :
  hoare (tracked k e) emergencyRecoveryProcedure
        (fun _ w => tracked 0 e w /\ emergency_settings w).
Proof.
  intros p n w H. apply tracked_parts in H as (H1 & H2 & H3 & H4).
  eexists _, _, _. split; [reflexivity|].
  split.
  - apply tracked_parts. cbn. auto.
  - unfold emergency_settings. cbn. auto.
Qed.

Lemma adaptiveRetreat_tracked k e w :
  tracked k e w -> tracked 0 e (adaptiveRetreat w).
Proof.
  intros H. apply tracked_parts in H as (H1 & H2 & H3 & H4).
  apply tracked_parts. unfold adaptiveRetreat.
  repeat (case_match; cbn); auto.
Qed.

Lemma incrementalRecovery_tracked k e w :
  tracked k e w -> tracked 0 e (incrementalRecovery w).
Proof.
  intros H. apply tracked_parts in H as (H1 & H2 & H3 & H4).
  apply tracked_parts. unfold incrementalRecovery.
  repeat (case_match; cbn); auto.
Qed.

Lemma adaptiveRecovery_tracked k e :
  hoare (tracked k e) adaptiveRecovery (fun _ => tracked 0 e).
Proof.
  unfold adaptiveRecovery. apply hoare_getc_any. intros c.
  destruct (F32.ltb _ _).
  - eapply hoare_conseq;
      [apply (emergencyRecoveryProcedure_tracked k e) | auto | ].
    intros a w [H _]. exact H.
  - apply hoare_modify. intros w. apply adaptiveRetreat_tracked.
Qed.

(** A fact that follows from the precondition may be assumed. *)
Lemma hoare_assume {A} (fact : Prop) (P : World -> Prop) (m : M A)
    (Q : A -> World -> Prop) :
  (forall w, P w -> fact) -> (fact -> hoare P m Q) -> hoare P m Q.
Proof. intros Hf Hm p n w Hw. exact (Hm (Hf w Hw) p n w Hw). Qed.

Lemma hoare_weaken {A} (P P' : World -> Prop) (m : M A) (Q : A -> World -> Prop) :
  hoare P' m Q -> (forall w, P w -> P' w) -> hoare P m Q.
Proof. intros H HP. eapply hoare_conseq; [exact H | exact HP | auto]. Qed.

Lemma handleError_tracked err k e :
  hoare (tracked k e) (handleError err) (fun _ => handled k e).
Proof.
  unfold handleError.
  hstep; [hstep|]. hstep; [hstep|]. hstep; [hstep|]. hstep; [hstep|].
  apply hoare_getc_bind. intros c.
  apply hoare_assume
    with (fact := consecutiveErrors c = k /\ emergencyRecovery c = e).
  { intros w [H <-]. apply tracked_parts in H. tauto. }
  intros [<- <-].
  apply hoare_weaken
    with (P' := tracked (consecutiveErrors c) (emergencyRecovery c)).
  2: { intros w Hw. destruct Hw as [H _]. exact H. }
  unfold handled.
  destruct (ERROR_THRESHOLD <=? consecutiveErrors c) eqn:Hthr.
  - destruct (emergencyRecovery c) eqn:He.
    + eapply hoare_conseq;
        [apply (emergencyRecoveryProcedure_tracked (consecutiveErrors c) true)
        | auto | ].
      cbn beta. intros _ w [H1 H2]. auto.
    + destruct (adaptiveMode c).
      * eapply hoare_conseq;
          [apply (adaptiveRecovery_tracked (consecutiveErrors c) false)
          | auto | ].
        cbn beta. intros _ w H. split; [exact H | discriminate].
      * apply hoare_modify. intros w H. split; [|discriminate].
        now apply incrementalRecovery_tracked with (k := consecutiveErrors c).
  - now apply hoare_ret.
Qed.

Lemma adjustIfDue_tracked k e :
  hoare (tracked k e) adjustIfDue (fun _ => tracked k e).
Proof.
  unfold adjustIfDue. hstep. hstep; [|hstep].
  hstep; [apply analyzePerformanceAndDecide_tracked|].
  hstep; [apply applyAIDecision_tracked | hstep].
Qed.

Lemma endTransmission_tracked k e :
  hoare (tracked k e) endTransmission
        (fun r => after_transaction (negb (r =? 0)) k e).
Proof.
  unfold endTransmission.
  hstep; [hstep|]. hstep; [hstep|]. hstep; [hstep|]. hstep.
  rename a0 into result.
  eapply hoare_bind; [apply updatePerformanceMetrics_tracked|].
  intros _u. unfold after_transaction.
  destruct (result =? 0) eqn:Hr; cbn [negb].
  - hstep; [apply adjustIfDue_tracked |].
    apply hoare_ret. intros w H. cbn beta. now rewrite Hr.
  - eapply hoare_bind; [apply handleError_tracked|].
    intros _v. apply hoare_ret. intros w H. cbn beta. now rewrite Hr.
Qed.

Lemma hoare_wireResult_bind {B} (P : World -> Prop) (k : Z -> M B)
    (R : B -> World -> Prop) :
  (forall r, 0 <= r < 256 -> hoare P (k r) R) ->
  hoare P (bind wireResult k) R.
Proof.
  intros Hk p n w Hw.
  assert (Hr : 0 <= u8 (returned p n) < 256)
    by (unfold u8; apply Z.mod_pos_bound; lia).
  destruct (Hk _ Hr p (S n) w Hw) as (b & n2 & w2 & Hrun & HR).
  exists b, n2, w2. split; [exact Hrun | exact HR].
Qed.

Lemma requestFrom_tracked a q k e :
  hoare (tracked k e) (requestFrom a q)
        (fun r => after_transaction (r =? 0) k e).
Proof.
  unfold requestFrom.
  hstep; [hstep|]. hstep. hstep; [hstep; hstep|].
  hstep; [hstep|]. apply hoare_wireResult_bind. intros result Hrange.
  hstep; [hstep|].
  assert (Hpos : (0 <? result) = negb (result =? 0)).
  { destruct (Z.eqb_spec result 0); cbn [negb];
      [apply Z.ltb_ge | apply Z.ltb_lt]; lia. }
  eapply hoare_bind; [apply updatePerformanceMetrics_tracked|].
  intros _u. unfold after_transaction. rewrite Hpos.
  destruct (result =? 0) eqn:Hr; cbn [negb].
  - eapply hoare_bind; [apply handleError_tracked|].
    intros _v. apply hoare_ret. intros w H. cbn beta. now rewrite Hr.
  - hstep; [apply adjustIfDue_tracked |].
    apply hoare_ret. intros w H. cbn beta. now rewrite Hr.
Qed.

Lemma begin_tracked k e : hoare (tracked k e) begin (fun _ => tracked k e).
Proof. unfold begin. repeat hstep. Qed.

Lemma beginTransmission_tracked a k e :
  hoare (tracked k e) (beginTransmission a) (fun _ => tracked k e).
Proof. unfold beginTransmission. repeat hstep. Qed.

Lemma forceOptimization_tracked k e :
  hoare (tracked k e) forceOptimization (fun _ => tracked k e).
Proof.
  unfold forceOptimization. hstep; [hstep|]. hstep. hstep; [|hstep].
  hstep; [apply analyzePerformanceAndDecide_tracked|].
  hstep; [apply applyAIDecision_tracked | hstep].
Qed.

Lemma resetToDefaults_tracked k e :
  hoare (tracked k e) resetToDefaults (fun _ => tracked 0 true).
Proof.
  intros p n w H. apply tracked_parts in H as (H1 & H2 & H3 & H4).
  eexists _, _, _. split; [reflexivity|].
  apply tracked_parts. cbn. auto.
Qed.

Lemma resetLearning_tracked k e :
  hoare (tracked k e) resetLearning (fun _ => tracked 0 e).
Proof.
  intros p n w H. apply tracked_parts in H as (H1 & H2 & H3 & H4).
  eexists _, _, _. split; [reflexivity|].
  apply tracked_parts. cbn. auto.
Qed.

Lemma testConfiguration_tracked cs rs k e :
  hoare (tracked k e) (testConfiguration cs rs) (fun _ => tracked k e).
Proof. unfold testConfiguration. repeat hstep. Qed.

Lemma scanBus_tracked k e : hoare (tracked k e) scanBus (fun _ => tracked k e).
Proof. unfold scanBus. repeat hstep. Qed.

Lemma scanAndOptimize_tracked k e :
  hoare (tracked k e) scanAndOptimize (fun _ => tracked k e).
Proof.
  unfold scanAndOptimize.
  hstep; [apply scanBus_tracked|]. hstep; [hstep|]. hstep.
  hstep.
  - hstep. hstep. hstep; [apply testConfiguration_tracked|].
    hstep; [|hstep]. hstep. hstep; [apply hoare_scoreOf_tracked|].
    repeat hstep.
  - repeat hstep.
Qed.

(** ** Every public operation returns, and returns to an idle controller *)

Lemma tracked_idle k e w : 0 <= k < ERROR_THRESHOLD -> tracked k e w -> idle w.
Proof. intros Hk H. now exists k, e. Qed.

Lemma handled_idle k e w :
  0 <= k <= ERROR_THRESHOLD -> handled k e w -> idle w.
Proof.
  unfold handled, ERROR_THRESHOLD. intros Hk H.
  destruct (Z.leb_spec 3 k).
  - destruct H as [H _]. apply (tracked_idle 0 e); [unfold ERROR_THRESHOLD; lia | exact H].
  - apply (tracked_idle k e); [unfold ERROR_THRESHOLD; lia | exact H].
Qed.

Lemma after_transaction_idle failed k e w :
  0 <= k < ERROR_THRESHOLD -> after_transaction failed k e w -> idle w.
Proof.
  unfold after_transaction, ERROR_THRESHOLD. intros Hk H. destruct failed.
  - apply (handled_idle (u8 (k + 1)) e); [|exact H].
    unfold u8, ERROR_THRESHOLD. rewrite Z.mod_small by lia. lia.
  - apply (tracked_idle 0 e); [unfold ERROR_THRESHOLD; lia | exact H].
Qed.

Lemma hoare_idle {A} (m : M A) :
  (forall k e, 0 <= k < ERROR_THRESHOLD ->
               hoare (tracked k e) m (fun _ => idle)) ->
  hoare idle m (fun _ => idle).
Proof. intros H p n w (k & e & Hk & Ht). exact (H k e Hk p n w Ht). Qed.

Lemma hoare_post {A} (P : World -> Prop) (m : M A) (Q Q' : A -> World -> Prop) :
  hoare P m Q' -> (forall a w, Q' a w -> Q a w) -> hoare P m Q.
Proof. intros H HQ. eapply hoare_conseq; [exact H | auto | exact HQ]. Qed.

Lemma run_idle op : hoare idle (run op) (fun _ => idle).
Proof.
  apply hoare_idle. intros k e Hk.
  assert (Hkeep : forall (m : M unit),
             hoare (tracked k e) m (fun _ => tracked k e) ->
             hoare (tracked k e) m (fun _ => idle)).
  { intros m Hm. eapply hoare_post; [exact Hm|].
    intros a w. now apply tracked_idle. }
  assert (H0 : 0 <= 0 < ERROR_THRESHOLD) by (unfold ERROR_THRESHOLD; lia).
  destruct op; cbn [run].
  - apply Hkeep, begin_tracked.
  - apply Hkeep. hstep.
  - apply hoare_void. eapply hoare_post; [apply requestFrom_tracked|].
    intros r w. now apply after_transaction_idle.
  - apply Hkeep, beginTransmission_tracked.
  - apply hoare_void. eapply hoare_post; [apply endTransmission_tracked|].
    intros r w. now apply after_transaction_idle.
  - apply Hkeep, hoare_void. hstep.
  - apply Hkeep, hoare_void. hstep.
  - apply Hkeep, hoare_void. hstep.
  - apply Hkeep, hoare_void. hstep.
  - apply Hkeep. hstep.
  - apply Hkeep. hstep.
  - apply Hkeep. hstep.
  - apply Hkeep. hstep.
  - apply Hkeep, forceOptimization_tracked.
  - eapply hoare_post; [apply resetToDefaults_tracked|].
    intros a w. now apply tracked_idle.
  - eapply hoare_post; [apply resetLearning_tracked|].
    intros a w. now apply tracked_idle.
  - apply Hkeep. hstep.
  - apply Hkeep. hstep.
  - apply Hkeep, scanAndOptimize_tracked.
  - apply Hkeep. hstep.
  - apply Hkeep. hstep.
  - apply hoare_modc. intros w H. apply (tracked_idle k enable); [exact Hk|].
    apply tracked_parts in H as (H1 & H2 & H3 & H4).
    apply tracked_parts. cbn. auto.
  - apply Hkeep. hstep.
  - apply Hkeep, hoare_void, testConfiguration_tracked.
  - apply Hkeep, hoare_void, scanBus_tracked.
Qed.

Lemma constructor_idle : idle constructor.
Proof.
  exists 0, true. split; [unfold ERROR_THRESHOLD; lia | reflexivity].
Qed.

Lemma reachable_idle w : reachable w -> idle w.
Proof.
  induction 1 as [|p op n w r n' w' Hreach IH Hrun].
  - exact constructor_idle.
  - exact (hoare_run idle (run op) (fun _ => idle) p n w r n' w'
             (run_idle op) IH Hrun).
Qed.

(** From a reachable world every public operation returns, whatever the
    platform answers and however shallow its stack. *)
Lemma run_returns w op p n :
  reachable w -> exists r n' w', run op p n w = Some (r, n', w').
Proof.
  intros Hw.
  destruct (run_idle op p n w (reachable_idle w Hw)) as (r & n' & w' & Hrun & _).
  now exists r, n', w'.
Qed.

(** ** The decision engine *)

(** Inside the cooldown window the engine returns the no-op decision before
    it reads any metric, and leaves the world as it was. *)
Lemma decision_in_cooldown p n w :
  in_cooldown p n w ->
  analyzePerformanceAndDecide p n w
  = Some (mkDecision 0 0 0 false "Cooldown period active", S n, w).
Proof.
  unfold in_cooldown. intros H. apply Z.ltb_lt in H.
  unfold analyzePerformanceAndDecide, bind, millis, platformRead, getc, ret.
  cbn. now rewrite H.
Qed.

(** C8. Two invocations of the decision engine that both fall inside the
    cooldown window return the same no-op decision (deltas 0, confidence 0,
    no adjustment, reason "Cooldown period active") and leave their worlds
    as they were, whatever the two worlds are: metrics, error history and
    history state play no part. *)
Theorem cooldown_decisions_identical p1 n1 w1 p2 n2 w2 :
  in_cooldown p1 n1 w1 ->
  in_cooldown p2 n2 w2 ->
  exists noop,
    noop = mkDecision 0 0 0 false "Cooldown period active"
    /\ analyzePerformanceAndDecide p1 n1 w1 = Some (noop, S n1, w1)
    /\ analyzePerformanceAndDecide p2 n2 w2 = Some (noop, S n2, w2).
Proof.
  intros H1 H2. eexists. split; [reflexivity|].
  split; apply decision_in_cooldown; assumption.
Qed.

Lemma cooldown_decisions_identical_witness :
  let w2 := world_after (tape (failure_reads 2)) [OpEndTransmission] in
  in_cooldown (tape [100]) 0 constructor
  /\ in_cooldown (tape [4000]) 0 w2
  /\ metrics (currentConfig (ctl w2)) <> metrics (currentConfig (ctl constructor))
  /\ errorHistory (ctl w2) <> errorHistory (ctl constructor)
  /\ exists noop,
       noop = mkDecision 0 0 0 false "Cooldown period active"
       /\ analyzePerformanceAndDecide (tape [100]) 0%nat constructor
          = Some (noop, 1%nat, constructor)
       /\ analyzePerformanceAndDecide (tape [4000]) 0%nat w2
          = Some (noop, 1%nat, w2).
Proof.
  cbn zeta.
  assert (H1 : in_cooldown (tape [100]) 0 constructor) by (vm_compute; reflexivity).
  assert (H2 : in_cooldown (tape [4000]) 0
                 (world_after (tape (failure_reads 2)) [OpEndTransmission]))
    by (vm_compute; reflexivity).
  split; [exact H1|]. split; [exact H2|].
  split; [vm_compute; discriminate|]. split; [vm_compute; discriminate|].
  exact (cooldown_decisions_identical _ _ _ _ _ _ H1 H2).
Defined.

Lemma trend_thresholds_not_met :
  F32.ltb (F32.lit 2 10) F32.zero = false
  /\ F32.ltb (F32.lit 1 10) F32.zero = false.
Proof. split; vm_compute; reflexivity. Qed.

(** Evaluation of the decision engine past the cooldown test, given the two
    scores and the trend. *)
Ltac eval_decision Hcool Hcs Hbs Htrend :=
  unfold analyzePerformanceAndDecide, bind, millis, platformRead, getc, ret,
    scoreOf, trendNow, liftOption, modc, modify;
  cbn; rewrite Hcool; rewrite Hcs; cbn; rewrite Hbs; cbn; rewrite Htrend; cbn.

Lemma out_of_cooldown p n w :
  ~ in_cooldown p n w ->
  (u32 (u32 (returned p n) - lastAdjustmentTime (ctl w))
     <? adjustmentCooldown (ctl w)) = false.
Proof. unfold in_cooldown. intros H. apply Z.ltb_ge. lia. Qed.

(** C5. Out of cooldown the five rules are tried in their order and the
    first one whose premise holds decides. In particular a recent error rate
    above 10% makes rule 1 produce its decision (clock one step down, rise
    time one step up, confidence 85, adjust) whether or not the premise of
    rule 2 holds. The controller has no recorded snapshot, which is the case
    in every reachable world; there rule 2 never asks for an adjustment. *)
Theorem decision_rule_priority p n w currentScore bestScore :
  historyIndex (ctl w) < 3 ->
  ~ in_cooldown p n w ->
  calculatePerformanceScore (stackDepth p) (ctl w)
    (metrics (currentConfig (ctl w))) = Some currentScore ->
  calculatePerformanceScore (stackDepth p) (ctl w)
    (metrics (bestConfig (ctl w))) = Some bestScore ->
  let rule1 := F32.ltb (F32.of_Z 10) (getRecentErrorRate (ctl w)) in
  let rule2 := (errorRate (metrics (currentConfig (ctl w))) =? 0)
               && (20 <? successfulTransactions (metrics (currentConfig (ctl w)))) in
  let rule3 := F32.ltb currentScore (F32.mul bestScore (F32.lit 7 10)) in
  let rule4 := 2 <=? consecutiveErrors (ctl w) in
  let result := analyzePerformanceAndDecide p n w in
  (rule1 = true ->
     result = Some (mkDecision (-1) 1 85 true "High error rate detected", S n, w))
  /\ (rule1 = false -> rule2 = true ->
       exists d w',
         result = Some (d, S n, w')
         /\ clockSpeedDelta d = 0 /\ riseTimeDelta d = 0
         /\ shouldAdjust d = false
         /\ (reason d = "No adjustment needed"
             \/ reason d = "New best configuration found"))
  /\ (rule1 = false -> rule2 = false -> rule3 = true ->
       result = Some (mkDecision 0 0 95 false "Restoring best configuration",
                      S n, restoreBestConfiguration w))
  /\ (rule1 = false -> rule2 = false -> rule3 = false -> rule4 = true ->
       result = Some (mkDecision (-1) 1 80 true
                                 "Consecutive errors, reducing speed", S n, w))
  /\ (rule1 = false -> rule2 = false -> rule3 = false -> rule4 = false ->
       result = Some (mkDecision 0 0 0 false "No adjustment needed", S n, w)).
Proof.
  intros Hhist Hcool Hcs Hbs. cbn zeta. apply out_of_cooldown in Hcool.
  pose proof (analyzeTrend_short (stackDepth p) (ctl w) Hhist) as Htrend.
  destruct trend_thresholds_not_met as [Hstrong Hmoderate].
  eval_decision Hcool Hcs Hbs Htrend.
  rewrite Hstrong, Hmoderate. cbn.
  split; [intros ->; reflexivity|].
  split.
  { intros -> ->.
    destruct (F32.ltb (F32.mul bestScore (F32.lit 115 100)) currentScore); cbn;
      eexists _, _; (split; [reflexivity|]); cbn; auto. }
  split; [intros -> -> ->; reflexivity|].
  split; intros -> -> -> ->; reflexivity.
Qed.

Lemma decision_rule_priority_witness :
  let w := noisy_then_clean in
  let p := tape [6000] in
  historyIndex (ctl w) < 3
  /\ ~ in_cooldown p 0 w
  /\ F32.ltb (F32.of_Z 10) (getRecentErrorRate (ctl w)) = true
  /\ errorRate (metrics (currentConfig (ctl w))) = 0
  /\ successfulTransactions (metrics (currentConfig (ctl w))) = 25
  /\ analyzePerformanceAndDecide p 0%nat w
     = Some (mkDecision (-1) 1 85 true "High error rate detected", 1%nat, w).
Proof.
  cbn zeta.
  assert (H1 : historyIndex (ctl noisy_then_clean) < 3)
    by (vm_compute; reflexivity).
  assert (H2 : ~ in_cooldown (tape [6000]) 0 noisy_then_clean)
    by (vm_compute; discriminate).
  assert (H3 : F32.ltb (F32.of_Z 10) (getRecentErrorRate (ctl noisy_then_clean))
               = true)
    by (vm_compute; reflexivity).
  split; [exact H1|]. split; [exact H2|]. split; [exact H3|].
  split; [vm_compute; reflexivity|]. split; [vm_compute; reflexivity|].
  destruct (calculatePerformanceScore_returns 0 (ctl noisy_then_clean)
              (metrics (currentConfig (ctl noisy_then_clean))) H1) as [cs Hcs].
  destruct (calculatePerformanceScore_returns 0 (ctl noisy_then_clean)
              (metrics (bestConfig (ctl noisy_then_clean))) H1) as [bs Hbs].
  destruct (decision_rule_priority (tape [6000]) 0 noisy_then_clean cs bs
              H1 H2 Hcs Hbs) as [Hrule1 _].
  exact (Hrule1 H3).
Defined.

(** ** Recovery *)

Lemma emergencyRecoveryProcedure_resets p n w :
  exists w', emergencyRecoveryProcedure p n w = Some (tt, S n, w')
             /\ consecutiveErrors (ctl w') = 0.
Proof. eexists. split; reflexivity. Qed.

Lemma adaptiveRecovery_resets p n w :
  exists n' w', adaptiveRecovery p n w = Some (tt, n', w')
                /\ consecutiveErrors (ctl w') = 0.
Proof.
  unfold adaptiveRecovery, bind, getc. cbn.
  destruct (F32.ltb _ _).
  - destruct (emergencyRecoveryProcedure_resets p n w) as (w' & H1 & H2).
    now exists (S n), w'.
  - eexists _, _. split; [reflexivity|].
    unfold adaptiveRetreat. repeat (case_match; cbn); reflexivity.
Qed.

(** The Adaptive tier hands over to the emergency procedure when more than
    20% of the error history is filled. *)
Lemma adaptiveRecovery_escalates p n w :
  F32.ltb (F32.of_Z 20) (getRecentErrorRate (ctl w)) = true ->
  adaptiveRecovery p n w = emergencyRecoveryProcedure p n w.
Proof.
  intros H. unfold adaptiveRecovery, bind, getc. cbn. now rewrite H.
Qed.

Lemma incrementalRecovery_resets w :
  consecutiveErrors (ctl (incrementalRecovery w)) = 0.
Proof. unfold incrementalRecovery. repeat (case_match; cbn); reflexivity. Qed.

Lemma emergencyRecoveryProcedure_outcome p n w :
  exists w',
    emergencyRecoveryProcedure p n w = Some (tt, S n, w')
    /\ consecutiveErrors (ctl w') = 0
    /\ emergency_outcome (u32 (returned p n)) w w'.
Proof.
  eexists. split; [reflexivity|]. split; [reflexivity|].
  unfold emergency_outcome. repeat split.
Qed.

Lemma u8_small x : 0 <= x < 256 -> u8 x = x.
Proof. intros H. unfold u8. now apply Z.mod_small. Qed.

Lemma updateDynamicRange_value r s :
  current_value (updateDynamicRange r s)
  = if s <? DYNAMIC_RANGE_STEPS then calculateValueFromStep r s
    else current_value r.
Proof. unfold updateDynamicRange. now destruct (s <? DYNAMIC_RANGE_STEPS). Qed.

Lemma updateDynamicRange_in_table r s :
  s < DYNAMIC_RANGE_STEPS ->
  current_value (updateDynamicRange r s) = calculateValueFromStep r s.
Proof.
  intros H. rewrite updateDynamicRange_value.
  apply Z.ltb_lt in H. now rewrite H.
Qed.

(** After the cases on where the steps are in the table: the arithmetic on
    the steps and the table values. *)
Ltac tier_arith :=
  unfold DYNAMIC_RANGE_STEPS in *;
  repeat rewrite u8_small by lia;
  repeat rewrite updateDynamicRange_in_table by (unfold DYNAMIC_RANGE_STEPS; lia);
  repeat match goal with
         | |- context [?a =? ?b] => destruct (Z.eqb_spec a b); try lia
         end;
  repeat split; try reflexivity; try lia.

Lemma adaptiveRetreat_outcome w :
  0 <= clockSpeedStep (currentConfig (ctl w)) < DYNAMIC_RANGE_STEPS ->
  0 <= riseTimeStep (currentConfig (ctl w)) < DYNAMIC_RANGE_STEPS ->
  consecutiveErrors (ctl (adaptiveRetreat w)) = 0
  /\ adaptive_outcome w (adaptiveRetreat w).
Proof.
  intros Hc Hr.
  unfold adaptive_outcome, adaptiveRetreat, value_after, clockSpeedAt, riseTimeAt.
  cbv zeta. change (DYNAMIC_RANGE_STEPS - 1) with 19.
  destruct (Z.ltb_spec 0 (clockSpeedStep (currentConfig (ctl w)))) as [Hs|Hs];
    cbn;
    destruct (Z.ltb_spec (riseTimeStep (currentConfig (ctl w))) 19) as [Hr'|Hr'];
    cbn; tier_arith.
Qed.

Lemma incrementalRecovery_outcome w :
  0 <= clockSpeedStep (currentConfig (ctl w)) < DYNAMIC_RANGE_STEPS ->
  consecutiveErrors (ctl (incrementalRecovery w)) = 0
  /\ incremental_outcome w (incrementalRecovery w).
Proof.
  intros Hc.
  unfold incremental_outcome, incrementalRecovery, value_after, clockSpeedAt.
  cbv zeta.
  destruct (Z.ltb_spec 0 (clockSpeedStep (currentConfig (ctl w)))) as [Hs|Hs];
    cbn; tier_arith.
Qed.

(** C3. When [handleError] finds the consecutive-error counter at the
    threshold, it records the error and then runs the member of exactly one
    tier, the one the flags select (Emergency if emergency recovery is
    enabled, else Adaptive if adaptive mode is on, else Incremental); the
    call returns, the counter is 0 afterwards, and what is left behind is
    the outcome of that one tier: a single push to the hardware of the
    most conservative settings with learning disabled and the cooldown at
    15 s (Emergency), or of one step back on the clock and one step up on
    the rise time (Adaptive), or of one step back on the clock (Incremental).
    The Adaptive tier escalates: when the recent error rate, with the error
    just recorded, is above 20%, its member runs the emergency procedure
    and leaves the Emergency outcome, although the emergency tier is not
    enabled. *)
Theorem threshold_fires_selected_tier errorType p n w :
  ERROR_THRESHOLD <= consecutiveErrors (ctl w) ->
  0 <= clockSpeedStep (currentConfig (ctl w)) < DYNAMIC_RANGE_STEPS ->
  0 <= riseTimeStep (currentConfig (ctl w)) < DYNAMIC_RANGE_STEPS ->
  let recorded := recordError errorType (u32 (returned p n)) w in
  exists n' w',
    handleError errorType p n w = Some (tt, n', w')
    /\ handleError errorType p n w
       = runTier (selectTier (ctl w)) p (S n) recorded
    /\ consecutiveErrors (ctl w') = 0
    /\ tier_outcome (selectTier (ctl w)) p (S n) recorded n' w'.
Proof.
  intros Hthr Hc Hr. cbn zeta. apply Z.leb_le in Hthr.
  set (recorded := recordError errorType (u32 (returned p n)) w).
  assert (Heq : handleError errorType p n w
                = runTier (selectTier (ctl w)) p (S n) recorded).
  { unfold handleError, bind, millis, platformRead, getc, ret, modc, modify,
      selectTier, runTier.
    cbn. rewrite Hthr.
    destruct (emergencyRecovery (ctl w)), (adaptiveMode (ctl w)); reflexivity. }
  rewrite Heq.
  assert (Hc' : 0 <= clockSpeedStep (currentConfig (ctl recorded))
                < DYNAMIC_RANGE_STEPS) by exact Hc.
  assert (Hr' : 0 <= riseTimeStep (currentConfig (ctl recorded))
                < DYNAMIC_RANGE_STEPS) by exact Hr.
  clearbody recorded.
  unfold tier_outcome.
  destruct (selectTier (ctl w)); cbn [runTier].
  - destruct (emergencyRecoveryProcedure_outcome p (S n) recorded)
      as (w' & Hrun & Hzero & Hout).
    exists (S (S n)), w'. rewrite Hrun. auto.
  - unfold adaptiveRecovery, bind, getc.
    destruct (F32.ltb (F32.of_Z 20) (getRecentErrorRate (ctl recorded))).
    + destruct (emergencyRecoveryProcedure_outcome p (S n) recorded)
        as (w' & Hrun & Hzero & Hout).
      exists (S (S n)), w'. rewrite Hrun. auto.
    + destruct (adaptiveRetreat_outcome recorded Hc' Hr') as [Hzero Hout].
      exists (S n), (adaptiveRetreat recorded). auto.
  - destruct (incrementalRecovery_outcome recorded Hc') as [Hzero Hout].
    exists (S n), (incrementalRecovery recorded). auto.
Qed.

Lemma threshold_fires_selected_tier_witness :
  let w := third_failure_adaptive in
  let p := tape [0; 7] in
  let recorded := recordError ERROR_NACK_ADDRESS 0 w in
  consecutiveErrors (ctl w) = ERROR_THRESHOLD
  /\ emergencyRecovery (ctl w) = false
  /\ selectTier (ctl w) = Adaptive
  /\ F32.ltb (F32.of_Z 20) (getRecentErrorRate (ctl recorded)) = true
  /\ exists n' w',
       handleError ERROR_NACK_ADDRESS p 0%nat w = Some (tt, n', w')
       /\ handleError ERROR_NACK_ADDRESS p 0%nat w
          = runTier (selectTier (ctl w)) p 1%nat recorded
       /\ consecutiveErrors (ctl w') = 0
       /\ tier_outcome (selectTier (ctl w)) p 1%nat recorded n' w'.
Proof.
  cbn zeta.
  split; [vm_compute; reflexivity|]. split; [vm_compute; reflexivity|].
  split; [vm_compute; reflexivity|]. split; [vm_compute; reflexivity|].
  apply (threshold_fires_selected_tier ERROR_NACK_ADDRESS (tape [0; 7]) 0
           third_failure_adaptive).
  - vm_compute; discriminate.
  - vm_compute; split; [discriminate | reflexivity].
  - vm_compute; split; [discriminate | reflexivity].
Defined.

Lemma failedTransaction_handled p n w n' w' k e :
  tracked k e w -> failedTransaction p n w n' w' -> handled (u8 (k + 1)) e w'.
Proof.
  intros Ht [r Hrun Hr | a r Hrun Hr | a q Hrun].
  - pose proof (hoare_run _ _ _ p n w r n' w' (endTransmission_tracked k e) Ht Hrun)
      as H.
    unfold after_transaction in H.
    destruct (Z.eqb_spec r 0); [contradiction | exact H].
  - assert (Hseq : hoare (tracked k e) (beginTransmission (u8 a) >> endTransmission)
                     (fun r => after_transaction (negb (r =? 0)) k e)).
    { eapply hoare_bind; [apply beginTransmission_tracked|].
      intros _u. apply endTransmission_tracked. }
    pose proof (hoare_run _ _ _ p n w r n' w' Hseq Ht Hrun) as H.
    unfold after_transaction in H.
    destruct (Z.eqb_spec r 0); [contradiction | exact H].
  - exact (hoare_run _ _ _ p n w 0 n' w' (requestFrom_tracked (u8 a) (u8 q) k e)
             Ht Hrun).
Qed.

(** C6. From a reachable world with no pending failure and emergency
    recovery enabled, three recorded failures in a row leave the clock at
    step 0, the rise time at step STEPS-1 = 19, learning disabled, the
    cooldown at 15000 ms (the constructor's is 5000 ms) and the
    consecutive-error counter at 0. *)
Theorem three_failures_emergency_settings
    w0 p1 n1 n1' w1 p2 n2 n2' w2 p3 n3 n3' w3 :
  reachable w0 ->
  consecutiveErrors (ctl w0) = 0 ->
  emergencyRecovery (ctl w0) = true ->
  failedTransaction p1 n1 w0 n1' w1 ->
  failedTransaction p2 n2 w1 n2' w2 ->
  failedTransaction p3 n3 w2 n3' w3 ->
  clockSpeedStep (currentConfig (ctl w3)) = 0
  /\ riseTimeStep (currentConfig (ctl w3)) = 19
  /\ learningMode (ctl w3) = false
  /\ adjustmentCooldown (ctl constructor) = 5000
  /\ adjustmentCooldown (ctl w3) = 15000
  /\ consecutiveErrors (ctl w3) = 0.
Proof.
  intros Hreach Hzero Hon F1 F2 F3.
  destruct (reachable_idle w0 Hreach) as (k & e & _ & Ht).
  pose proof Ht as Hparts. apply tracked_parts in Hparts as (_ & _ & Hk & He).
  rewrite Hzero in Hk. rewrite Hon in He. subst k e.
  pose proof (failedTransaction_handled _ _ _ _ _ _ _ Ht F1) as H1.
  change (tracked 1 true w1) in H1.
  pose proof (failedTransaction_handled _ _ _ _ _ _ _ H1 F2) as H2.
  change (tracked 2 true w2) in H2.
  pose proof (failedTransaction_handled _ _ _ _ _ _ _ H2 F3) as H3.
  change (tracked 0 true w3 /\ (true = true -> emergency_settings w3)) in H3.
  destruct H3 as [Ht3 Hset]. specialize (Hset eq_refl).
  apply tracked_parts in Ht3 as (_ & _ & Hk3 & _).
  destruct Hset as (Hc & Hr & Hl & Hcd).
  repeat split; assumption.
Qed.

Lemma three_failures_emergency_settings_witness :
  let p := three_failures_tape in
  let w3 := after_failures 3 in
  failedTransaction p 0 constructor 5 (after_failures 1)
  /\ failedTransaction p 5 (after_failures 1) 10 (after_failures 2)
  /\ failedTransaction p 10 (after_failures 2) 16 w3
  /\ clockSpeedStep (currentConfig (ctl w3)) = 0
  /\ riseTimeStep (currentConfig (ctl w3)) = 19
  /\ learningMode (ctl w3) = false
  /\ adjustmentCooldown (ctl constructor) = 5000
  /\ adjustmentCooldown (ctl w3) = 15000
  /\ consecutiveErrors (ctl w3) = 0.
Proof.
  cbn zeta.
  assert (F1 : failedTransaction three_failures_tape 0 constructor 5
                 (after_failures 1)).
  { apply failed_endTransmission with (r := 2);
      [vm_compute; reflexivity | discriminate]. }
  assert (F2 : failedTransaction three_failures_tape 5 (after_failures 1) 10
                 (after_failures 2)).
  { apply failed_endTransmission with (r := 2);
      [vm_compute; reflexivity | discriminate]. }
  assert (F3 : failedTransaction three_failures_tape 10 (after_failures 2) 16
                 (after_failures 3)).
  { apply failed_endTransmission with (r := 2);
      [vm_compute; reflexivity | discriminate]. }
  split; [exact F1|]. split; [exact F2|]. split; [exact F3|].
  apply (three_failures_emergency_settings constructor
           _ _ _ _ _ _ _ _ _ _ _ _
           reachable_constructor eq_refl eq_refl F1 F2 F3).
Defined.

(** ** Invariants of the public interface *)

Lemma runAll_reachable ops p n w r n' w' :
  reachable w -> runAll ops p n w = Some (r, n', w') -> reachable w'.
Proof.
  revert n w. induction ops as [|op ops IH]; intros n w Hw Hrun.
  - inversion Hrun; subst. exact Hw.
  - cbn [runAll] in Hrun. unfold bind in Hrun.
    destruct (run op p n w) as [[[u n1] w1]|] eqn:Hop; [|discriminate].
    apply (IH n1 w1); [|exact Hrun].
    exact (reachable_run p op n w u n1 w1 Hw Hop).
Qed.

Lemma world_after_reachable p ops : reachable (world_after p ops).
Proof.
  unfold world_after.
  destruct (runAll ops p 0%nat constructor) as [[[u n] w]|] eqn:Hrun.
  - exact (runAll_reachable ops p 0%nat constructor u n w
             reachable_constructor Hrun).
  - exact reachable_constructor.
Qed.


(** The decision engine on a controller without recorded snapshots: it
    returns, and never through one of the two trend branches. *)
Lemma decision_without_trend p n w :
  historyIndex (ctl w) < 3 ->
  exists d n' w',
    analyzePerformanceAndDecide p n w = Some (d, n', w')
    /\ reason d <> "Positive trend, optimizing speed"
    /\ reason d <> "Moderate optimization".
Proof.
  intros Hhist.
  destruct (calculatePerformanceScore_returns (stackDepth p) (ctl w)
              (metrics (currentConfig (ctl w))) Hhist) as [cs Hcs].
  destruct (calculatePerformanceScore_returns (stackDepth p) (ctl w)
              (metrics (bestConfig (ctl w))) Hhist) as [bs Hbs].
  pose proof (analyzeTrend_short (stackDepth p) (ctl w) Hhist) as Htrend.
  destruct trend_thresholds_not_met as [Hstrong Hmoderate].
  destruct (Z.ltb_spec (u32 (u32 (returned p n) - lastAdjustmentTime (ctl w)))
                       (adjustmentCooldown (ctl w))) as [Hin | Hout].
  - eexists _, _, _. split; [exact (decision_in_cooldown p n w Hin)|].
    split; discriminate.
  - assert (Hcool : (u32 (u32 (returned p n) - lastAdjustmentTime (ctl w))
                       <? adjustmentCooldown (ctl w)) = false)
      by (apply Z.ltb_ge; lia).
    eval_decision Hcool Hcs Hbs Htrend.
    rewrite Hstrong, Hmoderate. cbn.
    destruct (F32.ltb (F32.of_Z 10) (getRecentErrorRate (ctl w)));
      [|destruct (_ && _);
        [destruct (F32.ltb (F32.mul bs _) cs); cbn
        |destruct (F32.ltb cs _); [|destruct (2 <=? _)]]];
      eexists _, _, _; (split; [reflexivity|]); split; discriminate.
Qed.

(** C9. In every reachable world no snapshot has been recorded:
    [historyIndex] is 0 and [performanceHistory] is as the constructor left
    it. Hence [analyzeTrend] returns 0 and [calculateStabilityScore] returns
    the insufficient-data value 50 (at any stack depth), and the decision
    engine returns a decision that is neither "Positive trend, optimizing
    speed" nor "Moderate optimization". *)
Theorem history_never_recorded w :
  reachable w ->
  historyIndex (ctl w) = 0
  /\ performanceHistory (ctl w) = replicate 10 zeroMetrics
  /\ (forall depth, analyzeTrend depth (ctl w) = Some F32.zero)
  /\ (forall depth, calculateStabilityScore depth (ctl w) = Some (F32.of_Z 50))
  /\ (forall p n, exists d n' w',
        analyzePerformanceAndDecide p n w = Some (d, n', w')
        /\ reason d <> "Positive trend, optimizing speed"
        /\ reason d <> "Moderate optimization").
Proof.
  intros Hreach.
  destruct (reachable_idle w Hreach) as (k & e & _ & Ht).
  apply tracked_parts in Ht as (Hidx & Hhist & _ & _).
  assert (Hlt : historyIndex (ctl w) < 3) by lia.
  split; [exact Hidx|]. split; [exact Hhist|].
  split; [intros depth; now apply analyzeTrend_short|].
  split; [intros depth; now apply calculateStabilityScore_short|].
  intros p n. now apply decision_without_trend.
Qed.

Lemma history_never_recorded_witness :
  let w := noisy_then_clean in
  successfulTransactions (metrics (currentConfig (ctl w))) = 25
  /\ historyIndex (ctl w) = 0
  /\ performanceHistory (ctl w) = replicate 10 zeroMetrics
  /\ (forall depth, analyzeTrend depth (ctl w) = Some F32.zero)
  /\ (forall depth, calculateStabilityScore depth (ctl w) = Some (F32.of_Z 50))
  /\ (forall p n, exists d n' w',
        analyzePerformanceAndDecide p n w = Some (d, n', w')
        /\ reason d <> "Positive trend, optimizing speed"
        /\ reason d <> "Moderate optimization").
Proof.
  cbn zeta. split; [vm_compute; reflexivity|].
  apply (history_never_recorded noisy_then_clean).
  apply world_after_reachable.
Defined.

(** Had [shiftPerformanceHistory] been called, the index would have moved. *)
Lemma shiftPerformanceHistory_records c :
  historyIndex c = 0 -> historyIndex (shiftPerformanceHistory c) = 1.
Proof.
  intros H. unfold shiftPerformanceHistory, LEARNING_WINDOW_SIZE.
  rewrite H. cbn. now rewrite H.
Qed.

(** C10. In every reachable world, that is at the return of every public
    operation, the consecutive-error counter is below [ERROR_THRESHOLD]
    (0, 1 or 2), so [isInRecoveryMode] answers false. *)
Theorem recovery_mode_never_observed w :
  reachable w ->
  0 <= consecutiveErrors (ctl w) < ERROR_THRESHOLD
  /\ isInRecoveryMode (ctl w) = false.
Proof.
  intros Hreach.
  destruct (reachable_idle w Hreach) as (k & e & Hk & Ht).
  apply tracked_parts in Ht as (_ & _ & Hc & _).
  rewrite Hc. split; [exact Hk|].
  unfold isInRecoveryMode. rewrite Hc. apply Z.leb_gt. lia.
Qed.

Lemma recovery_mode_never_observed_witness :
  lastError (ctl (after_failures 3)) = ERROR_NACK_ADDRESS
  /\ failedTransactions (metrics (currentConfig (ctl (after_failures 3)))) = 3
  /\ 0 <= consecutiveErrors (ctl (after_failures 3)) < ERROR_THRESHOLD
  /\ isInRecoveryMode (ctl (after_failures 3)) = false.
Proof.
  split; [vm_compute; reflexivity|]. split; [vm_compute; reflexivity|].
  apply (recovery_mode_never_observed (after_failures 3)).
  apply world_after_reachable.
Defined.

(** ** The score of a snapshot *)

(** C1 (the code departs from the claim). On the controller reached by 25
    clean transactions, a promotion to best, then two NACKs, the score of
    the best snapshot (25 successes, no failure) comes out as the score of
    the current metrics (25 successes, 2 failures): reliability and
    efficiency are read from [currentConfig.metrics], not from the argument.
    The result differs from the score of the snapshot's own fields and is
    lower. *)
Theorem score_reads_current_metrics :
  let c := ctl promoted_then_degraded in
  let m := metrics (bestConfig c) in
  m = mkMetrics 25 0 12500 500 0 0 0
  /\ metrics (currentConfig c) = mkMetrics 25 2 12500 500 7 0 0
  /\ calculatePerformanceScore 0 c m
     = calculatePerformanceScore 0 c (metrics (currentConfig c))
  /\ calculatePerformanceScore 0 c m
     = Some (snapshot_score (F32.of_Z 50) (metrics (currentConfig c)))
  /\ calculatePerformanceScore 0 c m <> Some (snapshot_score (F32.of_Z 50) m)
  /\ (forall s, calculatePerformanceScore 0 c m = Some s ->
                F32.ltb s (snapshot_score (F32.of_Z 50) m) = true).
Proof.
  cbn zeta.
  assert (Hcode : calculatePerformanceScore 0 (ctl promoted_then_degraded)
                    (metrics (bestConfig (ctl promoted_then_degraded)))
                  = Some (snapshot_score (F32.of_Z 50)
                            (metrics (currentConfig (ctl promoted_then_degraded)))))
    by (vm_compute; reflexivity).
  split; [vm_compute; reflexivity|]. split; [vm_compute; reflexivity|].
  split; [vm_compute; reflexivity|]. split; [exact Hcode|].
  split; [vm_compute; discriminate|].
  intros s H.
  assert (Hs : s = snapshot_score (F32.of_Z 50)
                     (metrics (currentConfig (ctl promoted_then_degraded))))
    by congruence.
  rewrite Hs. vm_compute. reflexivity.
Qed.

(** C4 (the code departs from the claim). On the controller reached by 25
    clean transactions, a promotion to best, then 40 transactions that fail
    with an unclassified [Wire] code, rules 1 and 2 do not match and the
    score of the current snapshot (25 successes, 40 failures, about 47.2) is
    below 0.7 times the score of the best snapshot (25 successes, no
    failure, about 84.2). The engine nevertheless computes one and the same
    number for both, since reliability and efficiency are read from
    [currentConfig.metrics] whatever snapshot is passed, so the test of
    rule 3 fails: out of cooldown the engine answers "No adjustment needed",
    [forceOptimization] returns after the one [millis()] read, the current
    configuration (75000 Hz, the emergency settings) is not replaced by the
    best one (100000 Hz) and nothing is pushed to the hardware. *)
Theorem restore_rule_misses_degradation :
  let w := promoted_then_failing in
  let p := tape [20000] in
  let current := metrics (currentConfig (ctl w)) in
  let best := metrics (bestConfig (ctl w)) in
  reachable w
  /\ current = mkMetrics 25 40 12500 500 61 0 0
  /\ best = mkMetrics 25 0 12500 500 0 0 0
  /\ ~ in_cooldown p 0 w
  /\ F32.ltb (F32.of_Z 10) (getRecentErrorRate (ctl w)) = false
  /\ (errorRate current =? 0) && (20 <? successfulTransactions current) = false
  /\ F32.ltb (snapshot_score (F32.of_Z 50) current)
             (F32.mul (snapshot_score (F32.of_Z 50) best) (F32.lit 7 10)) = true
  /\ calculatePerformanceScore 0 (ctl w) best
     = calculatePerformanceScore 0 (ctl w) current
  /\ analyzePerformanceAndDecide p 0%nat w
     = Some (mkDecision 0 0 0 false "No adjustment needed", 1%nat, w)
  /\ forceOptimization p 0%nat w = Some (tt, 1%nat, w)
  /\ clockSpeed (currentConfig (ctl w)) = 75000
  /\ clockSpeed (bestConfig (ctl w)) = 100000
  /\ restoreBestConfiguration w <> w.
Proof.
  cbn zeta.
  split; [apply world_after_reachable|].
  split; [vm_compute; reflexivity|]. split; [vm_compute; reflexivity|].
  split; [vm_compute; discriminate|].
  split; [vm_compute; reflexivity|]. split; [vm_compute; reflexivity|].
  split; [vm_compute; reflexivity|]. split; [vm_compute; reflexivity|].
  split; [vm_compute; reflexivity|]. split; [vm_compute; reflexivity|].
  split; [vm_compute; reflexivity|]. split; [vm_compute; reflexivity|].
  vm_compute; discriminate.
Qed.

(** ** Device overrides *)

Lemma device_upd_device_ne i j g c :
  i <> j -> device (upd_device i g c) j = device c j.
Proof.
  intros Hne. unfold device, upd_device, arr_get. cbn.
  now rewrite list_lookup_insert_ne.
Qed.

(** What [setDeviceSpecificConfig] does leave alone for a registered
    address: the current and best configurations, the pushed clock, the
    definitions of both ranges, and every entry other than the device's. *)
Lemma setDeviceSpecificConfig_frame a cs rt w i :
  findDeviceConfig (ctl w) a = Some i ->
  let w' := setDeviceSpecificConfig a cs rt w in
  currentConfig (ctl w') = currentConfig (ctl w)
  /\ bestConfig (ctl w') = bestConfig (ctl w)
  /\ deviceCount (ctl w') = deviceCount (ctl w)
  /\ wireClock w' = wireClock w
  /\ same_definition (clockSpeedRange w') (clockSpeedRange w)
  /\ same_definition (riseTimeRange w') (riseTimeRange w)
  /\ (forall j, j <> i -> device (ctl w') j = device (ctl w) j).
Proof.
  intros Hfind. cbn zeta. unfold setDeviceSpecificConfig.
  rewrite Hfind. rewrite Hfind.
  destruct (isStepValid _ && isStepValid _).
  - unfold updateClockSpeedRange, updateRiseTimeRange, updateDynamicRange,
      same_definition.
    repeat split; cbn; try (repeat case_match; reflexivity).
    intros j Hne. rewrite !device_upd_device_ne by congruence. reflexivity.
  - unfold same_definition. repeat split.
Qed.

(** C2 (the code departs from the claim). With the device at 0x40
    registered, [setDeviceSpecificConfig(0x40, 400000, 100)] leaves
    [currentConfig] as it was but moves both file-level ranges: the clock
    range from step 0 (100000 Hz) to step 1 (255263 Hz), the rise-time range
    from step 7 (125 ns) to step 5 (95 ns), so that the ranges no longer
    describe the active configuration. *)
Theorem device_override_moves_ranges :
  let w := one_device in
  let w' := setDeviceSpecificConfig 64 400000 100 w in
  findDeviceConfig (ctl w) 64 = Some 0%nat
  /\ currentConfig (ctl w') = currentConfig (ctl w)
  /\ (current_step (clockSpeedRange w), current_value (clockSpeedRange w))
     = (0, 100000)
  /\ (current_step (clockSpeedRange w'), current_value (clockSpeedRange w'))
     = (1, 255263)
  /\ (current_step (riseTimeRange w), current_value (riseTimeRange w))
     = (7, 125)
  /\ (current_step (riseTimeRange w'), current_value (riseTimeRange w'))
     = (5, 95)
  /\ clockSpeedRange w' <> clockSpeedRange w
  /\ riseTimeRange w' <> riseTimeRange w
  /\ current_step (clockSpeedRange w') <> clockSpeedStep (currentConfig (ctl w')).
Proof.
  cbn zeta.
  split; [vm_compute; reflexivity|]. split; [vm_compute; reflexivity|].
  split; [vm_compute; reflexivity|]. split; [vm_compute; reflexivity|].
  split; [vm_compute; reflexivity|]. split; [vm_compute; reflexivity|].
  split; [vm_compute; discriminate|]. split; vm_compute; discriminate.
Qed.

(** [testConfiguration] resolves the values of the steps it tries with
    [calculateValueFromStep] and leaves both ranges as they were. *)
Lemma testConfiguration_keeps_ranges cs rs p n w b n' w' :
  testConfiguration cs rs p n w = Some (b, n', w') ->
  clockSpeedRange w' = clockSpeedRange w /\ riseTimeRange w' = riseTimeRange w.
Proof.
  intros Hrun.
  assert (H : hoare (fun v => clockSpeedRange v = clockSpeedRange w
                              /\ riseTimeRange v = riseTimeRange w)
                    (testConfiguration cs rs)
                    (fun _ v => clockSpeedRange v = clockSpeedRange w
                                /\ riseTimeRange v = riseTimeRange w)).
  { unfold testConfiguration.
    repeat hstep_with ltac:(unfold applyConfiguration; cbn; assumption). }
  exact (hoare_run _ _ _ p n w b n' w' H (conj eq_refl eq_refl) Hrun).
Qed.

(** ** The range definitions never change *)

Lemma keeps_ret {A} Q (a : A) : keeps Q (ret a).
Proof. intros p n w a' n' w' H Hq. inversion H; subst. exact Hq. Qed.

Lemma keeps_bind {A B} Q (m : M A) (k : A -> M B) :
  keeps Q m -> (forall a, keeps Q (k a)) -> keeps Q (bind m k).
Proof.
  intros Hm Hk p n w b n' w' H Hq. unfold bind in H.
  destruct (m p n w) as [[[a n1] w1]|] eqn:Hrun; [|discriminate].
  exact (Hk a p n1 w1 b n' w' H (Hm p n w a n1 w1 Hrun Hq)).
Qed.

Lemma keeps_modify Q f : (forall w, Q w -> Q (f w)) -> keeps Q (modify f).
Proof. intros Hf p n w a n' w' H Hq. inversion H; subst. now apply Hf. Qed.

Lemma keeps_getc Q : keeps Q getc.
Proof. intros p n w a n' w' H Hq. inversion H; subst. exact Hq. Qed.

Lemma keeps_platformRead Q : keeps Q platformRead.
Proof. intros p n w a n' w' H Hq. inversion H; subst. exact Hq. Qed.

Lemma keeps_liftOption {A} Q (f : nat -> World -> option A) :
  keeps Q (liftOption f).
Proof.
  intros p n w a n' w' H Hq. unfold liftOption in H.
  destruct (f (stackDepth p) w); [|discriminate]. inversion H; subst. exact Hq.
Qed.

Lemma keeps_forEach {A X} Q (body : A -> X -> M A) (l : list X) (a : A) :
  (forall a x, keeps Q (body a x)) -> keeps Q (forEach body l a).
Proof.
  intros Hbody. revert a. induction l as [|x l IH]; intros a; simpl.
  - apply keeps_ret.
  - apply keeps_bind; [apply Hbody | apply IH].
Qed.

Lemma range_definitions_upd_ctl f w :
  range_definitions (upd_ctl f w) = range_definitions w.
Proof. reflexivity. Qed.

Ltac definitions_unfold :=
  intros; unfold range_definitions;
  repeat (progress (unfold_members; unfold updateDynamicRange));
  cbn; repeat (case_match; cbn); reflexivity.

Lemma range_definitions_applyConfiguration w :
  range_definitions (applyConfiguration w) = range_definitions w.
Proof. reflexivity. Qed.

Lemma range_definitions_updateClockSpeedRange s w :
  range_definitions (updateClockSpeedRange s w) = range_definitions w.
Proof. definitions_unfold. Qed.

Lemma range_definitions_updateRiseTimeRange s w :
  range_definitions (updateRiseTimeRange s w) = range_definitions w.
Proof. definitions_unfold. Qed.

Lemma range_definitions_loadClockSpeed w :
  range_definitions (loadClockSpeed w) = range_definitions w.
Proof. reflexivity. Qed.

Lemma range_definitions_loadRiseTime w :
  range_definitions (loadRiseTime w) = range_definitions w.
Proof. reflexivity. Qed.

Lemma range_definitions_restoreBestConfiguration w :
  range_definitions (restoreBestConfiguration w) = range_definitions w.
Proof. reflexivity. Qed.

Lemma range_definitions_applyDeviceConfiguration a w :
  range_definitions (applyDeviceConfiguration a w) = range_definitions w.
Proof. unfold applyDeviceConfiguration. repeat case_match; reflexivity. Qed.

Create Rewrite HintDb range_frame.

#[local] Hint Rewrite range_definitions_upd_ctl
  range_definitions_applyConfiguration range_definitions_updateClockSpeedRange
  range_definitions_updateRiseTimeRange range_definitions_loadClockSpeed
  range_definitions_loadRiseTime range_definitions_restoreBestConfiguration
  range_definitions_applyDeviceConfiguration : range_frame.

Lemma range_definitions_adaptiveRetreat w :
  range_definitions (adaptiveRetreat w) = range_definitions w.
Proof.
  unfold adaptiveRetreat. repeat case_match; now autorewrite with range_frame.
Qed.

Lemma range_definitions_incrementalRecovery w :
  range_definitions (incrementalRecovery w) = range_definitions w.
Proof.
  unfold incrementalRecovery. repeat case_match; now autorewrite with range_frame.
Qed.

Lemma range_definitions_setClockSpeed v w :
  range_definitions (setClockSpeed v w) = range_definitions w.
Proof.
  unfold setClockSpeed. repeat case_match; now autorewrite with range_frame.
Qed.

Lemma range_definitions_setRiseTime v w :
  range_definitions (setRiseTime v w) = range_definitions w.
Proof.
  unfold setRiseTime. repeat case_match; now autorewrite with range_frame.
Qed.

Lemma range_definitions_setDeviceSpecificConfig a cs rt w :
  range_definitions (setDeviceSpecificConfig a cs rt w) = range_definitions w.
Proof.
  unfold setDeviceSpecificConfig. repeat case_match;
    now autorewrite with range_frame.
Qed.

#[local] Hint Rewrite range_definitions_adaptiveRetreat
  range_definitions_incrementalRecovery range_definitions_setClockSpeed
  range_definitions_setRiseTime range_definitions_setDeviceSpecificConfig
  : range_frame.

(** Closes [as_constructed (f w)] from [as_constructed w]: the members only
    assign [current_step], [current_value] and [optimal_step]. *)
Ltac definitions_frame :=
  unfold as_constructed in *;
  first [ progress (autorewrite with range_frame); assumption
        | match goal with
          | H : range_definitions ?w = _ |- range_definitions _ = _ =>
              rewrite <- H; reflexivity
          end ].

Ltac kstep :=
  lazymatch goal with
  | |- keeps _ (bind _ _) => apply keeps_bind; [ | intros ? ]
  | |- keeps _ (if ?b then _ else _) => destruct b
  | |- keeps _ (match ?x with _ => _ end) => destruct x
  | |- keeps _ (ret _) => apply keeps_ret
  | |- keeps _ getc => apply keeps_getc
  | |- keeps _ (modify _) => apply keeps_modify; intros; definitions_frame
  | |- keeps _ (modc _) => apply keeps_modify; intros; definitions_frame
  | |- keeps _ platformRead => apply keeps_platformRead
  | |- keeps _ millis => unfold millis
  | |- keeps _ micros => unfold micros
  | |- keeps _ wireResult => unfold wireResult
  | |- keeps _ wireValue => unfold wireValue
  | |- keeps _ (scoreOf _) => apply keeps_liftOption
  | |- keeps _ trendNow => apply keeps_liftOption
  | |- keeps _ (forEach _ _ _) => apply keeps_forEach; intros ? ?
  | |- keeps _ (void _) => unfold void
  end.

Lemma updatePerformanceMetrics_definitions success t a :
  keeps as_constructed (updatePerformanceMetrics success t a).
Proof. unfold updatePerformanceMetrics. repeat kstep. Qed.

Lemma analyzePerformanceAndDecide_definitions :
  keeps as_constructed analyzePerformanceAndDecide.
Proof. unfold analyzePerformanceAndDecide. repeat kstep. Qed.

Lemma applyAIDecision_definitions d : keeps as_constructed (applyAIDecision d).
Proof. unfold applyAIDecision. repeat kstep. Qed.

Lemma emergencyRecoveryProcedure_definitions :
  keeps as_constructed emergencyRecoveryProcedure.
Proof. unfold emergencyRecoveryProcedure. repeat kstep. Qed.

Lemma handleError_definitions e : keeps as_constructed (handleError e).
Proof.
  unfold handleError, adaptiveRecovery.
  repeat lazymatch goal with
         | |- keeps _ emergencyRecoveryProcedure =>
             apply emergencyRecoveryProcedure_definitions
         | |- _ => kstep
         end.
Qed.

Lemma adjustIfDue_definitions : keeps as_constructed adjustIfDue.
Proof.
  unfold adjustIfDue.
  repeat lazymatch goal with
         | |- keeps _ analyzePerformanceAndDecide =>
             apply analyzePerformanceAndDecide_definitions
         | |- keeps _ (applyAIDecision _) => apply applyAIDecision_definitions
         | |- _ => kstep
         end.
Qed.

Lemma testConfiguration_definitions cs rs :
  keeps as_constructed (testConfiguration cs rs).
Proof. unfold testConfiguration. repeat kstep. Qed.

Lemma scanBus_definitions : keeps as_constructed scanBus.
Proof. unfold scanBus. repeat kstep. Qed.

Ltac kauto :=
  repeat
    lazymatch goal with
    | |- keeps _ (updatePerformanceMetrics _ _ _) =>
        apply updatePerformanceMetrics_definitions
    | |- keeps _ (handleError _) => apply handleError_definitions
    | |- keeps _ adjustIfDue => apply adjustIfDue_definitions
    | |- keeps _ analyzePerformanceAndDecide =>
        apply analyzePerformanceAndDecide_definitions
    | |- keeps _ (applyAIDecision _) => apply applyAIDecision_definitions
    | |- keeps _ (testConfiguration _ _) => apply testConfiguration_definitions
    | |- keeps _ scanBus => apply scanBus_definitions
    | |- _ => kstep
    end.

Lemma run_definitions op : keeps as_constructed (run op).
Proof.
  destruct op; cbn [run];
    unfold begin, requestFrom, beginTransmission, endTransmission,
      forceOptimization, resetToDefaults, resetLearning, scanAndOptimize;
    kauto.
Qed.

(** In every reachable world the two ranges still have the minimum, maximum
    and step size the constructor gave them. *)
Lemma reachable_range_definitions w :
  reachable w ->
  same_definition (clockSpeedRange w) (clockSpeedRange constructor)
  /\ same_definition (riseTimeRange w) (riseTimeRange constructor).
Proof.
  intros Hreach.
  assert (H : as_constructed w).
  { induction Hreach as [|p op n w r n' w' _ IH Hrun].
    - reflexivity.
    - exact (run_definitions op p n w r n' w' Hrun IH). }
  unfold as_constructed, range_definitions in H.
  injection H as H1 H2 H3 H4 H5 H6.
  unfold same_definition. auto.
Qed.

(** * Further properties of the members *)

(** ** Partial-correctness rules *)

Lemma ensures_conseq {A} (P P' : World -> Prop) (m : M A) (Q Q' : A -> World -> Prop) :
  ensures P' m Q' ->
  (forall w, P w -> P' w) ->
  (forall a w, Q' a w -> Q a w) ->
  ensures P m Q.
Proof.
  intros Hm HP HQ p n w a n' w' Hw Hrun.
  apply HQ. exact (Hm p n w a n' w' (HP w Hw) Hrun).
Qed.

Lemma ensures_ret {A} (a : A) (P : World -> Prop) (Q : A -> World -> Prop) :
  (forall w, P w -> Q a w) -> ensures P (ret a) Q.
Proof.
  intros H p n w a' n' w' Hw Hrun. inversion Hrun; subst. now apply H.
Qed.

Lemma ensures_bind {A B} (P : World -> Prop) (m : M A) (Q : A -> World -> Prop)
    (k : A -> M B) (R : B -> World -> Prop) :
  ensures P m Q ->
  (forall a, ensures (Q a) (k a) R) ->
  ensures P (bind m k) R.
Proof.
  intros Hm Hk p n w b n' w' Hw Hrun. unfold bind in Hrun.
  destruct (m p n w) as [[[a n1] w1]|] eqn:Hfirst; [|discriminate].
  exact (Hk a p n1 w1 b n' w' (Hm p n w a n1 w1 Hw Hfirst) Hrun).
Qed.

Lemma ensures_modify (f : World -> World) (P : World -> Prop)
    (Q : unit -> World -> Prop) :
  (forall w, P w -> Q tt (f w)) -> ensures P (modify f) Q.
Proof.
  intros H p n w a n' w' Hw Hrun. inversion Hrun; subst. now apply H.
Qed.

(** Reading the controller: the continuation may use that the controller
    read is the current one, until the next update. *)
Lemma ensures_getc_bind {B} (P : World -> Prop) (k : SelfAdjustingI2C -> M B)
    (R : B -> World -> Prop) :
  (forall c, (exists w0, P w0 /\ ctl w0 = c) ->
             ensures (fun w => P w /\ ctl w = c) (k c) R) ->
  ensures P (bind getc k) R.
Proof.
  intros Hk p n w b n' w' Hw Hrun.
  apply (Hk (ctl w) (ex_intro _ w (conj Hw eq_refl)) p n w b n' w');
    [split; [exact Hw | reflexivity] | exact Hrun].
Qed.

Lemma ensures_platformRead (P : World -> Prop) (Q : Z -> World -> Prop) :
  (forall x w, P w -> Q x w) -> ensures P platformRead Q.
Proof.
  intros H p n w a n' w' Hw Hrun. inversion Hrun; subst. now apply H.
Qed.

Lemma ensures_read (P Q : World -> Prop) (m : M Z) :
  m = millis \/ m = micros \/ m = wireResult \/ m = wireValue ->
  (forall w, P w -> Q w) -> ensures P m (fun _ => Q).
Proof.
  intros Hm H p n w a n' w' Hw Hrun.
  destruct Hm as [-> | [-> | [-> | ->]]]; inversion Hrun; subst; now apply H.
Qed.

Lemma ensures_liftOption {A} (P Q : World -> Prop) (f : nat -> World -> option A) :
  (forall w, P w -> Q w) -> ensures P (liftOption f) (fun _ => Q).
Proof.
  intros H p n w a n' w' Hw Hrun. unfold liftOption in Hrun.
  destruct (f (stackDepth p) w); [|discriminate].
  inversion Hrun; subst. now apply H.
Qed.

(** A loop whose body keeps [I], for every value of the loop variables. *)
Lemma ensures_forEach {A X} (I : A -> World -> Prop) (body : A -> X -> M A)
    (l : list X) (a : A) :
  (forall a x, ensures (I a) (body a x) I) ->
  ensures (I a) (forEach body l a) I.
Proof.
  intros Hbody. revert a. induction l as [|x l IH]; intros a; simpl.
  - now apply ensures_ret.
  - eapply ensures_bind; [apply Hbody | intros a'; apply IH].
Qed.

Lemma ensures_weaken {A} (P P' : World -> Prop) (m : M A) (Q : A -> World -> Prop) :
  ensures P' m Q -> (forall w, P w -> P' w) -> ensures P m Q.
Proof. intros H HP. eapply ensures_conseq; [exact H | exact HP | auto]. Qed.

(** Closes [Inv w] from a precondition [Inv w], possibly with equations on
    the controller attached. *)
Ltac from_pre :=
  cbn beta in *;
  repeat match goal with
         | H : _ /\ ctl _ = _ |- _ => destruct H as [H _]
         end;
  assumption.

(** One syntax-directed step towards [ensures _ m (fun _ => Inv)]; [leaf]
    closes the goals of the state updates, with the precondition and what
    is known about the controllers read so far in the context. *)
Ltac estep_with Inv leaf :=
  lazymatch goal with
  | |- ensures _ (bind getc _) _ => apply ensures_getc_bind; intros ?c ?Hread
  | |- ensures _ (bind _ _) _ =>
      apply ensures_bind with (Q := fun _ => Inv); [ | intros ? ]
  | |- ensures _ (if ?b then _ else _) _ => destruct b eqn:?
  | |- ensures _ (match ?x with _ => _ end) _ => destruct x eqn:?
  | |- ensures _ (ret _) _ => apply ensures_ret; intros ? ?; from_pre
  | |- ensures _ (modify _) _ => apply ensures_modify; intros ? ?; leaf
  | |- ensures _ (modc _) _ => apply ensures_modify; intros ? ?; leaf
  | |- ensures _ millis _ => apply ensures_read; [tauto | intros ? ?; from_pre]
  | |- ensures _ micros _ => apply ensures_read; [tauto | intros ? ?; from_pre]
  | |- ensures _ wireResult _ => apply ensures_read; [tauto | intros ? ?; from_pre]
  | |- ensures _ wireValue _ => apply ensures_read; [tauto | intros ? ?; from_pre]
  | |- ensures _ (scoreOf _) _ => apply ensures_liftOption; intros ? ?; from_pre
  | |- ensures _ trendNow _ => apply ensures_liftOption; intros ? ?; from_pre
  | |- ensures _ (forEach _ _ _) _ =>
      apply ensures_weaken with (P' := Inv);
        [ apply (ensures_forEach (fun _ => Inv)); intros ? ?
        | intros ? ?; from_pre ]
  | |- ensures _ (void _) _ => unfold void
  end.

(** The members built from the primitives, unfolded in one go. *)
Ltac unfold_run :=
  unfold begin, requestFrom, beginTransmission, endTransmission,
    forceOptimization, resetToDefaults, resetLearning, scanAndOptimize,
    scanBus, testConfiguration, adjustIfDue, handleError, adaptiveRecovery,
    emergencyRecoveryProcedure, applyAIDecision, analyzePerformanceAndDecide,
    updatePerformanceMetrics.

(** ** Tuning parameters and error ring *)

Lemma tuning_ok_frame f w :
  adaptationRate (f (ctl w)) = adaptationRate (ctl w) ->
  errorHistory (f (ctl w)) = errorHistory (ctl w) ->
  errorHistoryIndex (f (ctl w)) = errorHistoryIndex (ctl w) ->
  tuning_ok w -> tuning_ok (upd_ctl f w).
Proof. unfold tuning_ok. cbn. intros -> -> ->. auto. Qed.

Lemma tuning_ok_updateErrorHistory e w :
  tuning_ok w -> tuning_ok (upd_ctl (updateErrorHistory e) w).
Proof.
  unfold tuning_ok, updateErrorHistory. cbn. intros (Hr & Hl & Hi).
  rewrite length_insert. repeat split; try lia; try assumption.
  - unfold u8. pose proof (Z.mod_pos_bound (errorHistoryIndex (ctl w) + 1) 10).
    rewrite Z.mod_small; lia.
  - unfold u8. pose proof (Z.mod_pos_bound (errorHistoryIndex (ctl w) + 1) 10).
    rewrite Z.mod_small; lia.
Qed.

Lemma tuning_ok_setAdaptationRate rate w :
  tuning_ok w -> tuning_ok (upd_ctl (setAdaptationRate rate) w).
Proof.
  unfold tuning_ok, setAdaptationRate, constrain. cbn. intros (Hr & Hl & Hi).
  repeat split; try assumption; repeat case_match; lia.
Qed.

Ltac split_pre :=
  cbn beta in *;
  repeat match goal with
         | H : _ /\ ctl _ = _ |- _ => destruct H as [H ?]
         end.

Ltac unfold_pure :=
  unfold adaptiveRetreat, incrementalRecovery, removeDeviceConfig,
    enableEmergencyRecovery in *;
  repeat (progress unfold_members).

Ltac tuning_leaf :=
  split_pre;
  lazymatch goal with
  | |- tuning_ok (upd_ctl (updateErrorHistory _) _) =>
      apply tuning_ok_updateErrorHistory; assumption
  | |- tuning_ok (upd_ctl (setAdaptationRate _) _) =>
      apply tuning_ok_setAdaptationRate; assumption
  | H : tuning_ok ?w |- tuning_ok _ =>
      unfold tuning_ok in *; destruct H as (? & ? & ?);
      unfold_pure; cbn; repeat (case_match; cbn);
      repeat split; first [assumption | lia | reflexivity]
  end.

Lemma run_tuning_ok op : ensures tuning_ok (run op) (fun _ => tuning_ok).
Proof.
  destruct op; cbn [run]; unfold_run;
    repeat estep_with tuning_ok tuning_leaf.
Qed.

Lemma reachable_tuning_ok w : reachable w -> tuning_ok w.
Proof.
  induction 1 as [|p op n w r n' w' _ IH Hrun].
  - unfold tuning_ok. cbn. repeat split; lia.
  - exact (run_tuning_ok op p n w r n' w' IH Hrun).
Qed.

(** ** Learning, once disabled *)

Ltac learning_leaf :=
  split_pre;
  lazymatch goal with
  | H : learning_off ?w |- learning_off _ =>
      unfold learning_off in *;
      unfold_pure; cbn; repeat (case_match; cbn);
      first [assumption | reflexivity]
  end.

Lemma run_learning_off op :
  enables_learning op = false ->
  ensures learning_off (run op) (fun _ => learning_off).
Proof.
  intros Hop.
  destruct op as [| | | | | | | | | | [|] | | | | | | | | | | | | | |];
    try discriminate Hop;
    cbn [run]; unfold_run; repeat estep_with learning_off learning_leaf.
Qed.

(** X1. Nothing but [enableLearning(true)] and [resetToDefaults] switches
    learning back on: through any sequence of the other public operations a
    controller whose learning is disabled (as the emergency procedure leaves
    it) keeps it disabled, however much time passes. *)
Theorem learning_stays_disabled ops p n w r n' w' :
  forallb (fun op => negb (enables_learning op)) ops = true ->
  learningMode (ctl w) = false ->
  runAll ops p n w = Some (r, n', w') ->
  learningMode (ctl w') = false.
Proof.
  revert n w. induction ops as [|op ops IH]; intros n w Hops Hoff Hrun.
  - inversion Hrun; subst. exact Hoff.
  - cbn [forallb] in Hops. apply andb_prop in Hops as [Hop Hrest].
    apply negb_true_iff in Hop.
    cbn [runAll] in Hrun. unfold bind in Hrun.
    destruct (run op p n w) as [[[u n1] w1]|] eqn:Hfirst; [|discriminate].
    apply (IH n1 w1 Hrest); [|exact Hrun].
    exact (run_learning_off op Hop p n w u n1 w1 Hoff Hfirst).
Qed.

Lemma learning_stays_disabled_witness :
  let w := after_failures 3 in
  let w' := run_from long_after_tape 0 w long_after_ops in
  learningMode (ctl w) = false
  /\ runAll long_after_ops long_after_tape 0%nat w = Some (tt, 23%nat, w')
  /\ successfulTransactions (metrics (currentConfig (ctl w'))) = 0
  /\ lastAdjustmentTime (ctl w') = 100000
  /\ learningMode (ctl w') = false.
Proof.
  cbn zeta.
  assert (Hoff : learningMode (ctl (after_failures 3)) = false)
    by (vm_compute; reflexivity).
  assert (Hrun : runAll long_after_ops long_after_tape 0%nat (after_failures 3)
                 = Some (tt, 23%nat,
                         run_from long_after_tape 0 (after_failures 3)
                                  long_after_ops))
    by (vm_compute; reflexivity).
  split; [exact Hoff|]. split; [exact Hrun|].
  split; [vm_compute; reflexivity|]. split; [vm_compute; reflexivity|].
  exact (learning_stays_disabled long_after_ops long_after_tape 0
           (after_failures 3) tt 23
           (run_from long_after_tape 0 (after_failures 3) long_after_ops)
           eq_refl Hoff Hrun).
Defined.

(** ** The device registry *)

Lemma find_seq_None (f : nat -> bool) (s m : nat) :
  List.find f (seq s m) = None <->
  (forall j, (s <= j < s + m)%nat -> f j = false).
Proof.
  revert s. induction m as [|m IH]; intros s; simpl.
  - split; [intros _ j Hj; lia | reflexivity].
  - destruct (f s) eqn:Hs.
    + split; [discriminate|]. intros H. rewrite (H s) in Hs by lia. discriminate.
    + rewrite IH. split.
      * intros H j Hj. destruct (Nat.eq_dec j s) as [->|]; [exact Hs|].
        apply H. lia.
      * intros H j Hj. apply H. lia.
Qed.

Lemma find_seq_Some (f : nat -> bool) (s m i : nat) :
  List.find f (seq s m) = Some i ->
  (s <= i < s + m)%nat /\ f i = true
  /\ (forall j, (s <= j < i)%nat -> f j = false).
Proof.
  revert s. induction m as [|m IH]; intros s; simpl; [discriminate|].
  destruct (f s) eqn:Hs.
  - intros H. inversion H; subst. repeat split; [lia | lia | exact Hs |].
    intros j Hj. lia.
  - intros H. destruct (IH (S s) H) as (Hr & Hi & Hb).
    repeat split; [lia | lia | exact Hi |].
    intros j Hj. destruct (Nat.eq_dec j s) as [->|]; [exact Hs|].
    apply Hb. lia.
Qed.

Lemma indices_0 (n : Z) : indices 0 n = seq 0 (Z.to_nat n).
Proof. unfold indices. cbn. now rewrite Nat.sub_0_r. Qed.

(** [findDeviceConfig] returns the first registered entry with the address,
    and nothing only when no registered entry has it. *)
Lemma findDeviceConfig_Some c a i :
  findDeviceConfig c a = Some i ->
  Z.of_nat i < deviceCount c /\ address (device c i) = a
  /\ (forall j, (j < i)%nat -> address (device c j) <> a).
Proof.
  unfold findDeviceConfig. rewrite indices_0. intros H.
  apply find_seq_Some in H as (Hr & Hi & Hb).
  apply Z.eqb_eq in Hi. repeat split; [lia | exact Hi |].
  intros j Hj. apply Z.eqb_neq. apply Hb. lia.
Qed.

Lemma findDeviceConfig_None c a :
  findDeviceConfig c a = None <->
  (forall j : nat, Z.of_nat j < deviceCount c -> address (device c j) <> a).
Proof.
  unfold findDeviceConfig. rewrite indices_0, find_seq_None. split.
  - intros H j Hj. apply Z.eqb_neq. apply H. lia.
  - intros H j Hj. apply Z.eqb_neq. apply H. lia.
Qed.

Lemma findDeviceConfig_registered c a i :
  registry_ok c -> Z.of_nat i < deviceCount c -> address (device c i) = a ->
  findDeviceConfig c a = Some i.
Proof.
  intros (_ & _ & Huniq) Hi Ha.
  destruct (findDeviceConfig c a) as [j|] eqn:Hfind.
  - apply findDeviceConfig_Some in Hfind as (Hj & Hja & _).
    f_equal. apply Huniq; [assumption | assumption | congruence].
  - rewrite findDeviceConfig_None in Hfind. now destruct (Hfind i Hi).
Qed.

Lemma device_set_insert c (i j : nat) d :
  (i < length (deviceConfigs c))%nat ->
  device (set_deviceConfigs (<[i := d]> (deviceConfigs c)) c) j
  = if decide (j = i) then d else device c j.
Proof.
  intros Hi. unfold device, arr_get. cbn.
  destruct (decide (j = i)) as [->|Hne].
  - now rewrite list_lookup_insert_eq.
  - now rewrite list_lookup_insert_ne by congruence.
Qed.

Lemma device_upd_device c (i j : nat) g :
  (i < length (deviceConfigs c))%nat ->
  device (upd_device i g c) j = if decide (j = i) then g (device c i) else device c j.
Proof. intros Hi. unfold upd_device. now apply device_set_insert. Qed.

Lemma address_upd_device c (i j : nat) g :
  (forall d, address (g d) = address d) ->
  address (device (upd_device i g c) j) = address (device c j).
Proof.
  intros Hg. destruct (Nat.lt_ge_cases i (length (deviceConfigs c))) as [Hi|Hi].
  - rewrite device_upd_device by assumption.
    destruct (decide (j = i)) as [->|]; [apply Hg | reflexivity].
  - unfold upd_device. now rewrite list_insert_ge by lia.
Qed.

Lemma registry_ok_upd_device c i g :
  (forall d, address (g d) = address d) ->
  registry_ok c -> registry_ok (upd_device i g c).
Proof.
  intros Hg (Hc & Hl & Hu). repeat split; cbn; try lia.
  - unfold upd_device. cbn. now rewrite length_insert.
  - intros j k Hj Hk. rewrite !address_upd_device by assumption.
    now apply Hu.
Qed.

(** Registration when there is room. *)
Lemma addDeviceConfig_room c a :
  0 <= deviceCount c < MAX_DEVICES ->
  addDeviceConfig a c
  = set_deviceCount (deviceCount c + 1)
      (set_deviceConfigs
         (<[Z.to_nat (deviceCount c) := mkDevice a (currentConfig c) false]>
            (deviceConfigs c)) c).
Proof.
  unfold addDeviceConfig, MAX_DEVICES. intros Hc.
  destruct (Z.ltb_spec (deviceCount c) 16); [|lia]. cbn.
  unfold u8. now rewrite Z.mod_small by lia.
Qed.

(** Registration at capacity is a silent no-op. *)
Lemma addDeviceConfig_full c a :
  MAX_DEVICES <= deviceCount c -> addDeviceConfig a c = c.
Proof.
  unfold addDeviceConfig. intros Hc.
  destruct (Z.ltb_spec (deviceCount c) MAX_DEVICES); [lia | reflexivity].
Qed.

(** Registration of an address that is not registered. *)
Lemma registry_ok_addDeviceConfig c a :
  findDeviceConfig c a = None ->
  registry_ok c -> registry_ok (addDeviceConfig a c).
Proof.
  intros Hnone Hok. pose proof Hok as (Hc & Hl & Hu).
  destruct (Z.lt_ge_cases (deviceCount c) MAX_DEVICES) as [Hroom|Hfull];
    [|now rewrite addDeviceConfig_full].
  rewrite addDeviceConfig_room by lia.
  rewrite findDeviceConfig_None in Hnone.
  unfold MAX_DEVICES in *.
  assert (Hlen : (Z.to_nat (deviceCount c) < length (deviceConfigs c))%nat) by lia.
  split; [cbn; unfold MAX_DEVICES; lia|].
  split; [cbn; now rewrite length_insert|].
  cbn [deviceCount set_deviceCount].
  intros i j Hi Hj.
  change (device (set_deviceCount (deviceCount c + 1) ?x))
    with (device x).
  rewrite !device_set_insert by assumption.
  destruct (decide (i = Z.to_nat (deviceCount c))) as [->|Hi'],
           (decide (j = Z.to_nat (deviceCount c))) as [->|Hj']; cbn.
  - reflexivity.
  - intros Heq. destruct (Hnone j ltac:(lia)). congruence.
  - intros Heq. destruct (Hnone i ltac:(lia)). congruence.
  - apply Hu; lia.
Qed.

(** The compaction loop of [removeDeviceConfig]: after [m] steps from [i],
    the slots [i .. i+m-1] hold what was one slot to the right. *)
Lemma shift_lookup (l : list DeviceConfig) (i m j : nat) :
  (i + m < length l)%nat ->
  arr_get zeroDevice
    (fold_left (fun devs k => <[k := arr_get zeroDevice devs (S k)]> devs)
               (seq i m) l) j
  = if decide (i <= j < i + m)%nat then arr_get zeroDevice l (S j)
    else arr_get zeroDevice l j.
Proof.
  revert j. induction m as [|m IH]; intros j Hlen.
  - cbn. destruct (decide _); [lia | reflexivity].
  - rewrite seq_S, fold_left_app. cbn [fold_left].
    set (devs := fold_left _ (seq i m) l) in *.
    assert (Hdevs : length devs = length l).
    { subst devs. clear. generalize (seq i m). intros ks. revert l.
      induction ks as [|k ks IHk]; intros l; cbn; [reflexivity|].
      rewrite IHk. apply length_insert. }
    unfold arr_get at 1.
    destruct (decide (j = i + m)%nat) as [->|Hne].
    + rewrite list_lookup_insert_eq by lia. cbn.
      rewrite (IH (S (i + m))) by lia.
      destruct (decide (i <= S (i + m) < i + m)%nat); [lia|].
      destruct (decide (i <= i + m < i + S m)%nat); [reflexivity | lia].
    + rewrite list_lookup_insert_ne by congruence.
      fold (arr_get zeroDevice devs j). rewrite IH by lia.
      destruct (decide (i <= j < i + m)%nat), (decide (i <= j < i + S m)%nat);
        try reflexivity; lia.
Qed.

Lemma shift_length (l : list DeviceConfig) (ks : list nat) :
  length (fold_left (fun devs k => <[k := arr_get zeroDevice devs (S k)]> devs) ks l)
  = length l.
Proof.
  revert l. induction ks as [|k ks IH]; intros l; cbn; [reflexivity|].
  rewrite IH. apply length_insert.
Qed.

(** The entries after a removal: those before the removed one stay, those
    after it move one slot down. *)
Lemma device_removeDeviceConfig c a i (j : nat) :
  registry_ok c -> findDeviceConfig c a = Some i ->
  Z.of_nat j < deviceCount c - 1 ->
  device (removeDeviceConfig a c) j
  = if decide (j < i)%nat then device c j else device c (S j).
Proof.
  intros (Hc & Hl & _) Hfind Hj. unfold removeDeviceConfig. rewrite Hfind.
  apply findDeviceConfig_Some in Hfind as (Hi & _ & _).
  unfold MAX_DEVICES in Hc.
  unfold device at 1. cbn. unfold indices. rewrite Nat2Z.id.
  rewrite shift_lookup by lia.
  destruct (decide (i <= j < i + (Z.to_nat (deviceCount c - 1) - i))%nat),
           (decide (j < i)%nat); try reflexivity; lia.
Qed.

Lemma registry_ok_removeDeviceConfig c a :
  registry_ok c -> registry_ok (removeDeviceConfig a c).
Proof.
  intros Hok. pose proof Hok as (Hc & Hl & Hu). unfold MAX_DEVICES in Hc.
  destruct (findDeviceConfig c a) as [i|] eqn:Hfind.
  - pose proof (findDeviceConfig_Some c a i Hfind) as (Hi & _ & _).
    assert (Hcount : deviceCount (removeDeviceConfig a c) = deviceCount c - 1).
    { unfold removeDeviceConfig. rewrite Hfind. cbn. unfold u8.
      rewrite Z.mod_small; lia. }
    repeat split.
    + rewrite Hcount. lia.
    + rewrite Hcount. unfold MAX_DEVICES. lia.
    + unfold removeDeviceConfig. rewrite Hfind. cbn. now rewrite shift_length.
    + intros j k Hj Hk. rewrite Hcount in Hj, Hk.
      rewrite !(device_removeDeviceConfig c a i) by assumption.
      destruct (decide (j < i)%nat), (decide (k < i)%nat); intros Heq.
      * apply Hu; [lia | lia | exact Heq].
      * assert (j = S k) by (apply Hu; [lia | lia | exact Heq]). lia.
      * assert (S j = k) by (apply Hu; [lia | lia | exact Heq]). lia.
      * assert (S j = S k) by (apply Hu; [lia | lia | exact Heq]). lia.
  - unfold removeDeviceConfig. rewrite Hfind. exact Hok.
Qed.

Lemma registry_ok_same c c' :
  deviceCount c' = deviceCount c ->
  deviceConfigs c' = deviceConfigs c ->
  registry_ok c -> registry_ok c'.
Proof.
  unfold registry_ok, device. intros -> ->. auto.
Qed.

(** The device part of [updatePerformanceMetrics]. *)
Lemma registry_ok_record_device (success : bool) (t a : Z) c :
  registry_ok c ->
  registry_ok
    (if adaptiveMode c then
       let c := match findDeviceConfig c a with
                | None => addDeviceConfig a c
                | Some _ => c
                end in
       match findDeviceConfig c a with
       | Some i =>
           upd_device i (upd_config (upd_metrics (fun m =>
             if success then
               set_totalTransactionTime (u32 (totalTransactionTime m + t))
                 (set_successfulTransactions (u32 (successfulTransactions m + 1)) m)
             else set_failedTransactions (u32 (failedTransactions m + 1)) m))) c
       | None => c
       end
     else c).
Proof.
  intros Hok. destruct (adaptiveMode c); [|exact Hok]. cbn zeta.
  assert (Hreg : registry_ok (match findDeviceConfig c a with
                              | None => addDeviceConfig a c
                              | Some _ => c
                              end)).
  { destruct (findDeviceConfig c a) eqn:Hfind; [exact Hok|].
    now apply registry_ok_addDeviceConfig. }
  revert Hreg. generalize (match findDeviceConfig c a with
                           | None => addDeviceConfig a c
                           | Some _ => c
                           end).
  intros c' Hreg. destruct (findDeviceConfig c' a); [|exact Hreg].
  apply registry_ok_upd_device; [reflexivity | exact Hreg].
Qed.

Lemma registry_inv_setDeviceSpecificConfig a cs rt w :
  registry_inv w -> registry_inv (setDeviceSpecificConfig a cs rt w).
Proof.
  unfold registry_inv, setDeviceSpecificConfig. intros Hok.
  assert (Hreg : registry_ok
                   (ctl (match findDeviceConfig (ctl w) a with
                         | None => upd_ctl (addDeviceConfig a) w
                         | Some _ => w
                         end))).
  { destruct (findDeviceConfig (ctl w) a) eqn:Hfind; [exact Hok|].
    cbn. now apply registry_ok_addDeviceConfig. }
  cbn zeta. revert Hreg.
  generalize (match findDeviceConfig (ctl w) a with
              | None => upd_ctl (addDeviceConfig a) w
              | Some _ => w
              end).
  intros w' Hreg.
  destruct (findDeviceConfig (ctl w') a); [|exact Hreg].
  destruct (isStepValid _ && isStepValid _); [|exact Hreg].
  cbn. repeat (apply registry_ok_upd_device; [reflexivity|]). exact Hreg.
Qed.

Ltac registry_leaf :=
  split_pre;
  lazymatch goal with
  | |- registry_inv (upd_ctl (addDeviceConfig _) _) =>
      unfold registry_inv in *; cbn [ctl upd_ctl set_ctl];
      apply registry_ok_addDeviceConfig; [congruence | assumption]
  | |- registry_inv (upd_ctl (removeDeviceConfig _) _) =>
      unfold registry_inv in *; cbn [ctl upd_ctl set_ctl];
      apply registry_ok_removeDeviceConfig; assumption
  | |- registry_inv (setDeviceSpecificConfig _ _ _ _) =>
      apply registry_inv_setDeviceSpecificConfig; assumption
  | |- registry_inv (upd_ctl (fun c => if adaptiveMode c then _ else _) _) =>
      unfold registry_inv in *; cbn [ctl upd_ctl set_ctl];
      apply registry_ok_record_device; assumption
  | H : registry_inv ?w |- registry_inv _ =>
      unfold registry_inv in *;
      refine (registry_ok_same _ _ _ _ H);
      unfold_pure; cbn; repeat (case_match; cbn); reflexivity
  end.

Lemma run_registry_inv op : ensures registry_inv (run op) (fun _ => registry_inv).
Proof.
  destruct op; cbn [run]; unfold_run;
    repeat estep_with registry_inv registry_leaf.
Qed.

Lemma constructor_registry_ok : registry_ok (ctl constructor).
Proof.
  unfold registry_ok. split; [cbn; unfold MAX_DEVICES; lia|].
  split; [reflexivity|]. intros i j Hi. cbn in Hi. lia.
Qed.

Lemma reachable_registry_inv w : reachable w -> registry_ok (ctl w).
Proof.
  induction 1 as [|p op n w r n' w' _ IH Hrun].
  - exact constructor_registry_ok.
  - exact (run_registry_inv op p n w r n' w' IH Hrun).
Qed.

(** X2. In every reachable world the device registry is in shape: the
    count is between 0 and [MAX_DEVICES] = 16, and no two registered
    entries carry the same address, so [findDeviceConfig] finds the one
    entry of a registered address. *)
Theorem reachable_registry_ok w :
  reachable w ->
  0 <= deviceCount (ctl w) <= MAX_DEVICES
  /\ (forall i j : nat,
        Z.of_nat i < deviceCount (ctl w) -> Z.of_nat j < deviceCount (ctl w) ->
        address (device (ctl w) i) = address (device (ctl w) j) -> i = j)
  /\ (forall i : nat,
        Z.of_nat i < deviceCount (ctl w) ->
        findDeviceConfig (ctl w) (address (device (ctl w) i)) = Some i).
Proof.
  intros Hreach.
  pose proof (reachable_registry_inv w Hreach) as Hok.
  pose proof Hok as (Hc & _ & Hu).
  split; [exact Hc|]. split; [exact Hu|].
  intros i Hi. now apply findDeviceConfig_registered.
Qed.

Lemma reachable_registry_ok_witness :
  deviceCount (ctl two_devices) = 2
  /\ address (device (ctl two_devices) 1) = 72
  /\ 0 <= deviceCount (ctl two_devices) <= MAX_DEVICES
  /\ (forall i j : nat,
        Z.of_nat i < deviceCount (ctl two_devices) ->
        Z.of_nat j < deviceCount (ctl two_devices) ->
        address (device (ctl two_devices) i)
        = address (device (ctl two_devices) j) -> i = j)
  /\ (forall i : nat,
        Z.of_nat i < deviceCount (ctl two_devices) ->
        findDeviceConfig (ctl two_devices)
          (address (device (ctl two_devices) i)) = Some i).
Proof.
  split; [vm_compute; reflexivity|]. split; [vm_compute; reflexivity|].
  apply (reachable_registry_ok two_devices).
  apply world_after_reachable.
Defined.

(** X3. In every reachable world the adaptation rate is between 1 and 10,
    whatever was passed to [setAdaptationRate], and the error ring has its
    10 slots with the write index among them, so that the write of
    [updateErrorHistory] stays inside the array. *)
Theorem tuning_parameters_in_range w :
  reachable w ->
  1 <= adaptationRate (ctl w) <= 10
  /\ length (errorHistory (ctl w)) = 10%nat
  /\ 0 <= errorHistoryIndex (ctl w) < 10.
Proof. exact (reachable_tuning_ok w). Qed.

Lemma tuning_parameters_in_range_witness :
  let w := world_after (tape []) [OpSetAdaptationRate 200] in
  adaptationRate (ctl w) = 10
  /\ 1 <= adaptationRate (ctl w) <= 10
  /\ length (errorHistory (ctl w)) = 10%nat
  /\ 0 <= errorHistoryIndex (ctl w) < 10.
Proof.
  cbn zeta. split; [vm_compute; reflexivity|].
  apply (tuning_parameters_in_range
           (world_after (tape []) [OpSetAdaptationRate 200])).
  apply world_after_reachable.
Defined.

(** ** Steps and bus settings stay within the tables *)

Ltac bool_facts :=
  repeat match goal with
         | H : _ && _ = true |- _ => apply andb_true_iff in H as [? ?]
         | H : _ || _ = false |- _ => apply orb_false_iff in H as [? ?]
         | H : negb _ = false |- _ => apply negb_false_iff in H
         | H : negb _ = true |- _ => apply negb_true_iff in H
         | H : (_ <? _) = true |- _ => apply Z.ltb_lt in H
         | H : (_ <? _) = false |- _ => apply Z.ltb_ge in H
         | H : (_ <=? _) = true |- _ => apply Z.leb_le in H
         | H : (_ <=? _) = false |- _ => apply Z.leb_gt in H
         | H : (_ =? _) = true |- _ => apply Z.eqb_eq in H
         | H : (_ =? _) = false |- _ => apply Z.eqb_neq in H
         end.

Lemma u16_small x : 0 <= x < 65536 -> u16 x = x.
Proof. intros H. unfold u16. now apply Z.mod_small. Qed.

Lemma u8_range x : 0 <= u8 x < 256.
Proof. unfold u8. apply Z.mod_pos_bound. lia. Qed.

Lemma calculateStepFromValue_range r v :
  0 <= calculateStepFromValue r v < DYNAMIC_RANGE_STEPS.
Proof.
  unfold calculateStepFromValue, DYNAMIC_RANGE_STEPS.
  destruct (v <=? min_value r); [lia|].
  destruct (max_value r <=? v); [lia|].
  change (u8 (20 - 1)) with 19.
  destruct (Z.ltb_spec (F32.to_u8 (F32.div (F32.of_Z (u32 (v - min_value r)))
                                           (step_size r))) 19) as [Hlt|Hge];
    [|lia].
  unfold F32.to_u8 in *.
  pose proof (u8_range (F32.trunc (F32.div (F32.of_Z (u32 (v - min_value r)))
                                           (step_size r)))).
  lia.
Qed.

Lemma values_in_range_sound r r0 s :
  same_definition r r0 ->
  values_in_range r0 = true ->
  0 <= s < DYNAMIC_RANGE_STEPS ->
  in_range r0 (calculateValueFromStep r s).
Proof.
  intros Hsame Hok Hs. rewrite (calculateValueFromStep_same r r0 s Hsame).
  unfold values_in_range in Hok. rewrite forallb_forall in Hok.
  specialize (Hok s (all_steps_complete s ltac:(lia) ltac:(lia))).
  apply andb_prop in Hok as [Hlo Hhi]. apply Z.leb_le in Hlo, Hhi.
  split; assumption.
Qed.

Lemma as_constructed_same w :
  as_constructed w ->
  same_definition (clockSpeedRange w) (clockSpeedRange constructor)
  /\ same_definition (riseTimeRange w) (riseTimeRange constructor).
Proof.
  unfold as_constructed, range_definitions, same_definition.
  intros H. injection H as -> -> -> -> -> ->. repeat split.
Qed.

Lemma clock_value_in_range w s :
  as_constructed w -> 0 <= s < DYNAMIC_RANGE_STEPS ->
  in_range clockSpeedRange_static (calculateValueFromStep (clockSpeedRange w) s).
Proof.
  intros Hw Hs. apply as_constructed_same in Hw as [Hc _].
  exact (values_in_range_sound _ _ s Hc ltac:(vm_compute; reflexivity) Hs).
Qed.

Lemma rise_value_in_range w s :
  as_constructed w -> 0 <= s < DYNAMIC_RANGE_STEPS ->
  in_range riseTimeRange_static (calculateValueFromStep (riseTimeRange w) s).
Proof.
  intros Hw Hs. apply as_constructed_same in Hw as [_ Hr].
  exact (values_in_range_sound _ _ s Hr ltac:(vm_compute; reflexivity) Hs).
Qed.

Lemma ranges_ok_updateClockSpeedRange s w :
  0 <= s -> ranges_ok w -> ranges_ok (updateClockSpeedRange s w).
Proof.
  intros Hs (Hdef & Hc & Hr). unfold ranges_ok, as_constructed.
  rewrite range_definitions_updateClockSpeedRange.
  split; [exact Hdef|]. split; [|exact Hr].
  unfold updateClockSpeedRange. cbn [clockSpeedRange set_clockSpeedRange].
  rewrite updateDynamicRange_value.
  destruct (Z.ltb_spec s DYNAMIC_RANGE_STEPS); [|exact Hc].
  apply clock_value_in_range; [exact Hdef | lia].
Qed.

Lemma ranges_ok_updateRiseTimeRange s w :
  0 <= s -> ranges_ok w -> ranges_ok (updateRiseTimeRange s w).
Proof.
  intros Hs (Hdef & Hc & Hr). unfold ranges_ok, as_constructed.
  rewrite range_definitions_updateRiseTimeRange.
  split; [exact Hdef|]. split; [exact Hc|].
  unfold updateRiseTimeRange. cbn [riseTimeRange set_riseTimeRange].
  rewrite updateDynamicRange_value.
  destruct (Z.ltb_spec s DYNAMIC_RANGE_STEPS); [|exact Hr].
  apply rise_value_in_range; [exact Hdef | lia].
Qed.

Lemma safe_updateClockSpeedRange s w :
  0 <= s -> safe w -> safe (updateClockSpeedRange s w).
Proof.
  intros Hs (Hr & Hc & Hw). split; [|split; assumption].
  now apply ranges_ok_updateClockSpeedRange.
Qed.

Lemma safe_updateRiseTimeRange s w :
  0 <= s -> safe w -> safe (updateRiseTimeRange s w).
Proof.
  intros Hs (Hr & Hc & Hw). split; [|split; assumption].
  now apply ranges_ok_updateRiseTimeRange.
Qed.

(** An update of the controller that leaves it with good configurations. *)
Lemma safe_upd_ctl f w :
  ctl_ok (f (ctl w)) -> safe w -> safe (upd_ctl f w).
Proof.
  intros Hf (Hr & _ & Hw). split; [exact Hr|]. split; [exact Hf | exact Hw].
Qed.

Lemma cfg_ok_metrics m cfg : cfg_ok cfg -> cfg_ok (set_metrics m cfg).
Proof. exact id. Qed.

Lemma in_range_rise_u16 v :
  in_range riseTimeRange_static v -> in_range riseTimeRange_static (u16 v).
Proof.
  unfold in_range. cbn. intros H. rewrite u16_small; lia.
Qed.

Lemma safe_applyConfiguration w : safe w -> safe (applyConfiguration w).
Proof.
  intros (Hr & Hc & Hw). split; [exact Hr|]. split; [exact Hc|].
  unfold applyConfiguration. cbn [wireClock set_wireClock].
  apply Forall_cons. split; [|exact Hw]. apply Hc.
Qed.

Lemma safe_loadClockSpeed w : safe w -> safe (loadClockSpeed w).
Proof.
  intros Hs. apply safe_upd_ctl; [|exact Hs].
  destruct Hs as ((_ & Hv & _) & (Hc & Hb & Hd) & _).
  split; [|split; assumption].
  destruct Hc as (? & ? & ? & ?).
  split; [assumption|]. split; [assumption|]. split; [exact Hv | assumption].
Qed.

Lemma safe_loadRiseTime w : safe w -> safe (loadRiseTime w).
Proof.
  intros Hs. apply safe_upd_ctl; [|exact Hs].
  destruct Hs as ((_ & _ & Hv) & (Hc & Hb & Hd) & _).
  split; [|split; assumption].
  destruct Hc as (? & ? & ? & ?).
  split; [assumption|]. split; [assumption|]. split; [assumption|].
  apply in_range_rise_u16, Hv.
Qed.

Lemma safe_restoreBestConfiguration w :
  safe w -> safe (restoreBestConfiguration w).
Proof.
  intros Hs. unfold restoreBestConfiguration.
  apply safe_applyConfiguration, safe_upd_ctl; [|exact Hs].
  destruct Hs as (_ & (Hc & Hb & Hd) & _).
  split; [exact Hb|]. split; [exact Hb | exact Hd].
Qed.

(** Setting both steps of the current configuration. *)
Lemma safe_steps cs rs w :
  0 <= cs < DYNAMIC_RANGE_STEPS -> 0 <= rs < DYNAMIC_RANGE_STEPS ->
  safe w ->
  safe (upd_ctl (upd_currentConfig (fun cfg =>
          set_riseTimeStep rs (set_clockSpeedStep cs cfg))) w).
Proof.
  intros Hcs Hrs Hs. apply safe_upd_ctl; [|exact Hs].
  destruct Hs as (_ & (Hc & Hb & Hd) & _).
  split; [|split; assumption].
  destruct Hc as (? & ? & ? & ?).
  split; [exact Hcs|]. split; [exact Hrs|]. split; assumption.
Qed.

Lemma dev_ok_zeroDevice : dev_ok zeroDevice.
Proof. intros H. discriminate H. Qed.

Lemma dev_ok_device c i : Forall dev_ok (deviceConfigs c) -> dev_ok (device c i).
Proof.
  intros Hd. unfold device, arr_get.
  destruct (deviceConfigs c !! i) as [d|] eqn:Hi; cbn.
  - exact (Forall_lookup_1 _ _ _ _ Hd Hi).
  - exact dev_ok_zeroDevice.
Qed.

Lemma devs_ok_upd_device i g c :
  (forall d, dev_ok d -> dev_ok (g d)) ->
  Forall dev_ok (deviceConfigs c) ->
  Forall dev_ok (deviceConfigs (upd_device i g c)).
Proof.
  intros Hg Hd. unfold upd_device. cbn [deviceConfigs set_deviceConfigs].
  destruct (decide (i < length (deviceConfigs c))%nat) as [Hlt|Hge].
  - apply Forall_insert; [exact Hd|]. apply Hg. now apply dev_ok_device.
  - rewrite list_insert_ge by lia. exact Hd.
Qed.

Lemma ctl_ok_upd_device i g c :
  (forall d, dev_ok d -> dev_ok (g d)) ->
  ctl_ok c -> ctl_ok (upd_device i g c).
Proof.
  intros Hg (Hc & Hb & Hd). split; [exact Hc|]. split; [exact Hb|].
  now apply devs_ok_upd_device.
Qed.

Lemma ctl_ok_addDeviceConfig a c : ctl_ok c -> ctl_ok (addDeviceConfig a c).
Proof.
  intros (Hc & Hb & Hd). unfold addDeviceConfig.
  destruct (deviceCount c <? MAX_DEVICES); [|exact (conj Hc (conj Hb Hd))].
  split; [exact Hc|]. split; [exact Hb|].
  cbn [deviceConfigs set_deviceConfigs set_deviceCount].
  destruct (decide (Z.to_nat (deviceCount c) < length (deviceConfigs c))%nat).
  - apply Forall_insert; [exact Hd|]. intros H. discriminate H.
  - rewrite list_insert_ge by lia. exact Hd.
Qed.

Lemma devs_ok_shift (l : list nat) devs :
  Forall dev_ok devs ->
  Forall dev_ok
    (fold_left (fun devs j => <[j := arr_get zeroDevice devs (S j)]> devs) l devs).
Proof.
  revert devs. induction l as [|j l IH]; intros devs Hd; cbn; [exact Hd|].
  apply IH.
  destruct (decide (j < length devs)%nat).
  - apply Forall_insert; [exact Hd|]. unfold arr_get.
    destruct (devs !! S j) as [d|] eqn:Hj; cbn.
    + exact (Forall_lookup_1 _ _ _ _ Hd Hj).
    + exact dev_ok_zeroDevice.
  - rewrite list_insert_ge by lia. exact Hd.
Qed.

Lemma ctl_ok_removeDeviceConfig a c : ctl_ok c -> ctl_ok (removeDeviceConfig a c).
Proof.
  intros (Hc & Hb & Hd). unfold removeDeviceConfig.
  destruct (findDeviceConfig c a); [|exact (conj Hc (conj Hb Hd))].
  split; [exact Hc|]. split; [exact Hb|].
  cbn [deviceConfigs set_deviceConfigs set_deviceCount].
  now apply devs_ok_shift.
Qed.

Lemma dev_ok_metrics f d : dev_ok d -> dev_ok (upd_config (upd_metrics f) d).
Proof. exact id. Qed.

Lemma safe_current w : safe w -> cfg_ok (currentConfig (ctl w)).
Proof. intros (_ & (Hc & _) & _). exact Hc. Qed.

Lemma safe_clockSpeedStep cs w :
  0 <= cs < DYNAMIC_RANGE_STEPS -> safe w ->
  safe (upd_ctl (upd_currentConfig (set_clockSpeedStep cs)) w).
Proof.
  intros Hcs Hs. apply safe_upd_ctl; [|exact Hs].
  destruct Hs as (_ & (Hc & Hb & Hd) & _). split; [|split; assumption].
  destruct Hc as (? & ? & ? & ?).
  split; [exact Hcs|]. split; [assumption|]. split; assumption.
Qed.

Lemma safe_riseTimeStep rs w :
  0 <= rs < DYNAMIC_RANGE_STEPS -> safe w ->
  safe (upd_ctl (upd_currentConfig (set_riseTimeStep rs)) w).
Proof.
  intros Hrs Hs. apply safe_upd_ctl; [|exact Hs].
  destruct Hs as (_ & (Hc & Hb & Hd) & _). split; [|split; assumption].
  destruct Hc as (? & ? & ? & ?).
  split; [assumption|]. split; [exact Hrs|]. split; assumption.
Qed.

Lemma safe_setClockSpeed v w : safe w -> safe (setClockSpeed v w).
Proof.
  intros Hs. unfold setClockSpeed.
  pose proof (calculateStepFromValue_range (clockSpeedRange w) v) as Hstep.
  destruct (isStepValid _); [|exact Hs].
  apply safe_applyConfiguration, safe_loadClockSpeed,
    safe_updateClockSpeedRange; [lia|].
  now apply safe_clockSpeedStep.
Qed.

Lemma safe_setRiseTime v w : safe w -> safe (setRiseTime v w).
Proof.
  intros Hs. unfold setRiseTime.
  pose proof (calculateStepFromValue_range (riseTimeRange w) v) as Hstep.
  destruct (isStepValid _); [|exact Hs].
  apply safe_applyConfiguration, safe_loadRiseTime,
    safe_updateRiseTimeRange; [lia|].
  now apply safe_riseTimeStep.
Qed.

Lemma safe_applyDeviceConfiguration a w :
  safe w -> safe (applyDeviceConfiguration a w).
Proof.
  intros Hs. unfold applyDeviceConfiguration.
  destruct (findDeviceConfig (ctl w) a) as [i|]; [|exact Hs].
  destruct (hasCustomConfig (device (ctl w) i)) eqn:Hcustom; [|exact Hs].
  cbn [andb]. destruct (_ || _); [|exact Hs].
  apply safe_applyConfiguration, safe_upd_ctl; [|exact Hs].
  destruct Hs as (_ & (Hc & Hb & Hd) & _). split; [|split; assumption].
  exact (dev_ok_device (ctl w) i Hd Hcustom).
Qed.

Lemma safe_lower_clock w :
  safe w ->
  (0 <? clockSpeedStep (currentConfig (ctl w))) = true ->
  safe (let w := upd_ctl (upd_currentConfig (fun cfg =>
                   set_clockSpeedStep (u8 (clockSpeedStep cfg - 1)) cfg)) w in
        loadClockSpeed
          (updateClockSpeedRange (clockSpeedStep (currentConfig (ctl w))) w)).
Proof.
  intros Hs Hpos. apply Z.ltb_lt in Hpos.
  pose proof (safe_current w Hs) as (Hstep & _).
  unfold DYNAMIC_RANGE_STEPS in Hstep.
  cbn zeta. apply safe_loadClockSpeed.
  assert (Hnew : u8 (clockSpeedStep (currentConfig (ctl w)) - 1)
                 = clockSpeedStep (currentConfig (ctl w)) - 1)
    by (apply u8_small; lia).
  apply safe_updateClockSpeedRange.
  - cbn. rewrite Hnew. lia.
  - apply (safe_clockSpeedStep (u8 (clockSpeedStep (currentConfig (ctl w)) - 1)));
      [|exact Hs].
    rewrite Hnew. unfold DYNAMIC_RANGE_STEPS. lia.
Qed.

Lemma safe_raise_rise w :
  safe w ->
  (riseTimeStep (currentConfig (ctl w)) <? DYNAMIC_RANGE_STEPS - 1) = true ->
  safe (let w := upd_ctl (upd_currentConfig (fun cfg =>
                   set_riseTimeStep (u8 (riseTimeStep cfg + 1)) cfg)) w in
        loadRiseTime
          (updateRiseTimeRange (riseTimeStep (currentConfig (ctl w))) w)).
Proof.
  intros Hs Hlt. apply Z.ltb_lt in Hlt. unfold DYNAMIC_RANGE_STEPS in Hlt.
  pose proof (safe_current w Hs) as (_ & Hstep & _).
  unfold DYNAMIC_RANGE_STEPS in Hstep.
  cbn zeta. apply safe_loadRiseTime.
  assert (Hnew : u8 (riseTimeStep (currentConfig (ctl w)) + 1)
                 = riseTimeStep (currentConfig (ctl w)) + 1)
    by (apply u8_small; lia).
  apply safe_updateRiseTimeRange.
  - cbn. rewrite Hnew. lia.
  - apply (safe_riseTimeStep (u8 (riseTimeStep (currentConfig (ctl w)) + 1)));
      [|exact Hs].
    rewrite Hnew. unfold DYNAMIC_RANGE_STEPS. lia.
Qed.

Lemma safe_set w f :
  currentConfig (f (ctl w)) = currentConfig (ctl w) ->
  bestConfig (f (ctl w)) = bestConfig (ctl w) ->
  deviceConfigs (f (ctl w)) = deviceConfigs (ctl w) ->
  safe w -> safe (upd_ctl f w).
Proof.
  intros Hc Hb Hd Hs. apply safe_upd_ctl; [|exact Hs].
  unfold ctl_ok. rewrite Hc, Hb, Hd. apply Hs.
Qed.

Lemma safe_adaptiveRetreat w : safe w -> safe (adaptiveRetreat w).
Proof.
  intros Hs. unfold adaptiveRetreat.
  assert (H1 : safe
    (if 0 <? clockSpeedStep (currentConfig (ctl w)) then
       let w := upd_ctl (upd_currentConfig (fun cfg =>
                  set_clockSpeedStep (u8 (clockSpeedStep cfg - 1)) cfg)) w in
       loadClockSpeed
         (updateClockSpeedRange (clockSpeedStep (currentConfig (ctl w))) w)
     else w)).
  { destruct (0 <? clockSpeedStep (currentConfig (ctl w))) eqn:Hpos; [|exact Hs].
    now apply safe_lower_clock. }
  revert H1. cbn zeta.
  generalize (if 0 <? clockSpeedStep (currentConfig (ctl w)) then
       loadClockSpeed
         (updateClockSpeedRange
            (clockSpeedStep (currentConfig (ctl (upd_ctl (upd_currentConfig (fun cfg =>
               set_clockSpeedStep (u8 (clockSpeedStep cfg - 1)) cfg)) w))))
            (upd_ctl (upd_currentConfig (fun cfg =>
               set_clockSpeedStep (u8 (clockSpeedStep cfg - 1)) cfg)) w))
     else w).
  intros w1 H1.
  apply safe_set; try reflexivity. apply safe_applyConfiguration.
  destruct (riseTimeStep (currentConfig (ctl w1)) <? DYNAMIC_RANGE_STEPS - 1)
    eqn:Hlt; [|exact H1].
  now apply safe_raise_rise.
Qed.

Lemma safe_incrementalRecovery w : safe w -> safe (incrementalRecovery w).
Proof.
  intros Hs. unfold incrementalRecovery. cbn zeta.
  apply safe_set; try reflexivity.
  destruct (0 <? clockSpeedStep (currentConfig (ctl w))) eqn:Hpos; [|exact Hs].
  apply safe_applyConfiguration.
  exact (safe_lower_clock w Hs Hpos).
Qed.

Lemma upd_device_twice i g1 g2 c :
  upd_device i g2 (upd_device i g1 c) = upd_device i (fun d => g2 (g1 d)) c.
Proof.
  unfold upd_device.
  destruct (Nat.lt_ge_cases i (length (deviceConfigs c))) as [Hi|Hi].
  - rewrite device_set_insert by assumption.
    destruct (decide (i = i)); [|congruence].
    cbn. now rewrite list_insert_insert_eq.
  - cbn. rewrite !(list_insert_ge (deviceConfigs c) i) by lia. reflexivity.
Qed.

Lemma safe_setDeviceSpecificConfig a cs rt w :
  safe w -> safe (setDeviceSpecificConfig a cs rt w).
Proof.
  intros Hs. unfold setDeviceSpecificConfig.
  assert (H1 : safe (match findDeviceConfig (ctl w) a with
                     | None => upd_ctl (addDeviceConfig a) w
                     | Some _ => w
                     end)).
  { destruct (findDeviceConfig (ctl w) a); [exact Hs|].
    apply safe_upd_ctl; [|exact Hs]. apply ctl_ok_addDeviceConfig, Hs. }
  cbn zeta. revert H1.
  generalize (match findDeviceConfig (ctl w) a with
              | None => upd_ctl (addDeviceConfig a) w
              | Some _ => w
              end).
  clear w Hs. intros w Hs.
  destruct (findDeviceConfig (ctl w) a) as [i|]; [|exact Hs].
  pose proof (calculateStepFromValue_range (clockSpeedRange w) cs) as Hcs.
  pose proof (calculateStepFromValue_range (riseTimeRange w) rt) as Hrt.
  destruct (isStepValid _ && isStepValid _); [|exact Hs].
  set (clockStep := calculateStepFromValue (clockSpeedRange w) cs) in *.
  set (riseStep := calculateStepFromValue (riseTimeRange w) rt) in *.
  assert (Hr : ranges_ok (updateRiseTimeRange riseStep
                            (updateClockSpeedRange clockStep w))).
  { apply ranges_ok_updateRiseTimeRange; [lia|].
    apply ranges_ok_updateClockSpeedRange; [lia|]. apply Hs. }
  destruct Hs as (_ & Hc & Hw).
  split; [exact Hr|]. split; [|exact Hw].
  destruct Hr as (_ & Hcv & Hrv).
  cbn [ctl upd_ctl set_ctl updateRiseTimeRange updateClockSpeedRange
       set_riseTimeRange set_clockSpeedRange clockSpeedRange riseTimeRange]
    in *.
  rewrite !upd_device_twice.
  apply ctl_ok_upd_device; [|exact Hc].
  intros d _ _. cbn.
  split; [exact Hcs|]. split; [exact Hrt|]. split; [exact Hcv|].
  apply in_range_rise_u16, Hrv.
Qed.

(** The assignment of the configuration under test in [testConfiguration]. *)
Lemma safe_probe cs rs w :
  0 <= cs < DYNAMIC_RANGE_STEPS -> 0 <= rs < DYNAMIC_RANGE_STEPS ->
  safe w ->
  safe (upd_ctl (upd_currentConfig (fun cfg =>
          set_riseTime (u16 (calculateValueFromStep (riseTimeRange w) rs))
            (set_clockSpeed (calculateValueFromStep (clockSpeedRange w) cs)
               (set_riseTimeStep rs (set_clockSpeedStep cs cfg))))) w).
Proof.
  intros Hcs Hrs Hs. apply safe_upd_ctl; [|exact Hs].
  destruct Hs as ((Hdef & _) & (Hc & Hb & Hd) & _).
  split; [|split; assumption].
  split; [exact Hcs|]. split; [exact Hrs|].
  split; [now apply clock_value_in_range|].
  apply in_range_rise_u16. now apply rise_value_in_range.
Qed.

(** The device part of [updatePerformanceMetrics]. *)
Lemma ctl_ok_record_device (success : bool) (t a : Z) c :
  ctl_ok c ->
  ctl_ok
    (if adaptiveMode c then
       let c := match findDeviceConfig c a with
                | None => addDeviceConfig a c
                | Some _ => c
                end in
       match findDeviceConfig c a with
       | Some i =>
           upd_device i (upd_config (upd_metrics (fun m =>
             if success then
               set_totalTransactionTime (u32 (totalTransactionTime m + t))
                 (set_successfulTransactions (u32 (successfulTransactions m + 1)) m)
             else set_failedTransactions (u32 (failedTransactions m + 1)) m))) c
       | None => c
       end
     else c).
Proof.
  intros Hok. destruct (adaptiveMode c); [|exact Hok]. cbn zeta.
  assert (Hreg : ctl_ok (match findDeviceConfig c a with
                         | None => addDeviceConfig a c
                         | Some _ => c
                         end)).
  { destruct (findDeviceConfig c a); [exact Hok|].
    now apply ctl_ok_addDeviceConfig. }
  revert Hreg. generalize (match findDeviceConfig c a with
                           | None => addDeviceConfig a c
                           | Some _ => c
                           end).
  intros c' Hreg. destruct (findDeviceConfig c' a); [|exact Hreg].
  apply ctl_ok_upd_device; [|exact Hreg]. intros d Hd. exact Hd.
Qed.

(** What the controllers read so far say about their steps. *)
Ltac read_facts :=
  repeat match goal with
         | H : exists w0, _ /\ ctl w0 = _ |- _ =>
             let w0 := fresh "w0" in
             let Hp := fresh "Hp" in
             let He := fresh "He" in
             destruct H as (w0 & Hp & He); cbn beta in Hp; subst
         end;
  split_pre;
  repeat match goal with
         | H : safe ?w |- _ =>
             lazymatch goal with
             | _ : 0 <= clockSpeedStep (currentConfig (ctl w)) < _ |- _ => fail
             | _ => pose proof (safe_current w H) as (? & ? & ? & ?)
             end
         end.

Ltac step_arith :=
  read_facts;
  unfold isStepValid in *; unfold DYNAMIC_RANGE_STEPS in *;
  try change (20 / 2) with 10;
  bool_facts;
  repeat (case_match; bool_facts);
  repeat match goal with
         | |- context [u8 ?x] =>
             first [ rewrite (u8_small x) by lia
                   | pose proof (u8_range x); remember (u8 x) ]
         end;
  lia.

Ltac safe_leaf :=
  idtac;
  lazymatch goal with
  | |- safe (applyConfiguration _) =>
      apply safe_applyConfiguration; from_pre
  | |- safe (loadClockSpeed _) => apply safe_loadClockSpeed; from_pre
  | |- safe (loadRiseTime _) => apply safe_loadRiseTime; from_pre
  | |- safe (restoreBestConfiguration _) =>
      apply safe_restoreBestConfiguration; from_pre
  | |- safe (applyDeviceConfiguration _ _) =>
      apply safe_applyDeviceConfiguration; from_pre
  | |- safe (setDeviceSpecificConfig _ _ _ _) =>
      apply safe_setDeviceSpecificConfig; from_pre
  | |- safe (setClockSpeed _ _) => apply safe_setClockSpeed; from_pre
  | |- safe (setRiseTime _ _) => apply safe_setRiseTime; from_pre
  | |- safe (adaptiveRetreat _) => apply safe_adaptiveRetreat; from_pre
  | |- safe (incrementalRecovery _) => apply safe_incrementalRecovery; from_pre
  | |- safe (updateClockSpeedRange _ _) =>
      apply safe_updateClockSpeedRange; [step_arith | from_pre]
  | |- safe (updateRiseTimeRange _ _) =>
      apply safe_updateRiseTimeRange; [step_arith | from_pre]
  | |- safe (upd_ctl (upd_currentConfig (fun cfg =>
               set_riseTimeStep _ (set_clockSpeedStep _ cfg))) _) =>
      apply safe_steps; [step_arith | step_arith | from_pre]
  | |- safe (upd_ctl (upd_currentConfig (fun cfg =>
               set_riseTime _ (set_clockSpeed _ (set_riseTimeStep _
                 (set_clockSpeedStep _ cfg))))) _) =>
      apply safe_probe; [step_arith | step_arith | from_pre]
  | |- safe (upd_ctl (addDeviceConfig _) _) =>
      apply safe_upd_ctl; [apply ctl_ok_addDeviceConfig | ]; from_pre_safe
  | |- safe (upd_ctl (removeDeviceConfig _) _) =>
      apply safe_upd_ctl; [apply ctl_ok_removeDeviceConfig | ]; from_pre_safe
  | |- safe (upd_ctl (fun c => if adaptiveMode c then _ else _) _) =>
      apply safe_upd_ctl; [apply ctl_ok_record_device | ]; from_pre_safe
  | |- safe (upd_ctl (set_currentConfig (currentConfig _)) ?w) =>
      apply safe_upd_ctl; [ | from_pre];
      read_facts;
      match goal with
      | H : safe w |- _ => destruct H as (_ & (_ & ? & ?) & _)
      end;
      split; [ | split; assumption];
      change (cfg_ok (currentConfig (set_currentConfig ?v _))) with (cfg_ok v);
      match goal with
      | H : safe ?w0 |- cfg_ok (currentConfig (ctl ?w0)) =>
          exact (safe_current w0 H)
      end
  | |- safe (upd_ctl _ ?w) =>
      apply safe_upd_ctl; [ | from_pre];
      split_pre;
      match goal with
      | H : safe w |- _ => destruct H as (_ & (? & ? & ?) & _)
      end;
      unfold enableLearning; cbv beta zeta; repeat case_match;
      (split; [ | split]); assumption
  end
with from_pre_safe :=
  split_pre;
  match goal with
  | H : safe ?w |- ctl_ok (ctl ?w) => apply H
  | H : safe ?w |- safe ?w => exact H
  end.


(** A fact that does not depend on the world is carried along. *)
Lemma ensures_pure {A} (fact : Prop) (P : World -> Prop) (m : M A)
    (Q : A -> World -> Prop) :
  ensures P m Q ->
  ensures (fun w => P w /\ fact) m (fun a w => Q a w /\ fact).
Proof.
  intros Hm p n w a n' w' [Hw Hf] Hrun. split; [|exact Hf].
  exact (Hm p n w a n' w' Hw Hrun).
Qed.

Lemma testConfiguration_safe cs rs :
  0 <= cs -> 0 <= rs ->
  ensures safe (testConfiguration cs rs) (fun _ => safe).
Proof.
  intros Hcs Hrs. unfold testConfiguration.
  repeat estep_with safe safe_leaf.
Qed.

Lemma scanBus_safe : ensures safe scanBus (fun _ => safe).
Proof. unfold scanBus. repeat estep_with safe safe_leaf. Qed.

Lemma scanAndOptimize_safe : ensures safe scanAndOptimize (fun _ => safe).
Proof.
  unfold scanAndOptimize.
  apply ensures_bind with (Q := fun _ => safe); [exact scanBus_safe|].
  intros devicesFound. destruct (devicesFound =? 0).
  { apply ensures_ret. auto. }
  apply ensures_getc_bind. intros c (w0 & Hw0 & Hc).
  assert (Hcur : cfg_ok (currentConfig c))
    by (rewrite <- Hc; exact (safe_current w0 Hw0)).
  set (I := fun (st : I2CConfig * float) (w : World) =>
              safe w /\ cfg_ok (fst st)).
  apply ensures_bind with (Q := I).
  - apply ensures_weaken with (P' := I (currentConfig c, F32.zero)).
    + apply (ensures_forEach I). intros st clockStep.
      apply (ensures_forEach I). clear st. intros st riseStep. unfold I.
      apply ensures_bind with (Q := fun _ w => safe w /\ cfg_ok (fst st)).
      * apply ensures_pure, testConfiguration_safe; lia.
      * intros passed. destruct passed; [|apply ensures_ret; auto].
        apply ensures_getc_bind. intros c1 (w1 & [Hw1 Hst] & Hc1).
        apply ensures_bind
          with (Q := fun _ w => (safe w /\ cfg_ok (fst st)) /\ ctl w = c1).
        { apply ensures_liftOption. auto. }
        intros score. destruct (F32.ltb (snd st) score);
          apply ensures_ret; intros w [[Hw _] Hcw]; (split; [exact Hw|]).
        -- cbn. rewrite <- Hc1. exact (safe_current w1 Hw1).
        -- exact Hst.
    + intros w [Hw _]. split; [exact Hw | exact Hcur].
  - intros best. unfold I.
    apply ensures_bind with (Q := fun _ => safe).
    { apply ensures_modify. intros w [Hw Hbest].
      apply safe_upd_ctl; [|exact Hw].
      destruct Hw as (_ & (_ & Hb & Hd) & _).
      split; [exact Hbest|]. split; [exact Hb | exact Hd]. }
    intros _. repeat estep_with safe safe_leaf.
Qed.

Lemma run_safe op : ensures safe (run op) (fun _ => safe).
Proof.
  destruct op; cbn [run]; try exact scanAndOptimize_safe; unfold_run;
    repeat estep_with safe safe_leaf.
Qed.

Lemma constructor_safe : safe constructor.
Proof.
  assert (Hcur : currentConfig (ctl constructor)
                 = mkConfig 0 7 100000 125 zeroMetrics true)
    by (vm_compute; reflexivity).
  assert (Hbest : bestConfig (ctl constructor)
                  = mkConfig 0 7 100000 125 zeroMetrics true)
    by (vm_compute; reflexivity).
  assert (Hok : cfg_ok (mkConfig 0 7 100000 125 zeroMetrics true)).
  { unfold cfg_ok, in_range, DYNAMIC_RANGE_STEPS. cbn. lia. }
  split; [|split].
  - split; [reflexivity|].
    assert (Hc : current_value (clockSpeedRange constructor) = 100000)
      by (vm_compute; reflexivity).
    assert (Hr : current_value (riseTimeRange constructor) = 125)
      by (vm_compute; reflexivity).
    rewrite Hc, Hr. unfold in_range. cbn. lia.
  - unfold ctl_ok. rewrite Hcur, Hbest. split; [exact Hok|].
    split; [exact Hok|].
    change (deviceConfigs (ctl constructor)) with (replicate 16 zeroDevice).
    apply Forall_replicate, dev_ok_zeroDevice.
  - change (wireClock constructor) with (@nil Z). constructor.
Qed.

Lemma reachable_safe w : reachable w -> safe w.
Proof.
  induction 1 as [|p op n w r n' w' _ IH Hrun].
  - exact constructor_safe.
  - exact (run_safe op p n w r n' w' IH Hrun).
Qed.

(** X4. In every reachable world the current configuration, the best
    configuration and every custom device configuration index both tables
    (steps 0 to 19), with a clock speed within the limits of
    [clockSpeedRange] (75 kHz to 3.5 MHz) and a rise time within those of
    [riseTimeRange] (40 to 250 ns); and every clock the controller has
    pushed through [Wire.setClock] since construction lies within the clock
    limits. No argument of [setClockSpeed], [setRiseTime],
    [setDeviceSpecificConfig] or [testConfiguration], and no answer of the
    bus, drives the hardware out of range. *)
Theorem bus_settings_within_limits w :
  reachable w ->
  cfg_ok (currentConfig (ctl w))
  /\ cfg_ok (bestConfig (ctl w))
  /\ (forall i, hasCustomConfig (device (ctl w) i) = true ->
                cfg_ok (config (device (ctl w) i)))
  /\ Forall (fun v => 75000 <= v <= 3500000) (wireClock w).
Proof.
  intros Hreach. apply reachable_safe in Hreach as (_ & (Hc & Hb & Hd) & Hw).
  split; [exact Hc|]. split; [exact Hb|]. split; [|exact Hw].
  intros i. exact (dev_ok_device (ctl w) i Hd).
Qed.

Lemma bus_settings_within_limits_witness :
  wireClock device_selected = [255263]
  /\ cfg_ok (currentConfig (ctl device_selected))
  /\ cfg_ok (bestConfig (ctl device_selected))
  /\ (forall i, hasCustomConfig (device (ctl device_selected) i) = true ->
                cfg_ok (config (device (ctl device_selected) i)))
  /\ Forall (fun v => 75000 <= v <= 3500000) (wireClock device_selected).
Proof.
  split; [vm_compute; reflexivity|].
  apply (bus_settings_within_limits device_selected).
  apply world_after_reachable.
Defined.

(** ** The recent error rate *)

Lemma count_slots (h : list Z) (l : list nat) (n : Z) :
  0 <= n -> n + Z.of_nat (length l) < 256 ->
  fold_left (fun n i => if arr_get 0 h i =? error_code ERROR_NONE
                        then n else u8 (n + 1)) l n
  = n + Z.of_nat (length (filter (fun i => arr_get 0 h i <> 0) l)).
Proof.
  revert n. induction l as [|i l IH]; intros n Hn Hlen; cbn [fold_left].
  - cbn. lia.
  - cbn [length] in Hlen. rewrite filter_cons. cbn [error_code].
    destruct (Z.eqb_spec (arr_get 0 h i) 0) as [Hz|Hnz].
    + rewrite decide_False by (intros H; now apply H).
      apply IH; lia.
    + rewrite decide_True by assumption.
      rewrite u8_small by lia. rewrite IH by lia. cbn [length]. lia.
Qed.

Lemma recentErrors_range c : 0 <= recentErrors c <= 10.
Proof.
  unfold recentErrors. split; [lia|].
  pose proof (length_filter (fun i => arr_get 0 (errorHistory c) i <> 0)
                            (indices 0 10)) as H.
  change (length (indices 0 10)) with 10%nat in H. lia.
Qed.

Lemma getRecentErrorRate_count c :
  getRecentErrorRate c
  = F32.mul (F32.div (F32.of_Z (recentErrors c)) (F32.of_Z 10)) (F32.of_Z 100).
Proof.
  unfold getRecentErrorRate, recentErrors. cbv zeta.
  rewrite count_slots; [reflexivity | lia |].
  change (length (indices 0 10)) with 10%nat. lia.
Qed.

(** The thresholds on the recent error rate, by the number of slots. *)
Lemma getRecentErrorRate_thresholds c :
  0 <= recentErrors c <= 10
  /\ F32.ltb (F32.of_Z 10) (getRecentErrorRate c) = (2 <=? recentErrors c)
  /\ F32.ltb (F32.of_Z 20) (getRecentErrorRate c) = (3 <=? recentErrors c).
Proof.
  pose proof (recentErrors_range c) as Hk. split; [exact Hk|].
  rewrite getRecentErrorRate_count.
  assert (Hcases : recentErrors c = 0 \/ recentErrors c = 1
                   \/ recentErrors c = 2 \/ recentErrors c = 3
                   \/ recentErrors c = 4 \/ recentErrors c = 5
                   \/ recentErrors c = 6 \/ recentErrors c = 7
                   \/ recentErrors c = 8 \/ recentErrors c = 9
                   \/ recentErrors c = 10) by lia.
  destruct Hcases as [-> | [-> | [-> | [-> | [-> | [-> | [-> | [-> | [-> | [-> | ->]]]]]]]]]];
    split; vm_compute; reflexivity.
Qed.

(** X5. The two thresholds on the recent error rate, in slots of the error
    ring: the rate is above 10 (decision rule "High error rate detected")
    exactly when at least 2 of the 10 slots hold an error, and above 20
    (the adaptive tier hands over to the emergency procedure) exactly when
    at least 3 do. One recorded error gives a rate of exactly 10, two give
    exactly 20, and neither comparison is strict enough to fire. *)
Theorem error_rate_thresholds c :
  0 <= recentErrors c <= 10
  /\ F32.ltb (F32.of_Z 10) (getRecentErrorRate c) = (2 <=? recentErrors c)
  /\ F32.ltb (F32.of_Z 20) (getRecentErrorRate c) = (3 <=? recentErrors c).
Proof. exact (getRecentErrorRate_thresholds c). Qed.

(** ** Registry round trips *)

Lemma deviceCount_removeDeviceConfig c a i :
  registry_ok c -> findDeviceConfig c a = Some i ->
  deviceCount (removeDeviceConfig a c) = deviceCount c - 1.
Proof.
  intros (Hc & _ & _) Hfind. unfold MAX_DEVICES in Hc.
  pose proof (findDeviceConfig_Some c a i Hfind) as (Hi & _ & _).
  unfold removeDeviceConfig. rewrite Hfind. cbn.
  apply u8_small. lia.
Qed.

Lemma lookupDevice_Some c a d :
  registry_ok c ->
  lookupDevice c a = Some d <->
  exists i : nat, Z.of_nat i < deviceCount c /\ device c i = d /\ address d = a.
Proof.
  intros Hok. unfold lookupDevice. split.
  - destruct (findDeviceConfig c a) as [i|] eqn:Hfind; [|discriminate].
    intros [= <-]. apply findDeviceConfig_Some in Hfind as (Hi & Ha & _).
    exists i. auto.
  - intros (i & Hi & <- & Ha).
    now rewrite (findDeviceConfig_registered c a i Hok Hi Ha).
Qed.

Lemma lookupDevice_None c a :
  lookupDevice c a = None <-> findDeviceConfig c a = None.
Proof.
  unfold lookupDevice. destruct (findDeviceConfig c a); split; congruence.
Qed.

(** X6. On a well-formed registry [removeDeviceConfig] forgets exactly the
    address it is given: afterwards that address has no entry, every other
    address has the entry it had (configuration and metrics included), and
    the count went down by one if the address was registered and is
    unchanged otherwise. *)
Theorem removeDeviceConfig_forgets c a :
  registry_ok c ->
  lookupDevice (removeDeviceConfig a c) a = None
  /\ (forall b, b <> a ->
        lookupDevice (removeDeviceConfig a c) b = lookupDevice c b)
  /\ deviceCount (removeDeviceConfig a c)
     = match findDeviceConfig c a with
       | Some _ => deviceCount c - 1
       | None => deviceCount c
       end.
Proof.
  intros Hok.
  pose proof (registry_ok_removeDeviceConfig c a Hok) as Hok'.
  destruct (findDeviceConfig c a) as [i|] eqn:Hfind.
  2:{ assert (Hsame : removeDeviceConfig a c = c)
        by (unfold removeDeviceConfig; now rewrite Hfind).
      rewrite Hsame. split; [now apply lookupDevice_None|]. split; reflexivity. }
  pose proof (deviceCount_removeDeviceConfig c a i Hok Hfind) as Hcount.
  pose proof (findDeviceConfig_Some c a i Hfind) as (Hi & Ha & _).
  pose proof Hok as (Hc & Hl & Huniq).
  (* the entries after the removal, in terms of the entries before *)
  assert (Hdev : forall j : nat, Z.of_nat j < deviceCount c - 1 ->
            device (removeDeviceConfig a c) j
            = if decide (j < i)%nat then device c j else device c (S j)).
  { intros j Hj. now apply device_removeDeviceConfig. }
  split; [|split; [|exact Hcount]].
  - apply lookupDevice_None, findDeviceConfig_None. intros j Hj.
    rewrite Hcount in Hj. rewrite (Hdev j Hj).
    destruct (decide (j < i)%nat) as [Hlt|Hge]; intros Hja.
    + assert (j = i) by (apply Huniq; [lia | lia | congruence]). lia.
    + assert (S j = i) by (apply Huniq; [lia | lia | congruence]). lia.
  - intros b Hb.
    destruct (lookupDevice c b) as [d|] eqn:Hold.
    + apply (lookupDevice_Some c b d Hok) in Hold as (j & Hj & Hd & Hdb).
      apply (lookupDevice_Some _ b d Hok').
      assert (Hji : j <> i) by (intros ->; congruence).
      destruct (decide (j < i)%nat) as [Hlt|Hge].
      * exists j. rewrite Hcount, Hdev by lia.
        rewrite decide_True by assumption. repeat split; [lia | assumption..].
      * exists (j - 1)%nat. rewrite Hcount, Hdev by lia.
        rewrite decide_False by lia.
        replace (S (j - 1)) with j by lia. repeat split; [lia | assumption..].
    + apply lookupDevice_None. apply lookupDevice_None in Hold.
      rewrite findDeviceConfig_None in Hold |- *.
      intros j Hj. rewrite Hcount in Hj. rewrite (Hdev j Hj).
      destruct (decide (j < i)%nat); apply Hold; lia.
Qed.

Lemma removeDeviceConfig_forgets_witness :
  let c := ctl two_devices in
  option_map address (lookupDevice c 64) = Some 64
  /\ option_map (fun d => clockSpeed (config d))
       (lookupDevice (removeDeviceConfig 64 c) 72) = Some 976315
  /\ lookupDevice (removeDeviceConfig 64 c) 64 = None
  /\ (forall b, b <> 64 ->
        lookupDevice (removeDeviceConfig 64 c) b = lookupDevice c b)
  /\ deviceCount (removeDeviceConfig 64 c)
     = match findDeviceConfig c 64 with
       | Some _ => deviceCount c - 1
       | None => deviceCount c
       end.
Proof.
  cbn zeta. split; [vm_compute; reflexivity|]. split; [vm_compute; reflexivity|].
  apply (removeDeviceConfig_forgets (ctl two_devices) 64).
  apply reachable_registry_inv, world_after_reachable.
Defined.

(** ** A device configuration, from registration to use *)

Lemma findDeviceConfig_addDeviceConfig c a :
  registry_ok c -> findDeviceConfig c a = None ->
  deviceCount c < MAX_DEVICES ->
  findDeviceConfig (addDeviceConfig a c) a = Some (Z.to_nat (deviceCount c)).
Proof.
  intros Hok Hnone Hroom. pose proof Hok as (Hc & Hl & _).
  apply findDeviceConfig_registered;
    [now apply registry_ok_addDeviceConfig | |];
    rewrite addDeviceConfig_room by lia.
  - cbn. lia.
  - change (device (set_deviceCount (deviceCount c + 1) ?x)) with (device x).
    unfold MAX_DEVICES in *.
    rewrite device_set_insert by lia. now rewrite decide_True.
Qed.

Lemma findDeviceConfig_upd_device c i g a j :
  (forall d, address (g d) = address d) ->
  registry_ok c ->
  findDeviceConfig c a = Some j ->
  findDeviceConfig (upd_device i g c) a = Some j.
Proof.
  intros Hg Hok Hfind.
  apply findDeviceConfig_Some in Hfind as (Hj & Ha & _).
  apply findDeviceConfig_registered; [now apply registry_ok_upd_device | exact Hj |].
  now rewrite address_upd_device.
Qed.

(** What [setDeviceSpecificConfig] leaves in the registry for the address,
    when the address is registered or there is room for it. *)
Lemma setDeviceSpecificConfig_entry a cs rt w :
  registry_ok (ctl w) ->
  (findDeviceConfig (ctl w) a = None -> deviceCount (ctl w) < MAX_DEVICES) ->
  let w' := setDeviceSpecificConfig a cs rt w in
  let clockStep := calculateStepFromValue (clockSpeedRange w) cs in
  let riseStep := calculateStepFromValue (riseTimeRange w) rt in
  exists i,
    findDeviceConfig (ctl w') a = Some i
    /\ hasCustomConfig (device (ctl w') i) = true
    /\ clockSpeedStep (config (device (ctl w') i)) = clockStep
    /\ riseTimeStep (config (device (ctl w') i)) = riseStep
    /\ clockSpeed (config (device (ctl w') i))
       = calculateValueFromStep (clockSpeedRange w) clockStep
    /\ riseTime (config (device (ctl w') i))
       = u16 (calculateValueFromStep (riseTimeRange w) riseStep)
    /\ currentConfig (ctl w') = currentConfig (ctl w)
    /\ adaptiveMode (ctl w') = adaptiveMode (ctl w)
    /\ wireClock w' = wireClock w.
Proof.
  intros Hok Hroom. cbn zeta. unfold setDeviceSpecificConfig.
  (* the registry after the registration step *)
  assert (H0 : exists i,
             let w0 := match findDeviceConfig (ctl w) a with
                       | None => upd_ctl (addDeviceConfig a) w
                       | Some _ => w
                       end in
             findDeviceConfig (ctl w0) a = Some i /\ registry_ok (ctl w0)
             /\ clockSpeedRange w0 = clockSpeedRange w
             /\ riseTimeRange w0 = riseTimeRange w
             /\ currentConfig (ctl w0) = currentConfig (ctl w)
             /\ adaptiveMode (ctl w0) = adaptiveMode (ctl w)
             /\ wireClock w0 = wireClock w).
  { destruct (findDeviceConfig (ctl w) a) as [i|] eqn:Hfind.
    - exists i. cbn zeta. rewrite Hfind.
      split; [reflexivity|]. split; [exact Hok|]. repeat split.
    - exists (Z.to_nat (deviceCount (ctl w))). cbn zeta.
      cbn [ctl upd_ctl set_ctl].
      split; [apply findDeviceConfig_addDeviceConfig; auto|].
      split; [now apply registry_ok_addDeviceConfig|].
      pose proof Hok as (Hc & _ & _).
      rewrite addDeviceConfig_room by (specialize (Hroom eq_refl); lia).
      repeat split. }
  cbn zeta in H0. destruct H0 as (i & Hfind & Hok0 & Hcr & Hrr & Hcur & Had & Hwc).
  revert Hfind Hok0 Hcr Hrr Hcur Had Hwc.
  generalize (match findDeviceConfig (ctl w) a with
              | None => upd_ctl (addDeviceConfig a) w
              | Some _ => w
              end).
  intros w0 Hfind Hok0 Hcr Hrr Hcur Had Hwc.
  rewrite Hfind, Hcr, Hrr.
  pose proof (calculateStepFromValue_range (clockSpeedRange w) cs) as Hcs.
  pose proof (calculateStepFromValue_range (riseTimeRange w) rt) as Hrt.
  set (clockStep := calculateStepFromValue (clockSpeedRange w) cs) in *.
  set (riseStep := calculateStepFromValue (riseTimeRange w) rt) in *.
  assert (Hvalid : isStepValid clockStep && isStepValid riseStep = true).
  { unfold isStepValid. apply andb_true_iff. split; apply Z.ltb_lt; lia. }
  rewrite Hvalid.
  cbn [ctl upd_ctl set_ctl updateRiseTimeRange updateClockSpeedRange
       set_riseTimeRange set_clockSpeedRange clockSpeedRange riseTimeRange
       wireClock].
  rewrite !upd_device_twice, Hcr, Hrr, !updateDynamicRange_value.
  destruct (Z.ltb_spec clockStep DYNAMIC_RANGE_STEPS); [|lia].
  destruct (Z.ltb_spec riseStep DYNAMIC_RANGE_STEPS); [|lia].
  pose proof (findDeviceConfig_Some _ _ _ Hfind) as (Hi & _ & _).
  pose proof Hok0 as (Hc0 & Hl0 & _). unfold MAX_DEVICES in Hc0.
  exists i. split.
  { apply findDeviceConfig_upd_device; [reflexivity | assumption..]. }
  rewrite device_upd_device by lia. rewrite decide_True by reflexivity.
  cbn. repeat split; assumption.
Qed.

(** X7. A device configuration takes effect at the next transmission to
    the device: after [setDeviceSpecificConfig(a, clock, rise)] on a
    well-formed registry in adaptive mode, with the address registered or
    room to register it, [beginTransmission(a)] returns with the clock
    speed and rise time of the current configuration at the table values of
    the requested ones (the value of the step the request falls on), having
    consumed no platform value and called [Wire.setClock] with that clock
    unless clock and rise time were already the current ones. *)
Theorem device_override_takes_effect a cs rt w p n :
  registry_ok (ctl w) ->
  adaptiveMode (ctl w) = true ->
  (findDeviceConfig (ctl w) a = None -> deviceCount (ctl w) < MAX_DEVICES) ->
  let clock := calculateValueFromStep (clockSpeedRange w)
                 (calculateStepFromValue (clockSpeedRange w) cs) in
  let rise := u16 (calculateValueFromStep (riseTimeRange w)
                     (calculateStepFromValue (riseTimeRange w) rt)) in
  exists w',
    (modify (setDeviceSpecificConfig a cs rt) >> beginTransmission a) p n w
    = Some (tt, n, w')
    /\ currentDeviceAddress (ctl w') = a
    /\ clockSpeed (currentConfig (ctl w')) = clock
    /\ riseTime (currentConfig (ctl w')) = rise
    /\ (wireClock w' = clock :: wireClock w
        \/ wireClock w' = wireClock w
           /\ clockSpeed (currentConfig (ctl w)) = clock
           /\ riseTime (currentConfig (ctl w)) = rise).
Proof.
  intros Hok Hadaptive Hroom. cbn zeta.
  destruct (setDeviceSpecificConfig_entry a cs rt w Hok Hroom)
    as (i & Hfind & Hcustom & _ & _ & Hclock & Hrise & Hcur & Had & Hwc).
  cbn zeta in *. revert Hfind Hcustom Hclock Hrise Hcur Had Hwc.
  unfold bind at 1. unfold modify at 1.
  generalize (setDeviceSpecificConfig a cs rt w).
  intros w1 Hfind Hcustom Hclock Hrise Hcur Had Hwc.
  unfold beginTransmission, bind, modc, modify, getc. cbn [ctl upd_ctl set_ctl].
  change (adaptiveMode (set_currentDeviceAddress a (ctl w1)))
    with (adaptiveMode (ctl w1)).
  rewrite Had, Hadaptive. unfold applyDeviceConfiguration.
  cbn [ctl upd_ctl set_ctl].
  change (findDeviceConfig (set_currentDeviceAddress a (ctl w1)) a)
    with (findDeviceConfig (ctl w1) a).
  rewrite Hfind.
  change (device (set_currentDeviceAddress a (ctl w1)) i)
    with (device (ctl w1) i).
  change (currentConfig (set_currentDeviceAddress a (ctl w1)))
    with (currentConfig (ctl w1)).
  rewrite Hcustom, Hclock, Hrise, Hcur. cbn [andb].
  destruct (Z.eqb_spec (clockSpeed (currentConfig (ctl w)))
              (calculateValueFromStep (clockSpeedRange w)
                 (calculateStepFromValue (clockSpeedRange w) cs))) as [Hc|Hc];
    destruct (Z.eqb_spec (riseTime (currentConfig (ctl w)))
                (u16 (calculateValueFromStep (riseTimeRange w)
                        (calculateStepFromValue (riseTimeRange w) rt))))
      as [Hr|Hr]; cbn [negb orb].
  - eexists. split; [reflexivity|]. cbn. rewrite Hcur.
    split; [reflexivity|]. split; [exact Hc|]. split; [exact Hr|].
    right. auto.
  - eexists. split; [reflexivity|]. cbn. rewrite Hwc.
    split; [reflexivity|]. split; [reflexivity|]. split; [reflexivity|].
    left. reflexivity.
  - eexists. split; [reflexivity|]. cbn. rewrite Hwc.
    split; [reflexivity|]. split; [reflexivity|]. split; [reflexivity|].
    left. reflexivity.
  - eexists. split; [reflexivity|]. cbn. rewrite Hwc.
    split; [reflexivity|]. split; [reflexivity|]. split; [reflexivity|].
    left. reflexivity.
Qed.

Lemma device_override_takes_effect_witness :
  let w := constructor in
  let clock := calculateValueFromStep (clockSpeedRange w)
                 (calculateStepFromValue (clockSpeedRange w) 400000) in
  let rise := u16 (calculateValueFromStep (riseTimeRange w)
                     (calculateStepFromValue (riseTimeRange w) 100)) in
  (clock, rise) = (255263, 95)
  /\ exists w',
       (modify (setDeviceSpecificConfig 64 400000 100) >> beginTransmission 64)
         (tape []) 0%nat w
       = Some (tt, 0%nat, w')
       /\ currentDeviceAddress (ctl w') = 64
       /\ clockSpeed (currentConfig (ctl w')) = clock
       /\ riseTime (currentConfig (ctl w')) = rise
       /\ (wireClock w' = clock :: wireClock w
           \/ wireClock w' = wireClock w
              /\ clockSpeed (currentConfig (ctl w)) = clock
              /\ riseTime (currentConfig (ctl w)) = rise).
Proof.
  cbn zeta. split; [vm_compute; reflexivity|].
  apply (device_override_takes_effect 64 400000 100 constructor (tape []) 0).
  - exact constructor_registry_ok.
  - reflexivity.
  - intros _. vm_compute. reflexivity.
Defined.

(** ** A registry at capacity *)

Lemma full_without_same a c c' :
  deviceCount c' = deviceCount c ->
  deviceConfigs c' = deviceConfigs c ->
  full_without a c -> full_without a c'.
Proof.
  unfold full_without, findDeviceConfig, device. intros -> ->. auto.
Qed.

Lemma full_without_upd_device a i g c :
  (forall d, address (g d) = address d) ->
  full_without a c -> full_without a (upd_device i g c).
Proof.
  intros Hg [Hfull Hnone]. split; [exact Hfull|].
  rewrite findDeviceConfig_None in Hnone |- *.
  intros j Hj. rewrite address_upd_device by assumption. now apply Hnone.
Qed.

Lemma full_without_addDeviceConfig a b c :
  full_without a c -> full_without a (addDeviceConfig b c).
Proof.
  intros Hf. rewrite addDeviceConfig_full; [exact Hf|]. destruct Hf as [-> _]. lia.
Qed.

Lemma full_without_record_device (success : bool) (t a b : Z) c :
  full_without a c ->
  full_without a
    (if adaptiveMode c then
       let c := match findDeviceConfig c b with
                | None => addDeviceConfig b c
                | Some _ => c
                end in
       match findDeviceConfig c b with
       | Some i =>
           upd_device i (upd_config (upd_metrics (fun m =>
             if success then
               set_totalTransactionTime (u32 (totalTransactionTime m + t))
                 (set_successfulTransactions (u32 (successfulTransactions m + 1)) m)
             else set_failedTransactions (u32 (failedTransactions m + 1)) m))) c
       | None => c
       end
     else c).
Proof.
  intros Hf. destruct (adaptiveMode c); [|exact Hf]. cbn zeta.
  assert (Hreg : full_without a (match findDeviceConfig c b with
                                 | None => addDeviceConfig b c
                                 | Some _ => c
                                 end)).
  { destruct (findDeviceConfig c b); [exact Hf|].
    now apply full_without_addDeviceConfig. }
  revert Hreg. generalize (match findDeviceConfig c b with
                           | None => addDeviceConfig b c
                           | Some _ => c
                           end).
  intros c' Hreg. destruct (findDeviceConfig c' b); [|exact Hreg].
  now apply full_without_upd_device.
Qed.

Lemma full_without_setDeviceSpecificConfig a b cs rt w :
  full_without a (ctl w) ->
  full_without a (ctl (setDeviceSpecificConfig b cs rt w)).
Proof.
  intros Hf. unfold setDeviceSpecificConfig.
  assert (Hreg : full_without a
                   (ctl (match findDeviceConfig (ctl w) b with
                         | None => upd_ctl (addDeviceConfig b) w
                         | Some _ => w
                         end))).
  { destruct (findDeviceConfig (ctl w) b); [exact Hf|].
    cbn. now apply full_without_addDeviceConfig. }
  cbn zeta. revert Hreg.
  generalize (match findDeviceConfig (ctl w) b with
              | None => upd_ctl (addDeviceConfig b) w
              | Some _ => w
              end).
  intros w' Hreg.
  destruct (findDeviceConfig (ctl w') b); [|exact Hreg].
  destruct (isStepValid _ && isStepValid _); [|exact Hreg].
  cbn. repeat (apply full_without_upd_device; [reflexivity|]). exact Hreg.
Qed.

Ltac full_leaf a :=
  split_pre;
  lazymatch goal with
  | |- full_without _ (ctl (upd_ctl (addDeviceConfig _) _)) =>
      cbn [ctl upd_ctl set_ctl]; apply full_without_addDeviceConfig; assumption
  | |- full_without _ (ctl (setDeviceSpecificConfig _ _ _ _)) =>
      apply full_without_setDeviceSpecificConfig; assumption
  | |- full_without _
         (ctl (upd_ctl (fun c => if adaptiveMode c then _ else _) _)) =>
      cbn [ctl upd_ctl set_ctl]; apply full_without_record_device; assumption
  | H : full_without _ (ctl ?w) |- full_without _ _ =>
      refine (full_without_same _ _ _ _ _ H);
      unfold_pure; cbn; repeat (case_match; cbn); reflexivity
  end.

Lemma run_full_without a op :
  removes_device op = false ->
  ensures (fun w => full_without a (ctl w)) (run op)
          (fun _ w => full_without a (ctl w)).
Proof.
  intros Hop.
  destruct op; try discriminate Hop; cbn [run]; unfold_run;
    repeat estep_with (fun w => full_without a (ctl w)) ltac:(full_leaf a).
Qed.

(** X8. A seventeenth device is never registered: once the registry holds
    [MAX_DEVICES] entries and none for address [a], it stays so through any
    sequence of public operations without [removeDeviceConfig] (transactions
    with [a], [setDeviceSpecificConfig] for [a], bus scans included), so
    that [getDeviceMetrics(a)] keeps answering with zeroed metrics and a
    configuration requested for [a] is never applied. *)
Theorem full_registry_ignores_device a ops p n w r n' w' :
  forallb (fun op => negb (removes_device op)) ops = true ->
  full_without a (ctl w) ->
  runAll ops p n w = Some (r, n', w') ->
  deviceCount (ctl w') = MAX_DEVICES
  /\ lookupDevice (ctl w') a = None
  /\ getDeviceMetrics (ctl w') a = zeroMetrics
  /\ applyDeviceConfiguration a w' = w'.
Proof.
  intros Hops Hfull Hrun.
  assert (Hf : full_without a (ctl w')).
  { revert n w Hfull Hrun. induction ops as [|op ops IH]; intros n w Hfull Hrun.
    - inversion Hrun; subst. exact Hfull.
    - cbn [forallb] in Hops. apply andb_prop in Hops as [Hop Hrest].
      apply negb_true_iff in Hop.
      cbn [runAll] in Hrun. unfold bind in Hrun.
      destruct (run op p n w) as [[[u n1] w1]|] eqn:Hfirst; [|discriminate].
      apply (IH Hrest n1 w1); [|exact Hrun].
      exact (run_full_without a op Hop p n w u n1 w1 Hfull Hfirst). }
  destruct Hf as [Hcount Hnone]. split; [exact Hcount|].
  unfold lookupDevice, getDeviceMetrics, applyDeviceConfiguration.
  rewrite Hnone. auto.
Qed.

Lemma full_registry_ignores_device_witness :
  let ops := [OpSetDeviceSpecificConfig 64 400000 100; OpBeginTransmission 64;
              OpEndTransmission] in
  let p := tape (transaction_reads 0 500) in
  let w' := run_from p 0 full_registry ops in
  runAll ops p 0%nat full_registry = Some (tt, 4%nat, w')
  /\ successfulTransactions (metrics (currentConfig (ctl w'))) = 1
  /\ deviceCount (ctl w') = MAX_DEVICES
  /\ lookupDevice (ctl w') 64 = None
  /\ getDeviceMetrics (ctl w') 64 = zeroMetrics
  /\ applyDeviceConfiguration 64 w' = w'.
Proof.
  cbn zeta.
  assert (Hrun : runAll [OpSetDeviceSpecificConfig 64 400000 100;
                         OpBeginTransmission 64; OpEndTransmission]
                   (tape (transaction_reads 0 500)) 0%nat full_registry
                 = Some (tt, 4%nat,
                         run_from (tape (transaction_reads 0 500)) 0
                           full_registry
                           [OpSetDeviceSpecificConfig 64 400000 100;
                            OpBeginTransmission 64; OpEndTransmission]))
    by (vm_compute; reflexivity).
  split; [exact Hrun|]. split; [vm_compute; reflexivity|].
  refine (full_registry_ignores_device 64
            [OpSetDeviceSpecificConfig 64 400000 100; OpBeginTransmission 64;
             OpEndTransmission]
            (tape (transaction_reads 0 500)) 0 full_registry tt 4 _
            eq_refl _ Hrun).
  split; vm_compute; reflexivity.
Defined.

(** ** The metrics of a device at its first transaction *)

Lemma scoreOf_returns p n w m :
  historyIndex (ctl w) < 3 ->
  exists s, scoreOf m p n w = Some (s, n, w).
Proof.
  intros H. unfold scoreOf, liftOption.
  destruct (calculatePerformanceScore_returns (stackDepth p) (ctl w) m H)
    as [s ->].
  now exists s.
Qed.

Lemma reachable_historyIndex w : reachable w -> historyIndex (ctl w) < 3.
Proof.
  intros Hreach. destruct (reachable_idle w Hreach) as (k & e & _ & Ht).
  exact (tracked_historyIndex k e w Ht).
Qed.

Lemma record_device_frame success t a c :
  currentConfig (record_device success t a c) = currentConfig c
  /\ historyIndex (record_device success t a c) = historyIndex c.
Proof.
  unfold record_device, addDeviceConfig, upd_device.
  repeat case_match; split; reflexivity.
Qed.

(** The entry of a device registered by its first transaction. *)
Lemma record_device_first t a c :
  registry_ok c -> adaptiveMode c = true ->
  findDeviceConfig c a = None -> deviceCount c < MAX_DEVICES ->
  getDeviceMetrics (record_device true t a c) a
  = set_totalTransactionTime
      (u32 (totalTransactionTime (metrics (currentConfig c)) + t))
      (set_successfulTransactions
         (u32 (successfulTransactions (metrics (currentConfig c)) + 1))
         (metrics (currentConfig c))).
Proof.
  intros Hok Hadaptive Hnone Hroom.
  pose proof (findDeviceConfig_addDeviceConfig c a Hok Hnone Hroom) as Hadd.
  pose proof (registry_ok_addDeviceConfig c a Hnone Hok) as Hok'.
  unfold record_device. rewrite Hadaptive. cbv zeta. rewrite Hnone, Hadd.
  unfold getDeviceMetrics.
  erewrite findDeviceConfig_upd_device; [ | reflexivity | exact Hok' | exact Hadd].
  pose proof Hok as (Hc & Hl & _).
  assert (Hmax : MAX_DEVICES = 16) by reflexivity.
  rewrite device_upd_device.
  - rewrite decide_True by reflexivity.
    rewrite addDeviceConfig_room by lia.
    change (device (set_deviceCount (deviceCount c + 1) ?x)) with (device x).
    rewrite device_set_insert by lia. rewrite decide_True by reflexivity.
    reflexivity.
  - rewrite addDeviceConfig_room by lia.
    change (deviceConfigs (set_deviceCount _ (set_deviceConfigs ?l _))) with l.
    rewrite length_insert. lia.
Qed.

Lemma getDeviceMetrics_same c c' a :
  deviceCount c' = deviceCount c -> deviceConfigs c' = deviceConfigs c ->
  getDeviceMetrics c' a = getDeviceMetrics c a.
Proof.
  unfold getDeviceMetrics, findDeviceConfig, device. now intros -> ->.
Qed.

(** Projections of updated records, computed by value. *)
Ltac project_records :=
  cbv [ctl clockSpeedRange riseTimeRange wireClock
       set_ctl set_clockSpeedRange set_riseTimeRange set_wireClock upd_ctl
       currentConfig bestConfig performanceHistory deviceConfigs historyIndex
       consecutiveErrors deviceCount lastAdjustmentTime adjustmentCooldown
       lastErrorTime learningMode emergencyRecovery adaptiveMode
       performanceScore trendAnalysis adaptationRate currentDeviceAddress
       lastError errorHistory errorHistoryIndex
       set_currentConfig set_bestConfig set_performanceHistory
       set_deviceConfigs set_historyIndex set_consecutiveErrors
       set_deviceCount set_lastAdjustmentTime set_adjustmentCooldown
       set_lastErrorTime set_learningMode set_emergencyRecovery
       set_adaptiveMode set_performanceScore set_trendAnalysis
       set_adaptationRate set_currentDeviceAddress set_lastError
       set_errorHistory set_errorHistoryIndex upd_currentConfig
       clockSpeedStep riseTimeStep clockSpeed riseTime metrics isValid
       set_clockSpeedStep set_riseTimeStep set_clockSpeed set_riseTime
       set_metrics set_isValid upd_metrics
       successfulTransactions failedTransactions totalTransactionTime
       averageTransactionTime errorRate stabilityScore lastUpdateTime
       set_successfulTransactions set_failedTransactions
       set_totalTransactionTime set_averageTransactionTime set_errorRate
       set_lastUpdateTime zeroMetrics].

Lemma currentConfig_upd_currentConfig g c :
  currentConfig (upd_currentConfig g c) = g (currentConfig c).
Proof. reflexivity. Qed.

Lemma metrics_upd_metrics g cfg : metrics (upd_metrics g cfg) = g (metrics cfg).
Proof. reflexivity. Qed.

(** [updatePerformanceMetrics] as a function of the world, on a controller
    without recorded snapshots: the transaction is counted globally and on
    the device, the derived metrics and the time stamp go into the metrics
    [m'], and the score is stored. *)
Lemma updatePerformanceMetrics_runs success t a p n w :
  historyIndex (ctl w) < 3 ->
  exists s m',
    updatePerformanceMetrics success t a p n w
    = Some (tt, S n,
            upd_ctl (fun c =>
              set_performanceScore s
                (upd_currentConfig (set_metrics m')
                   (record_device success t a (count_transaction success t c))))
              w)
    /\ successfulTransactions m'
       = successfulTransactions
           (metrics (currentConfig (count_transaction success t (ctl w))))
    /\ failedTransactions m'
       = failedTransactions
           (metrics (currentConfig (count_transaction success t (ctl w)))).
Proof.
  intros Hhist. unfold updatePerformanceMetrics.
  unfold millis. unfold bind, modc, modify, platformRead, ret, getc.
  cbv beta iota.
  match goal with
  | |- context [scoreOf _ p (S n)
                  (upd_ctl ?f4 (upd_ctl ?f3 (upd_ctl ?f2 (upd_ctl ?f1 w))))] =>
      change f2 with (record_device success t a);
      change f1 with (count_transaction success t);
      set (w2 := upd_ctl (record_device success t a)
                   (upd_ctl (count_transaction success t) w));
      set (w4 := upd_ctl f4 (upd_ctl f3 w2))
  end.
  assert (Hidx : historyIndex (ctl w4) = historyIndex (ctl w)).
  { unfold w4, w2. cbn [ctl upd_ctl set_ctl].
    change (historyIndex (upd_currentConfig ?g (upd_currentConfig ?h ?c)))
      with (historyIndex c).
    rewrite (proj2 (record_device_frame _ _ _ _)).
    unfold count_transaction. now destruct success. }
  match goal with
  | |- context [scoreOf ?m p (S n) w4] =>
      destruct (scoreOf_returns p (S n) w4 m) as [s Hs];
        [rewrite Hidx; exact Hhist|];
      rewrite Hs
  end.
  exists s, (metrics (currentConfig (ctl w4))).
  split; [reflexivity|].
  unfold w4, w2. cbn [ctl upd_ctl set_ctl].
  rewrite !currentConfig_upd_currentConfig, !metrics_upd_metrics.
  rewrite (proj1 (record_device_frame _ _ _ _)).
  generalize (metrics (currentConfig (count_transaction success t (ctl w)))).
  intros m. split; repeat case_match; reflexivity.
Qed.

(** X9. The first transaction with an unregistered address in adaptive
    mode registers the device with a copy of the current configuration,
    global counters included and already updated, and then counts the
    transaction on the copy: after a first successful transaction the
    device's success counter is the global one plus one (not 1), its time
    total is the global one plus the transaction time once more, and its
    failure counter is the global failure counter. *)
Theorem first_transaction_counted_twice w a t p n :
  reachable w ->
  adaptiveMode (ctl w) = true ->
  findDeviceConfig (ctl w) a = None ->
  deviceCount (ctl w) < MAX_DEVICES ->
  let m := metrics (currentConfig (ctl w)) in
  exists w',
    updatePerformanceMetrics true t a p n w = Some (tt, S n, w')
    /\ successfulTransactions (metrics (currentConfig (ctl w')))
       = u32 (successfulTransactions m + 1)
    /\ successfulTransactions (getDeviceMetrics (ctl w') a)
       = u32 (u32 (successfulTransactions m + 1) + 1)
    /\ totalTransactionTime (getDeviceMetrics (ctl w') a)
       = u32 (u32 (totalTransactionTime m + t) + t)
    /\ failedTransactions (getDeviceMetrics (ctl w') a) = failedTransactions m.
Proof.
  intros Hreach Hadaptive Hnone Hroom. cbn zeta.
  pose proof (reachable_registry_inv w Hreach) as Hok.
  pose proof (reachable_historyIndex w Hreach) as Hhist.
  destruct (updatePerformanceMetrics_runs true t a p n w Hhist)
    as (s & m' & Hrun & Hsucc & _).
  eexists. split; [exact Hrun|].
  cbn [ctl upd_ctl set_ctl].
  set (c1 := count_transaction true t (ctl w)) in *.
  rewrite (getDeviceMetrics_same
             (record_device true t a c1)
             (set_performanceScore s
                (upd_currentConfig (set_metrics m') (record_device true t a c1)))
             a eq_refl eq_refl).
  rewrite (record_device_first t a c1);
    [ | exact (registry_ok_same _ c1 eq_refl eq_refl Hok)
      | exact Hadaptive
      | rewrite <- Hnone; unfold findDeviceConfig, device; reflexivity
      | exact Hroom ].
  split; [exact Hsucc|]. repeat split.
Qed.

Lemma first_transaction_counted_twice_witness :
  let w := world_after (tape (transaction_reads 0 500)) [OpEndTransmission] in
  let m := metrics (currentConfig (ctl w)) in
  successfulTransactions m = 1
  /\ exists w',
       updatePerformanceMetrics true 500 64 (tape []) 0%nat w = Some (tt, 1%nat, w')
       /\ successfulTransactions (metrics (currentConfig (ctl w')))
          = u32 (successfulTransactions m + 1)
       /\ successfulTransactions (getDeviceMetrics (ctl w') 64)
          = u32 (u32 (successfulTransactions m + 1) + 1)
       /\ totalTransactionTime (getDeviceMetrics (ctl w') 64)
          = u32 (u32 (totalTransactionTime m + 500) + 500)
       /\ failedTransactions (getDeviceMetrics (ctl w') 64)
          = failedTransactions m.
Proof.
  cbn zeta. split; [vm_compute; reflexivity|].
  apply (first_transaction_counted_twice
           (world_after (tape (transaction_reads 0 500)) [OpEndTransmission])
           64 500 (tape []) 0).
  - apply world_after_reachable.
  - vm_compute; reflexivity.
  - vm_compute; reflexivity.
  - vm_compute; reflexivity.
Defined.

(** ** Forced optimisation *)

(** X10. [forceOptimization] does not get past the cooldown while the
    uptime is below it: it only zeroes [lastAdjustmentTime], so with at
    least one success recorded and [millis()] below [adjustmentCooldown]
    (the first 5 s after start, 15 s after an emergency) the decision it
    asks for is "Cooldown period active" and nothing else changes; with no
    success recorded it does not even ask, and reads no platform value. *)
Theorem forceOptimization_within_cooldown p n w :
  (successfulTransactions (metrics (currentConfig (ctl w))) = 0 ->
   forceOptimization p n w
   = Some (tt, n, upd_ctl (set_lastAdjustmentTime 0) w))
  /\ (0 < successfulTransactions (metrics (currentConfig (ctl w))) ->
      u32 (returned p n) < adjustmentCooldown (ctl w) ->
      forceOptimization p n w
      = Some (tt, S n, upd_ctl (set_lastAdjustmentTime 0) w)).
Proof.
  split.
  - intros Hzero. unfold forceOptimization, bind, modc, modify, getc, ret.
    cbn [ctl upd_ctl set_ctl].
    change (currentConfig (set_lastAdjustmentTime 0 (ctl w)))
      with (currentConfig (ctl w)).
    now rewrite Hzero.
  - intros Hpos Hcool. unfold forceOptimization.
    unfold bind at 1. unfold modc at 1, modify at 1.
    unfold bind at 1. unfold getc at 1.
    cbn [ctl upd_ctl set_ctl].
    change (currentConfig (set_lastAdjustmentTime 0 (ctl w)))
      with (currentConfig (ctl w)).
    apply Z.ltb_lt in Hpos. rewrite Hpos.
    unfold bind at 1.
    rewrite decision_in_cooldown; [reflexivity|].
    unfold in_cooldown. cbn [ctl upd_ctl set_ctl].
    change (lastAdjustmentTime (set_lastAdjustmentTime 0 (ctl w))) with 0.
    change (adjustmentCooldown (set_lastAdjustmentTime 0 (ctl w)))
      with (adjustmentCooldown (ctl w)).
    rewrite Z.sub_0_r. unfold u32 in *. rewrite Z.mod_mod by lia. exact Hcool.
Qed.

Lemma forceOptimization_within_cooldown_witness :
  let w := world_after (tape (transaction_reads 0 500)) [OpEndTransmission] in
  let p := tape [1000] in
  successfulTransactions (metrics (currentConfig (ctl w))) = 1
  /\ adjustmentCooldown (ctl w) = 5000
  /\ forceOptimization p 0%nat w
     = Some (tt, 1%nat, upd_ctl (set_lastAdjustmentTime 0) w).
Proof.
  cbn zeta. split; [vm_compute; reflexivity|]. split; [vm_compute; reflexivity|].
  apply (proj2 (forceOptimization_within_cooldown (tape [1000]) 0
                  (world_after (tape (transaction_reads 0 500))
                     [OpEndTransmission]))).
  - vm_compute; reflexivity.
  - vm_compute; reflexivity.
Defined.

(** ** An applied decision *)

Lemma nudge_code delta step :
  0 <= step < DYNAMIC_RANGE_STEPS ->
  (if (0 <? delta) && (step <? DYNAMIC_RANGE_STEPS - 1) then u8 (step + 1)
   else if (delta <? 0) && (0 <? step) then u8 (step - 1)
   else step) = nudge delta step.
Proof.
  unfold nudge, DYNAMIC_RANGE_STEPS. intros Hs.
  destruct (Z.ltb_spec 0 delta), (Z.ltb_spec delta 0),
           (Z.ltb_spec step (20 - 1)), (Z.ltb_spec 0 step);
    cbn [andb]; rewrite ?u8_small by lia; lia.
Qed.

Lemma nudge_range delta step :
  0 <= step < DYNAMIC_RANGE_STEPS ->
  0 <= nudge delta step < DYNAMIC_RANGE_STEPS
  /\ Z.abs (nudge delta step - step) <= 1.
Proof.
  unfold nudge, DYNAMIC_RANGE_STEPS. intros Hs.
  destruct (0 <? delta), (delta <? 0); lia.
Qed.

(** X11. An applied decision moves each step by at most one, whatever the
    size of its deltas: with both steps of the current configuration in the
    table, [applyAIDecision] returns after two [millis()] reads with each
    step one further in the direction of the sign of its delta, saturating
    at 0 and 19; clock speed and rise time are the table values of the new
    steps and the new clock is pushed to [Wire.setClock]; the metrics
    collected so far are discarded (all zero but the time stamp), and
    [lastAdjustmentTime] is the first time read. *)
Theorem applied_decision_moves_one_step d p n w :
  0 <= clockSpeedStep (currentConfig (ctl w)) < DYNAMIC_RANGE_STEPS ->
  0 <= riseTimeStep (currentConfig (ctl w)) < DYNAMIC_RANGE_STEPS ->
  let clockStep := nudge (clockSpeedDelta d)
                     (clockSpeedStep (currentConfig (ctl w))) in
  let riseStep := nudge (riseTimeDelta d)
                    (riseTimeStep (currentConfig (ctl w))) in
  exists w',
    applyAIDecision d p n w = Some (tt, S (S n), w')
    /\ Z.abs (clockStep - clockSpeedStep (currentConfig (ctl w))) <= 1
    /\ Z.abs (riseStep - riseTimeStep (currentConfig (ctl w))) <= 1
    /\ clockSpeedStep (currentConfig (ctl w')) = clockStep
    /\ riseTimeStep (currentConfig (ctl w')) = riseStep
    /\ clockSpeed (currentConfig (ctl w'))
       = calculateValueFromStep (clockSpeedRange w) clockStep
    /\ riseTime (currentConfig (ctl w'))
       = u16 (calculateValueFromStep (riseTimeRange w) riseStep)
    /\ wireClock w'
       = calculateValueFromStep (clockSpeedRange w) clockStep :: wireClock w
    /\ metrics (currentConfig (ctl w'))
       = set_lastUpdateTime (u32 (returned p (S n))) zeroMetrics
    /\ lastAdjustmentTime (ctl w') = u32 (returned p n).
Proof.
  intros Hcs Hrs. cbn zeta.
  pose proof (nudge_range (clockSpeedDelta d) _ Hcs) as [Hc1 Hc2].
  pose proof (nudge_range (riseTimeDelta d) _ Hrs) as [Hr1 Hr2].
  unfold applyAIDecision. unfold bind at 1. unfold getc at 1. cbv zeta.
  rewrite !nudge_code by assumption.
  set (clockStep := nudge (clockSpeedDelta d)
                      (clockSpeedStep (currentConfig (ctl w)))) in *.
  set (riseStep := nudge (riseTimeDelta d)
                     (riseTimeStep (currentConfig (ctl w)))) in *.
  assert (Hvalid : isStepValid clockStep && isStepValid riseStep = true).
  { unfold isStepValid. apply andb_true_iff. split; apply Z.ltb_lt; lia. }
  rewrite Hvalid.
  unfold millis. unfold bind, modc, modify, platformRead, ret.
  cbv beta iota.
  eexists. split; [reflexivity|].
  split; [exact Hc2|]. split; [exact Hr2|].
  unfold applyConfiguration, loadRiseTime, loadClockSpeed,
    updateRiseTimeRange, updateClockSpeedRange.
  cbn [ctl upd_ctl set_ctl wireClock set_wireClock clockSpeedRange
       riseTimeRange set_clockSpeedRange set_riseTimeRange].
  rewrite !updateDynamicRange_value.
  destruct (Z.ltb_spec clockStep DYNAMIC_RANGE_STEPS); [|lia].
  destruct (Z.ltb_spec riseStep DYNAMIC_RANGE_STEPS); [|lia].
  repeat split.
Qed.

Lemma applied_decision_moves_one_step_witness :
  let d := mkDecision 5 (-3) 70 true "Positive trend, optimizing speed" in
  let p := tape [100; 200] in
  exists w',
    applyAIDecision d p 0%nat constructor = Some (tt, 2%nat, w')
    /\ Z.abs (1 - clockSpeedStep (currentConfig (ctl constructor))) <= 1
    /\ Z.abs (6 - riseTimeStep (currentConfig (ctl constructor))) <= 1
    /\ clockSpeedStep (currentConfig (ctl w')) = 1
    /\ riseTimeStep (currentConfig (ctl w')) = 6
    /\ clockSpeed (currentConfig (ctl w')) = 255263
    /\ riseTime (currentConfig (ctl w')) = 106
    /\ wireClock w' = [255263]
    /\ metrics (currentConfig (ctl w')) = set_lastUpdateTime 200 zeroMetrics
    /\ lastAdjustmentTime (ctl w') = 100.
Proof.
  cbn zeta.
  exact (applied_decision_moves_one_step
           (mkDecision 5 (-3) 70 true "Positive trend, optimizing speed")
           (tape [100; 200]) 0 constructor
           ltac:(vm_compute; split; [discriminate | reflexivity])
           ltac:(vm_compute; split; [discriminate | reflexivity])).
Defined.

(** ** Reset to defaults *)

(** X12. [resetToDefaults] does not bring back the constructed state. From
    every reachable world it returns after one [millis()] read with clock
    step 0 at 75 kHz and rise-time step 10 at 150 ns, pushed to
    [Wire.setClock] and saved as best configuration, with zeroed metrics,
    learning, adaptive mode and emergency recovery on, a cooldown of 5 s and
    an empty error ring; the constructor starts at 100 kHz and 125 ns (rise
    step 7). The device registry, the performance history and the device
    address are left as they were. *)
Theorem resetToDefaults_state w p n :
  reachable w ->
  exists w',
    resetToDefaults p n w = Some (tt, S n, w')
    /\ currentConfig (ctl w')
       = mkConfig 0 10 75000 150
           (set_lastUpdateTime (u32 (returned p n)) zeroMetrics) true
    /\ bestConfig (ctl w') = currentConfig (ctl w')
    /\ wireClock w' = 75000 :: wireClock w
    /\ (learningMode (ctl w'), adaptiveMode (ctl w'), emergencyRecovery (ctl w'),
        adjustmentCooldown (ctl w'), adaptationRate (ctl w'))
       = (true, true, true, 5000, 5)
    /\ (consecutiveErrors (ctl w'), lastError (ctl w'), errorHistory (ctl w'),
        errorHistoryIndex (ctl w'))
       = (0, ERROR_NONE, replicate 10 0, 0)
    /\ (deviceCount (ctl w'), deviceConfigs (ctl w'), historyIndex (ctl w'),
        performanceHistory (ctl w'), currentDeviceAddress (ctl w'))
       = (deviceCount (ctl w), deviceConfigs (ctl w), historyIndex (ctl w),
          performanceHistory (ctl w), currentDeviceAddress (ctl w))
    /\ (clockSpeed (currentConfig (ctl constructor)),
        riseTimeStep (currentConfig (ctl constructor)),
        riseTime (currentConfig (ctl constructor))) = (100000, 7, 125).
Proof.
  intros Hreach.
  pose proof (reachable_range_definitions w Hreach) as Hdef.
  assert (Hclock : calculateValueFromStep (clockSpeedRange w) 0 = 75000).
  { destruct Hdef as [Hc _].
    rewrite (calculateValueFromStep_same _ _ 0 Hc). vm_compute; reflexivity. }
  assert (Hrise : calculateValueFromStep (riseTimeRange w) 10 = 150).
  { destruct Hdef as [_ Hr].
    rewrite (calculateValueFromStep_same _ _ 10 Hr). vm_compute; reflexivity. }
  unfold resetToDefaults.
  unfold millis. unfold bind, modc, modify, platformRead, ret, getc.
  cbv beta iota.
  eexists. split; [reflexivity|].
  unfold applyConfiguration, loadRiseTime, loadClockSpeed,
    updateRiseTimeRange, updateClockSpeedRange.
  cbn [ctl upd_ctl set_ctl wireClock set_wireClock clockSpeedRange
       riseTimeRange set_clockSpeedRange set_riseTimeRange].
  change (DYNAMIC_RANGE_STEPS / 2) with 10.
  cbn [currentConfig upd_currentConfig set_currentConfig clockSpeedStep
       riseTimeStep set_riseTimeStep set_clockSpeedStep].
  rewrite !updateDynamicRange_value.
  change (0 <? DYNAMIC_RANGE_STEPS) with true.
  change (10 <? DYNAMIC_RANGE_STEPS) with true.
  cbv iota. rewrite Hclock, Hrise.
  assert (H16 : u16 150 = 150) by reflexivity. rewrite H16.
  split; [project_records; reflexivity|].
  split; [project_records; reflexivity|].
  split; [project_records; reflexivity|].
  split; [project_records; reflexivity|].
  split; [project_records; reflexivity|].
  split; [project_records; reflexivity|].
  vm_compute; reflexivity.
Qed.

Lemma resetToDefaults_state_witness :
  deviceCount (ctl two_devices) = 2
  /\ exists w',
       resetToDefaults (tape [777]) 0%nat two_devices = Some (tt, 1%nat, w')
       /\ currentConfig (ctl w')
          = mkConfig 0 10 75000 150
              (set_lastUpdateTime (u32 (returned (tape [777]) 0)) zeroMetrics)
              true
       /\ bestConfig (ctl w') = currentConfig (ctl w')
       /\ wireClock w' = 75000 :: wireClock two_devices
       /\ (learningMode (ctl w'), adaptiveMode (ctl w'),
           emergencyRecovery (ctl w'), adjustmentCooldown (ctl w'),
           adaptationRate (ctl w'))
          = (true, true, true, 5000, 5)
       /\ (consecutiveErrors (ctl w'), lastError (ctl w'),
           errorHistory (ctl w'), errorHistoryIndex (ctl w'))
          = (0, ERROR_NONE, replicate 10 0, 0)
       /\ (deviceCount (ctl w'), deviceConfigs (ctl w'), historyIndex (ctl w'),
           performanceHistory (ctl w'), currentDeviceAddress (ctl w'))
          = (deviceCount (ctl two_devices), deviceConfigs (ctl two_devices),
             historyIndex (ctl two_devices),
             performanceHistory (ctl two_devices),
             currentDeviceAddress (ctl two_devices))
       /\ (clockSpeed (currentConfig (ctl constructor)),
           riseTimeStep (currentConfig (ctl constructor)),
           riseTime (currentConfig (ctl constructor))) = (100000, 7, 125).
Proof.
  split; [vm_compute; reflexivity|].
  apply (resetToDefaults_state two_devices (tape [777]) 0).
  apply world_after_reachable.
Defined.

(** ** Testing a configuration *)

Lemma upd_metrics_twice m w :
  upd_ctl (upd_currentConfig (set_metrics m)) w
  = upd_ctl (upd_currentConfig (set_metrics m))
      (upd_ctl (upd_currentConfig (set_metrics (metrics (currentConfig (ctl w))))) w).
Proof. reflexivity. Qed.

(** One round within the tolerance: the device is pinged, the test is still
    passed, and only the metrics of the current configuration change. *)
Lemma test_step_tolerant e i p n w :
  0 <= e -> e + 1 <= 2 ->
  exists e' m,
    test_step (true, e) i p n w
    = Some ((true, e'), S n, upd_ctl (upd_currentConfig (set_metrics m)) w)
    /\ e <= e' <= e + 1.
Proof.
  intros He Hlen. unfold test_step, wireResult.
  unfold bind, modc, modify, platformRead, ret. cbv beta iota.
  destruct (u8 (returned p n) =? 0); cbn [negb]; cbv beta iota zeta.
  - eexists e, _. split; [reflexivity | lia].
  - rewrite (u8_small (e + 1)) by lia.
    destruct (Z.ltb_spec 2 (e + 1)) as [Hgt|_]; [lia|].
    eexists (e + 1), _. split; [reflexivity | lia].
Qed.

(** The test loop, as long as the error count stays within the tolerance:
    every device is pinged, the result is [true], and only the metrics of
    the current configuration change. *)
Lemma test_loop_tolerant (l : list nat) p :
  forall (e : Z) n w,
    0 <= e -> e + Z.of_nat (length l) <= 2 ->
    exists e' m,
      forEach test_step l (true, e) p n w
      = Some ((true, e'), (n + length l)%nat,
              upd_ctl (upd_currentConfig (set_metrics m)) w).
Proof.
  induction l as [|i l IH]; intros e n w He Hlen.
  - exists e, (metrics (currentConfig (ctl w))). cbn [forEach length].
    unfold ret. rewrite Nat.add_0_r. destruct w as [[[] ] ]; reflexivity.
  - cbn [length] in Hlen. cbn [forEach]. unfold bind.
    destruct (test_step_tolerant e i p n w He ltac:(lia))
      as (e1 & m1 & -> & He1).
    destruct (IH e1 (S n) (upd_ctl (upd_currentConfig (set_metrics m1)) w)
                ltac:(lia) ltac:(lia)) as (e' & m & ->).
    exists e', m. f_equal. f_equal. f_equal. cbn [length]. lia.
Qed.

(** X13. With at most two registered devices [testConfiguration] cannot
    fail: the loop gives up only at the third failed ping, so for valid
    steps and a registry of 0, 1 or 2 devices it returns [true] whatever the
    bus answers, having read [millis()] once and pinged every device, and
    leaves the tested configuration in place (steps as given, clock speed
    and rise time at their table values, the clock pushed to
    [Wire.setClock]); everything but the current configuration and the
    pushed clock is as before. *)
Theorem testConfiguration_needs_three_failures cs rs p n w :
  0 <= cs < DYNAMIC_RANGE_STEPS -> 0 <= rs < DYNAMIC_RANGE_STEPS ->
  0 <= deviceCount (ctl w) <= 2 ->
  exists w' m,
    testConfiguration cs rs p n w
    = Some (true, (S n + Z.to_nat (deviceCount (ctl w)))%nat, w')
    /\ currentConfig (ctl w')
       = mkConfig cs rs (calculateValueFromStep (clockSpeedRange w) cs)
           (u16 (calculateValueFromStep (riseTimeRange w) rs)) m
           (isValid (currentConfig (ctl w)))
    /\ wireClock w'
       = calculateValueFromStep (clockSpeedRange w) cs :: wireClock w
    /\ w' = set_wireClock (wireClock w')
              (upd_ctl (set_currentConfig (currentConfig (ctl w'))) w).
Proof.
  intros Hcs Hrs Hcount. unfold testConfiguration.
  assert (Hvalid : negb (isStepValid cs) || negb (isStepValid rs) = false).
  { unfold isStepValid. apply orb_false_iff.
    split; apply negb_false_iff, Z.ltb_lt; lia. }
  rewrite Hvalid. fold test_step.
  unfold millis. unfold bind at 1. unfold getc at 1.
  unfold bind at 1. unfold modify at 1.
  unfold bind at 1. unfold modc at 1, modify at 1.
  unfold bind at 1. unfold bind at 1. unfold platformRead at 1, ret at 1.
  unfold bind at 1. unfold modc at 1, modify at 1.
  unfold bind at 1. unfold modify at 1.
  unfold bind at 1. unfold getc at 1.
  unfold bind at 1.
  match goal with
  | |- context [forEach test_step _ (true, 0) p (S n) ?w1] => set (w2 := w1)
  end.
  assert (Hc2 : deviceCount (ctl w2) = deviceCount (ctl w)) by reflexivity.
  destruct (test_loop_tolerant (indices 0 (deviceCount (ctl w2))) p 0 (S n) w2
              ltac:(lia)) as (e' & m & Hloop).
  { rewrite Hc2. unfold indices. rewrite length_seq. lia. }
  rewrite Hc2 in Hloop |- *. rewrite Hloop.
  unfold indices. rewrite length_seq.
  cbn [fst]. rewrite Tauto.if_same. cbn [negb].
  unfold bind, ret.
  eexists _, m. split; [f_equal; f_equal; f_equal; lia|].
  unfold w2, applyConfiguration. cbn [ctl upd_ctl set_ctl wireClock set_wireClock].
  rewrite !currentConfig_upd_currentConfig.
  cbv [set_metrics upd_metrics set_riseTime set_clockSpeed set_riseTimeStep
       set_clockSpeedStep clockSpeedStep riseTimeStep clockSpeed riseTime
       metrics isValid].
  split; [reflexivity|]. split; [reflexivity|].
  unfold upd_ctl, set_ctl, set_wireClock, upd_currentConfig.
  cbn [ctl clockSpeedRange riseTimeRange wireClock].
  cbv [set_currentConfig currentConfig bestConfig performanceHistory
       deviceConfigs historyIndex consecutiveErrors deviceCount
       lastAdjustmentTime adjustmentCooldown lastErrorTime learningMode
       emergencyRecovery adaptiveMode performanceScore trendAnalysis
       adaptationRate currentDeviceAddress lastError errorHistory
       errorHistoryIndex].
  reflexivity.
Qed.

Lemma testConfiguration_needs_three_failures_witness :
  deviceCount (ctl two_devices) = 2
  /\ exists w' m,
       testConfiguration 19 0 (tape [0; 2; 2]) 0%nat two_devices
       = Some (true, (1 + Z.to_nat (deviceCount (ctl two_devices)))%nat, w')
       /\ currentConfig (ctl w')
          = mkConfig 19 0
              (calculateValueFromStep (clockSpeedRange two_devices) 19)
              (u16 (calculateValueFromStep (riseTimeRange two_devices) 0)) m
              (isValid (currentConfig (ctl two_devices)))
       /\ wireClock w'
          = calculateValueFromStep (clockSpeedRange two_devices) 19
            :: wireClock two_devices
       /\ w' = set_wireClock (wireClock w')
                 (upd_ctl (set_currentConfig (currentConfig (ctl w')))
                    two_devices).
Proof.
  split; [vm_compute; reflexivity|].
  apply (testConfiguration_needs_three_failures 19 0 (tape [0; 2; 2]) 0
           two_devices).
  - vm_compute. split; [discriminate | reflexivity].
  - vm_compute. split; [discriminate | reflexivity].
  - vm_compute. split; discriminate.
Defined.

(** ** One transaction *)

(** The device part only writes the registry. *)
Lemma record_device_registry success t a c :
  record_device success t a c
  = set_deviceCount (deviceCount (record_device success t a c))
      (set_deviceConfigs (deviceConfigs (record_device success t a c)) c).
Proof.
  unfold record_device, addDeviceConfig, upd_device.
  destruct c. repeat case_match; reflexivity.
Qed.

(** [endTransmission], once its three platform values are read. *)
Lemma endTransmission_reads p n w :
  endTransmission p n w
  = (updatePerformanceMetrics (u8 (returned p (S n)) =? 0)
       (u32 (u32 (returned p (S (S n))) - u32 (returned p n)))
       (currentDeviceAddress (ctl w)) >>
     (if negb (u8 (returned p (S n)) =? 0)
      then handleError (classifyError (u8 (returned p (S n))))
      else adjustIfDue) >>
     ret (u8 (returned p (S n)))) p (S (S (S n))) w.
Proof. reflexivity. Qed.

(** X14. The periodic decision is only taken at every fifth transaction: a
    successful [endTransmission] from a reachable world, with learning
    disabled or with the new number of transactions not a multiple of
    [PERFORMANCE_SAMPLES], returns 0 after four platform reads and leaves
    steps, clock speed and rise time of the current configuration, the best
    configuration, both ranges, the pushed clocks and the time of the last
    adjustment as they were. *)
Theorem decision_every_fifth_transaction p n w :
  reachable w ->
  u8 (returned p (S n)) = 0 ->
  (learningMode (ctl w) = false
   \/ u32 (u32 (successfulTransactions (metrics (currentConfig (ctl w))) + 1)
           + failedTransactions (metrics (currentConfig (ctl w))))
      mod PERFORMANCE_SAMPLES <> 0) ->
  exists w',
    endTransmission p n w = Some (0, (n + 4)%nat, w')
    /\ (clockSpeedStep (currentConfig (ctl w')),
        riseTimeStep (currentConfig (ctl w')),
        clockSpeed (currentConfig (ctl w')),
        riseTime (currentConfig (ctl w')))
       = (clockSpeedStep (currentConfig (ctl w)),
          riseTimeStep (currentConfig (ctl w)),
          clockSpeed (currentConfig (ctl w)),
          riseTime (currentConfig (ctl w)))
    /\ bestConfig (ctl w') = bestConfig (ctl w)
    /\ (clockSpeedRange w', riseTimeRange w', wireClock w')
       = (clockSpeedRange w, riseTimeRange w, wireClock w)
    /\ lastAdjustmentTime (ctl w') = lastAdjustmentTime (ctl w).
Proof.
  intros Hreach Hres Hquiet.
  pose proof (reachable_historyIndex w Hreach) as Hhist.
  rewrite endTransmission_reads, Hres. cbn [Z.eqb negb].
  unfold bind at 1.
  destruct (updatePerformanceMetrics_runs true
              (u32 (u32 (returned p (S (S n))) - u32 (returned p n)))
              (currentDeviceAddress (ctl w)) p (S (S (S n))) w Hhist)
    as (s & m' & -> & Hsucc & Hfail).
  set (t := u32 (u32 (returned p (S (S n))) - u32 (returned p n))) in *.
  set (a := currentDeviceAddress (ctl w)) in *.
  unfold upd_ctl at 1. cbv beta.
  rewrite (record_device_registry true t a (count_transaction true t (ctl w))).
  generalize (deviceCount (record_device true t a (count_transaction true t (ctl w)))),
    (deviceConfigs (record_device true t a (count_transaction true t (ctl w)))).
  intros count devs.
  unfold count_transaction in *.
  cbn [currentConfig set_consecutiveErrors upd_currentConfig set_currentConfig
       metrics upd_metrics set_metrics successfulTransactions
       failedTransactions set_totalTransactionTime set_successfulTransactions]
    in Hsucc, Hfail.
  unfold bind at 1. unfold adjustIfDue. unfold bind at 1. unfold getc at 1.
  cbn [ctl upd_ctl set_ctl].
  assert (Hlazy : learningMode (ctl w) && (
            (0 <? u32 (successfulTransactions m' + failedTransactions m'))
            && (u32 (successfulTransactions m' + failedTransactions m')
                  mod PERFORMANCE_SAMPLES =? 0)) = false).
  { rewrite Hsucc, Hfail. destruct Hquiet as [-> | Hmod]; [reflexivity|].
    apply Z.eqb_neq in Hmod. rewrite Hmod.
    now rewrite andb_false_r, andb_false_r. }
  match goal with
  | |- context [if ?b then _ else _] =>
      replace b with false by (symmetry; exact Hlazy)
  end.
  unfold ret. eexists. split; [repeat f_equal; lia|].
  cbn [ctl upd_ctl set_ctl]. repeat split.
Qed.

Lemma decision_every_fifth_transaction_witness :
  let p := tape (transaction_reads 0 500) in
  exists w',
    endTransmission p 0%nat constructor = Some (0, (0 + 4)%nat, w')
    /\ (clockSpeedStep (currentConfig (ctl w')),
        riseTimeStep (currentConfig (ctl w')),
        clockSpeed (currentConfig (ctl w')),
        riseTime (currentConfig (ctl w')))
       = (clockSpeedStep (currentConfig (ctl constructor)),
          riseTimeStep (currentConfig (ctl constructor)),
          clockSpeed (currentConfig (ctl constructor)),
          riseTime (currentConfig (ctl constructor)))
    /\ bestConfig (ctl w') = bestConfig (ctl constructor)
    /\ (clockSpeedRange w', riseTimeRange w', wireClock w')
       = (clockSpeedRange constructor, riseTimeRange constructor,
          wireClock constructor)
    /\ lastAdjustmentTime (ctl w') = lastAdjustmentTime (ctl constructor).
Proof.
  cbn zeta.
  apply (decision_every_fifth_transaction (tape (transaction_reads 0 500)) 0
           constructor).
  - exact reachable_constructor.
  - vm_compute; reflexivity.
  - right. vm_compute. discriminate.
Defined.

(** ** A failure the classification does not know *)

Lemma classifyError_unknown r : 5 <= r -> classifyError r = ERROR_NONE.
Proof.
  intros Hr. unfold classifyError.
  destruct (Z.eqb_spec r 1); [lia|]. destruct (Z.eqb_spec r 2); [lia|].
  destruct (Z.eqb_spec r 3); [lia|]. destruct (Z.eqb_spec r 4); [lia|].
  reflexivity.
Qed.

Lemma filter_length_le {A} (P Q : A -> Prop) `{forall x, Decision (P x)}
    `{forall x, Decision (Q x)} (l : list A) :
  (forall x, P x -> Q x) ->
  (length (filter P l) <= length (filter Q l))%nat.
Proof.
  intros HPQ. induction l as [|x l IH]; [reflexivity|].
  rewrite !filter_cons.
  destruct (decide (P x)) as [HP|HP], (decide (Q x)) as [HQ|HQ]; cbn; try lia.
  destruct (HQ (HPQ x HP)).
Qed.

(** Writing "no error" into a slot of the ring cannot raise the count. *)
Lemma recentErrors_clear_slot c c' i :
  errorHistory c' = <[i := 0]> (errorHistory c) ->
  recentErrors c' <= recentErrors c.
Proof.
  intros Hh. unfold recentErrors. rewrite Hh.
  apply inj_le, filter_length_le. intros j. unfold arr_get.
  destruct (decide (j = i)) as [->|Hne].
  - destruct (Nat.lt_ge_cases i (length (errorHistory c))) as [Hi|Hi].
    + rewrite list_lookup_insert_eq by assumption. cbn. congruence.
    + now rewrite list_insert_ge by lia.
  - now rewrite list_lookup_insert_ne by congruence.
Qed.

Ltac recorded_leaf :=
  split_pre;
  lazymatch goal with
  | H : error_recorded _ _ _ ?w |- error_recorded _ _ _ _ =>
      unfold error_recorded in *; destruct H as (? & ? & ?);
      unfold_pure; cbn; repeat (case_match; cbn);
      repeat split; assumption
  end.

Lemma handleError_records e failed h idx :
  ensures (fun w => failedTransactions (metrics (currentConfig (ctl w))) = failed
                    /\ errorHistory (ctl w) = h
                    /\ errorHistoryIndex (ctl w) = idx)
    (handleError e)
    (fun _ => error_recorded e failed
                (<[Z.to_nat idx := u8 (error_code e)]> h)).
Proof.
  unfold handleError.
  set (Inv := error_recorded e failed (<[Z.to_nat idx := u8 (error_code e)]> h)).
  apply ensures_bind
    with (Q := fun _ w => lastError (ctl w) = e
                 /\ failedTransactions (metrics (currentConfig (ctl w))) = failed
                 /\ errorHistory (ctl w) = h
                 /\ errorHistoryIndex (ctl w) = idx).
  { apply ensures_modify. intros w (Hf & Hh & Hi). repeat split; assumption. }
  intros _.
  apply ensures_bind
    with (Q := fun _ w => lastError (ctl w) = e
                 /\ failedTransactions (metrics (currentConfig (ctl w))) = failed
                 /\ errorHistory (ctl w) = h
                 /\ errorHistoryIndex (ctl w) = idx).
  { apply ensures_read; [tauto | auto]. }
  intros now.
  apply ensures_bind
    with (Q := fun _ w => lastError (ctl w) = e
                 /\ failedTransactions (metrics (currentConfig (ctl w))) = failed
                 /\ errorHistory (ctl w) = h
                 /\ errorHistoryIndex (ctl w) = idx).
  { apply ensures_modify. intros w (He & Hf & Hh & Hi). repeat split; assumption. }
  intros _.
  apply ensures_bind with (Q := fun _ => Inv).
  { apply ensures_modify. intros w (He & Hf & Hh & Hi).
    unfold Inv, error_recorded, updateErrorHistory. cbn.
    rewrite Hh, Hi. repeat split; assumption. }
  intros _. unfold Inv. unfold_run.
  repeat estep_with
    (error_recorded e failed (<[Z.to_nat idx := u8 (error_code e)]> h))
    recorded_leaf.
Qed.

Lemma bind_Some {A B} (m : M A) (k : A -> M B) p n w b n' w' :
  bind m k p n w = Some (b, n', w') ->
  exists a n1 w1, m p n w = Some (a, n1, w1) /\ k a p n1 w1 = Some (b, n', w').
Proof.
  unfold bind. destruct (m p n w) as [[[a n1] w1]|]; [|discriminate].
  intros H. now exists a, n1, w1.
Qed.

(** What a counted failure leaves of the error bookkeeping. *)
Lemma updatePerformanceMetrics_failure t a p n w :
  historyIndex (ctl w) < 3 ->
  exists w1,
    updatePerformanceMetrics false t a p n w = Some (tt, S n, w1)
    /\ failedTransactions (metrics (currentConfig (ctl w1)))
       = u32 (failedTransactions (metrics (currentConfig (ctl w))) + 1)
    /\ errorHistory (ctl w1) = errorHistory (ctl w)
    /\ errorHistoryIndex (ctl w1) = errorHistoryIndex (ctl w).
Proof.
  intros Hhist.
  destruct (updatePerformanceMetrics_runs false t a p n w Hhist)
    as (s & m' & Hupd & _ & Hfail).
  eexists. split; [exact Hupd|].
  cbn [ctl upd_ctl set_ctl].
  rewrite (record_device_registry false t a (count_transaction false t (ctl w))).
  generalize (deviceCount (record_device false t a (count_transaction false t (ctl w)))),
    (deviceConfigs (record_device false t a (count_transaction false t (ctl w)))).
  intros count devs. split; [exact Hfail|]. split; reflexivity.
Qed.

(** X15. A failed [endTransmission] whose [Wire] result is none of 1 to 4
    (5, the time-out of newer cores, for one) is counted but not
    recorded: from every reachable world the call returns that result with
    the failure counter one higher, while [lastError] becomes [ERROR_NONE]
    ([getLastErrorString] answers "No error") and the slot written in the
    error ring says "no error", so that the number of recent errors, and
    with it the recent error rate, does not go up. *)
Theorem unclassified_failure_not_recorded p n w :
  reachable w ->
  5 <= u8 (returned p (S n)) ->
  exists n' w',
    endTransmission p n w = Some (u8 (returned p (S n)), n', w')
    /\ failedTransactions (metrics (currentConfig (ctl w')))
       = u32 (failedTransactions (metrics (currentConfig (ctl w))) + 1)
    /\ lastError (ctl w') = ERROR_NONE
    /\ getLastErrorString (ctl w') = "No error"
    /\ recentErrors (ctl w') <= recentErrors (ctl w).
Proof.
  intros Hreach Hres.
  pose proof (reachable_historyIndex w Hreach) as Hhist.
  destruct (run_returns w OpEndTransmission p n Hreach) as (u & n' & w' & Hrun).
  cbn [run] in Hrun. unfold void in Hrun.
  apply bind_Some in Hrun as (r & n1 & w1 & Hend & _).
  clear u n' w'.
  rewrite endTransmission_reads in Hend |- *.
  assert (Hnz : (u8 (returned p (S n)) =? 0) = false) by (apply Z.eqb_neq; lia).
  rewrite Hnz in Hend |- *. cbn [negb] in Hend |- *.
  rewrite (classifyError_unknown _ Hres) in Hend |- *.
  apply bind_Some in Hend as (u1 & n2 & w2 & Hupd & Hend).
  apply bind_Some in Hend as (u2 & n3 & w3 & Hhandle & Hret).
  unfold ret in Hret. injection Hret as <- <- <-.
  destruct (updatePerformanceMetrics_failure
              (u32 (u32 (returned p (S (S n))) - u32 (returned p n)))
              (currentDeviceAddress (ctl w)) p (S (S (S n))) w Hhist)
    as (w2' & Hupd' & Hfail & Hring & Hidx).
  rewrite Hupd' in Hupd. injection Hupd as <- <- <-.
  destruct (handleError_records ERROR_NONE
              (failedTransactions (metrics (currentConfig (ctl w2'))))
              (errorHistory (ctl w2')) (errorHistoryIndex (ctl w2'))
              p (S (S (S (S n)))) w2' u2 n3 w3
              (conj eq_refl (conj eq_refl eq_refl)) Hhandle)
    as (Hlast & Hfailed & Hring').
  exists n3, w3. split.
  { unfold bind. rewrite Hupd', Hhandle. reflexivity. }
  split; [rewrite Hfailed; exact Hfail|].
  split; [exact Hlast|].
  split; [unfold getLastErrorString; now rewrite Hlast|].
  rewrite Hring in Hring'.
  exact (recentErrors_clear_slot _ _ _ Hring').
Qed.

Lemma unclassified_failure_not_recorded_witness :
  let w := after_failures 2 in
  let p := tape [0; 5; 300; 0; 0; 0] in
  recentErrors (ctl w) = 2
  /\ exists n' w',
       endTransmission p 0%nat w = Some (u8 (returned p 1), n', w')
       /\ failedTransactions (metrics (currentConfig (ctl w')))
          = u32 (failedTransactions (metrics (currentConfig (ctl w))) + 1)
       /\ lastError (ctl w') = ERROR_NONE
       /\ getLastErrorString (ctl w') = "No error"
       /\ recentErrors (ctl w') <= recentErrors (ctl w).
Proof.
  cbn zeta. split; [vm_compute; reflexivity|].
  apply (unclassified_failure_not_recorded (tape [0; 5; 300; 0; 0; 0]) 0
           (after_failures 2)).
  - apply world_after_reachable.
  - vm_compute. discriminate.
Defined.

(** ** Scanning the bus *)

Lemma registry_only_refl w : registry_only w w.
Proof. unfold registry_only. destruct w as [[] ? ? ?]. reflexivity. Qed.

Lemma registry_only_trans w1 w2 w3 :
  registry_only w1 w2 -> registry_only w2 w3 -> registry_only w1 w3.
Proof.
  unfold registry_only. intros H12 H23. rewrite H23 at 1. rewrite H12 at 1.
  reflexivity.
Qed.

Lemma registry_only_addDeviceConfig a w :
  registry_only w (upd_ctl (addDeviceConfig a) w).
Proof.
  unfold registry_only, upd_ctl. cbn [ctl set_ctl]. unfold addDeviceConfig.
  destruct (deviceCount (ctl w) <? MAX_DEVICES);
    destruct w as [[] ? ? ?]; reflexivity.
Qed.

Lemma scan_step_runs found i p n w :
  exists w',
    scan_step found i p n w
    = Some (if u8 (returned p n) =? 0 then u8 (found + 1) else found, S n, w')
    /\ registry_only w w'.
Proof.
  unfold scan_step, wireResult. cbv zeta.
  unfold bind at 1. unfold bind at 1. unfold platformRead, ret at 1.
  destruct (u8 (returned p n) =? 0).
  - unfold bind at 1. unfold getc at 1. unfold bind at 1.
    destruct (findDeviceConfig (ctl w) (Z.of_nat i)).
    + exists w. split; [reflexivity | apply registry_only_refl].
    + exists (upd_ctl (addDeviceConfig (Z.of_nat i)) w).
      split; [reflexivity | apply registry_only_addDeviceConfig].
  - exists w. split; [reflexivity | apply registry_only_refl].
Qed.

Lemma acknowledged_S p n k :
  acknowledged p n (S k)
  = (if u8 (returned p n) =? 0 then 1 else 0) + acknowledged p (S n) k.
Proof.
  unfold acknowledged. cbn [seq]. rewrite filter_cons.
  destruct (Z.eqb_spec (u8 (returned p n)) 0) as [Hz|Hnz].
  - rewrite decide_True by assumption. cbn [length]. lia.
  - rewrite decide_False by assumption. lia.
Qed.

Lemma acknowledged_range p n k : 0 <= acknowledged p n k <= Z.of_nat k.
Proof.
  unfold acknowledged. split; [lia|].
  pose proof (length_filter (fun j => u8 (returned p j) = 0) (seq n k)) as H.
  rewrite length_seq in H. lia.
Qed.

Lemma scan_loop_runs (l : list nat) p :
  forall found n w,
    0 <= found -> found + Z.of_nat (length l) < 256 ->
    exists w',
      forEach scan_step l found p n w
      = Some (found + acknowledged p n (length l), (n + length l)%nat, w')
      /\ registry_only w w'.
Proof.
  induction l as [|i l IH]; intros found n w Hfound Hlen.
  - exists w. cbn [forEach length]. unfold ret, acknowledged. cbn.
    rewrite Nat.add_0_r, Z.add_0_r. split; [reflexivity | apply registry_only_refl].
  - cbn [length] in Hlen. cbn [forEach length]. unfold bind.
    destruct (scan_step_runs found i p n w) as (w1 & -> & Hw1).
    pose proof (acknowledged_range p (S n) (length l)) as Hack.
    rewrite acknowledged_S.
    destruct (u8 (returned p n) =? 0).
    + rewrite (u8_small (found + 1)) by lia.
      destruct (IH (found + 1) (S n) w1 ltac:(lia) ltac:(lia))
        as (w' & -> & Hw').
      exists w'. split; [|exact (registry_only_trans _ _ _ Hw1 Hw')].
      f_equal. f_equal. f_equal; lia.
    + destruct (IH found (S n) w1 ltac:(lia) ltac:(lia)) as (w' & -> & Hw').
      exists w'. split; [|exact (registry_only_trans _ _ _ Hw1 Hw')].
      f_equal. f_equal. f_equal; lia.
Qed.

(** [scanBus] as a function of the world and the tape. *)
Lemma scanBus_runs p n w :
  exists w',
    scanBus p n w = Some (acknowledged p n 126, (n + 126)%nat, w')
    /\ 0 <= acknowledged p n 126 <= 126
    /\ registry_only w w'.
Proof.
  unfold scanBus. fold scan_step.
  destruct (scan_loop_runs (indices 1 127) p 0 n w ltac:(lia))
    as (w' & Hrun & Hw').
  { vm_compute. reflexivity. }
  exists w'. rewrite Hrun.
  split; [reflexivity|]. split; [|exact Hw'].
  exact (acknowledged_range p n 126).
Qed.

(** X16. [scanBus] always returns, after exactly 126 pings (addresses 1 to
    126, one platform value each), with the number of addresses that
    acknowledged, and changes nothing but the device registry: the current
    and best configuration, both ranges, the pushed clocks, all counters
    and flags are as before. *)
Theorem scanBus_counts_acknowledgements p n w :
  exists w',
    scanBus p n w = Some (acknowledged p n 126, (n + 126)%nat, w')
    /\ 0 <= acknowledged p n 126 <= 126
    /\ registry_only w w'.
Proof. exact (scanBus_runs p n w). Qed.

(** ** Every operation returns *)

(** X17. From every reachable world every public operation returns,
    whatever the platform answers and however shallow the stack: no
    snapshot is ever recorded, so the mutual recursion of
    [calculatePerformanceScore] and [calculateStabilityScore] is never
    entered, and the world the operation returns is reachable again. *)
Theorem every_operation_returns w op p n :
  reachable w ->
  exists r n' w', run op p n w = Some (r, n', w') /\ reachable w'.
Proof.
  intros Hreach.
  destruct (run_returns w op p n Hreach) as (r & n' & w' & Hrun).
  exists r, n', w'. split; [exact Hrun|].
  exact (reachable_run p op n w r n' w' Hreach Hrun).
Qed.

Lemma every_operation_returns_witness :
  exists r n' w',
    run OpScanAndOptimize (mkPlatform (fun _ => 0) 0) 0%nat (after_failures 3)
    = Some (r, n', w')
    /\ reachable w'.
Proof.
  apply (every_operation_returns (after_failures 3) OpScanAndOptimize
           (mkPlatform (fun _ => 0) 0) 0).
  apply world_after_reachable.
Defined.

(** ** Setting a value the library reports *)

Lemma nth_all_steps s :
  0 <= s < DYNAMIC_RANGE_STEPS -> nth (Z.to_nat s) all_steps 0 = s.
Proof.
  unfold DYNAMIC_RANGE_STEPS. intros Hs.
  assert (H : exists k : nat, (k < 20)%nat /\ s = Z.of_nat k)
    by (exists (Z.to_nat s); lia).
  destruct H as (k & Hk & ->). rewrite Nat2Z.id.
  do 20 (destruct k as [|k]; [reflexivity|]). lia.
Qed.

Lemma steps_back_nth r s :
  0 <= s < DYNAMIC_RANGE_STEPS ->
  calculateStepFromValue r (calculateValueFromStep r s)
  = nth (Z.to_nat s) (steps_back r) 0.
Proof.
  intros Hs. unfold steps_back.
  assert (Hlen : (Z.to_nat s < length all_steps)%nat)
    by (unfold DYNAMIC_RANGE_STEPS in Hs; cbn; lia).
  rewrite (nth_indep _ 0 (calculateStepFromValue r (calculateValueFromStep r 0)))
    by (now rewrite length_map).
  rewrite (map_nth (fun s => calculateStepFromValue r (calculateValueFromStep r s))
             all_steps 0).
  now rewrite nth_all_steps.
Qed.

Lemma steps_back_same r r0 :
  same_definition r r0 -> steps_back r = steps_back r0.
Proof.
  intros Hsame. unfold steps_back. apply map_ext. intros s.
  rewrite (calculateValueFromStep_same r r0 s Hsame).
  apply calculateStepFromValue_same, Hsame.
Qed.

Lemma setClockSpeed_step v w :
  clockSpeedStep (currentConfig (ctl (setClockSpeed v w)))
  = calculateStepFromValue (clockSpeedRange w) v.
Proof.
  unfold setClockSpeed.
  pose proof (calculateStepFromValue_range (clockSpeedRange w) v) as Hs.
  unfold isStepValid. destruct (Z.ltb_spec
    (calculateStepFromValue (clockSpeedRange w) v) DYNAMIC_RANGE_STEPS); [|lia].
  reflexivity.
Qed.

Lemma setRiseTime_step v w :
  riseTimeStep (currentConfig (ctl (setRiseTime v w)))
  = calculateStepFromValue (riseTimeRange w) v.
Proof.
  unfold setRiseTime.
  pose proof (calculateStepFromValue_range (riseTimeRange w) v) as Hs.
  unfold isStepValid. destruct (Z.ltb_spec
    (calculateStepFromValue (riseTimeRange w) v) DYNAMIC_RANGE_STEPS); [|lia].
  reflexivity.
Qed.

(** X18. Setting a value the library itself reports loses a step: in every
    reachable world, [setClockSpeed] on the clock speed of step [s] lands on
    step [s - 1], except at steps 0, 6, 12, 13 and 19 where it lands on [s];
    and
    [setRiseTime] on the rise time of step [s] lands on [s - 1] except at
    steps 0 and 19. The truncated table value converts back to the step
    below, so [setClockSpeed(getClockSpeed())] slows the bus down. *)
Theorem reported_value_loses_a_step w s :
  reachable w ->
  0 <= s < DYNAMIC_RANGE_STEPS ->
  clockSpeedStep (currentConfig (ctl
    (setClockSpeed (calculateValueFromStep (clockSpeedRange w) s) w)))
  = (if (s =? 0) || (s =? 6) || (s =? 12) || (s =? 13) || (s =? 19)
     then s else s - 1)
  /\ riseTimeStep (currentConfig (ctl
       (setRiseTime (calculateValueFromStep (riseTimeRange w) s) w)))
     = (if (s =? 0) || (s =? 19) then s else s - 1).
Proof.
  intros Hreach Hs.
  destruct (reachable_range_definitions w Hreach) as [Hc Hr].
  rewrite setClockSpeed_step, setRiseTime_step.
  rewrite !steps_back_nth by assumption.
  rewrite (steps_back_same _ _ Hc), (steps_back_same _ _ Hr).
  assert (Hclock : steps_back (clockSpeedRange constructor)
                   = [0; 0; 1; 2; 3; 4; 6; 6; 7; 8; 9; 10; 12; 13; 13; 14; 15;
                      16; 17; 19]) by (vm_compute; reflexivity).
  assert (Hrise : steps_back (riseTimeRange constructor)
                  = [0; 0; 1; 2; 3; 4; 5; 6; 7; 8; 9; 10; 11; 12; 13; 14; 15;
                     16; 17; 19]) by (vm_compute; reflexivity).
  rewrite Hclock, Hrise. unfold DYNAMIC_RANGE_STEPS in Hs.
  assert (H : exists k : nat, (k < 20)%nat /\ s = Z.of_nat k)
    by (exists (Z.to_nat s); lia).
  destruct H as (k & Hk & ->). rewrite Nat2Z.id.
  do 20 (destruct k as [|k]; [split; reflexivity|]). lia.
Qed.

Lemma reported_value_loses_a_step_witness :
  calculateValueFromStep (clockSpeedRange two_devices) 5 = 976315
  /\ clockSpeedStep (currentConfig (ctl
       (setClockSpeed (calculateValueFromStep (clockSpeedRange two_devices) 5)
          two_devices)))
     = (if (5 =? 0) || (5 =? 6) || (5 =? 12) || (5 =? 13) || (5 =? 19)
        then 5 else 5 - 1)
  /\ riseTimeStep (currentConfig (ctl
       (setRiseTime (calculateValueFromStep (riseTimeRange two_devices) 5)
          two_devices)))
     = (if (5 =? 0) || (5 =? 19) then 5 else 5 - 1).
Proof.
  split; [vm_compute; reflexivity|].
  apply (reported_value_loses_a_step two_devices 5).
  - apply world_after_reachable.
  - vm_compute. split; [discriminate | reflexivity].
Defined.

(** ** The adaptive tier after three failures *)

Lemma recentErrors_slots c (l : list nat) :
  NoDup l ->
  (forall i, i ∈ l -> (i < 10)%nat /\ arr_get 0 (errorHistory c) i <> 0) ->
  Z.of_nat (length l) <= recentErrors c.
Proof.
  intros Hnd Hl. unfold recentErrors. apply inj_le.
  apply submseteq_length, NoDup_submseteq; [exact Hnd|].
  intros i Hi. destruct (Hl i Hi) as [Hlt Hnz].
  apply list_elem_of_filter. split; [exact Hnz|].
  unfold indices. apply elem_of_seq. cbn. lia.
Qed.

(** [handleError] below the threshold only records the error. *)
Lemma handleError_below e p n w :
  consecutiveErrors (ctl w) < ERROR_THRESHOLD ->
  handleError e p n w = Some (tt, S n, recordError e (u32 (returned p n)) w).
Proof.
  intros Hk. apply Z.leb_gt in Hk.
  unfold handleError, bind, millis, platformRead, getc, ret, modc, modify.
  cbn. now rewrite Hk.
Qed.

(** At the threshold, with the emergency tier disabled and adaptive mode on,
    [handleError] runs the adaptive tier on the recorded error. *)
Lemma handleError_adaptive e p n w :
  ERROR_THRESHOLD <= consecutiveErrors (ctl w) ->
  emergencyRecovery (ctl w) = false -> adaptiveMode (ctl w) = true ->
  handleError e p n w
  = adaptiveRecovery p (S n) (recordError e (u32 (returned p n)) w).
Proof.
  intros Hk He Ha. apply Z.leb_le in Hk.
  unfold handleError, bind, millis, platformRead, getc, ret, modc, modify.
  cbn. now rewrite Hk, He, Ha.
Qed.

Lemma emergencyRecoveryProcedure_settings p n w :
  exists w', emergencyRecoveryProcedure p n w = Some (tt, S n, w')
             /\ emergency_settings w'
             /\ consecutiveErrors (ctl w') = 0
             /\ emergencyRecovery (ctl w') = emergencyRecovery (ctl w).
Proof.
  eexists. split; [reflexivity|]. unfold emergency_settings.
  repeat split.
Qed.

Lemma error_code_classified r :
  1 <= r <= 4 -> u8 (error_code (classifyError r)) = r.
Proof.
  intros Hr.
  assert (H : r = 1 \/ r = 2 \/ r = 3 \/ r = 4) by lia.
  destruct H as [-> | [-> | [-> | ->]]]; reflexivity.
Qed.

(** What a failed [endTransmission] leaves of the error bookkeeping, once
    the metrics are updated and before [handleError] runs. *)
Lemma updatePerformanceMetrics_failed t a p n w :
  historyIndex (ctl w) < 3 ->
  exists w1,
    updatePerformanceMetrics false t a p n w = Some (tt, S n, w1)
    /\ consecutiveErrors (ctl w1) = u8 (consecutiveErrors (ctl w) + 1)
    /\ errorHistory (ctl w1) = errorHistory (ctl w)
    /\ errorHistoryIndex (ctl w1) = errorHistoryIndex (ctl w)
    /\ emergencyRecovery (ctl w1) = emergencyRecovery (ctl w)
    /\ adaptiveMode (ctl w1) = adaptiveMode (ctl w).
Proof.
  intros Hhist.
  destruct (updatePerformanceMetrics_runs false t a p n w Hhist)
    as (s & m' & Hupd & _ & _).
  eexists. split; [exact Hupd|].
  cbn [ctl upd_ctl set_ctl].
  rewrite (record_device_registry false t a (count_transaction false t (ctl w))).
  generalize (deviceCount (record_device false t a (count_transaction false t (ctl w)))),
    (deviceConfigs (record_device false t a (count_transaction false t (ctl w)))).
  intros count devs. repeat split.
Qed.

Lemma endTransmission_reachable p n w r n' w' :
  reachable w -> endTransmission p n w = Some (r, n', w') -> reachable w'.
Proof.
  intros Hreach Hrun.
  apply (reachable_run p OpEndTransmission n w tt n' w' Hreach).
  cbn [run]. unfold void, bind. now rewrite Hrun.
Qed.

(** A failed [endTransmission] with a classified result, in terms of the
    error bookkeeping before and after. *)
Lemma failed_endTransmission_bookkeeping p n w r n' w' :
  reachable w ->
  endTransmission p n w = Some (r, n', w') -> 1 <= r <= 4 ->
  exists w1,
    handleError (classifyError r) p (S (S (S (S n)))) w1 = Some (tt, n', w')
    /\ consecutiveErrors (ctl w1) = u8 (consecutiveErrors (ctl w) + 1)
    /\ errorHistory (ctl w1) = errorHistory (ctl w)
    /\ errorHistoryIndex (ctl w1) = errorHistoryIndex (ctl w)
    /\ emergencyRecovery (ctl w1) = emergencyRecovery (ctl w)
    /\ adaptiveMode (ctl w1) = adaptiveMode (ctl w).
Proof.
  intros Hreach Hend Hr.
  pose proof (reachable_historyIndex w Hreach) as Hhist.
  rewrite endTransmission_reads in Hend.
  apply bind_Some in Hend as (u1 & n2 & w2 & Hupd & Hend).
  apply bind_Some in Hend as (u2 & n3 & w3 & Hhandle & Hret).
  unfold ret in Hret. injection Hret as <- <- <-.
  destruct (updatePerformanceMetrics_failed
              (u32 (u32 (returned p (S (S n))) - u32 (returned p n)))
              (currentDeviceAddress (ctl w)) p (S (S (S n))) w Hhist)
    as (w1 & Hupd' & Hfacts).
  assert (Hnz : (u8 (returned p (S n)) =? 0) = false) by (apply Z.eqb_neq; lia).
  rewrite Hnz in Hupd, Hhandle. cbn [negb] in Hhandle.
  rewrite Hupd' in Hupd. injection Hupd as <- <- <-.
  destruct u2. exists w1. split; [exact Hhandle | exact Hfacts].
Qed.

Lemma recordError_bookkeeping e now w :
  consecutiveErrors (ctl (recordError e now w)) = consecutiveErrors (ctl w)
  /\ errorHistory (ctl (recordError e now w))
     = <[Z.to_nat (errorHistoryIndex (ctl w)) := u8 (error_code e)]>
         (errorHistory (ctl w))
  /\ errorHistoryIndex (ctl (recordError e now w))
     = u8 ((errorHistoryIndex (ctl w) + 1) mod 10)
  /\ emergencyRecovery (ctl (recordError e now w)) = emergencyRecovery (ctl w)
  /\ adaptiveMode (ctl (recordError e now w)) = adaptiveMode (ctl w).
Proof. repeat split. Qed.

(** Closes [3 <= recentErrors c] from the three slots [l] of the ring
    [Hring] that hold an error. *)
Ltac slots_recorded c l Hring :=
  apply (recentErrors_slots c l);
  [ compute_done
  | let i := fresh "i" in
    let Hi := fresh "Hi" in
    intros i Hi; rewrite Hring;
    repeat (apply elem_of_cons in Hi as [-> | Hi]);
    [ | | | inversion Hi ]; (split; [lia | assumption]) ].

(** Three errors written to consecutive slots of the ring are three recent
    errors. *)
Lemma three_slots_recorded (ring : list Z) (idx c1 c2 c3 : Z) c :
  length ring = 10%nat -> 0 <= idx < 10 ->
  c1 <> 0 -> c2 <> 0 -> c3 <> 0 ->
  errorHistory c
  = <[Z.to_nat (u8 ((u8 ((idx + 1) mod 10) + 1) mod 10)) := c3]>
      (<[Z.to_nat (u8 ((idx + 1) mod 10)) := c2]>
         (<[Z.to_nat idx := c1]> ring)) ->
  3 <= recentErrors c.
Proof.
  intros Hlen Hidx H1 H2 H3 Hring.
  do 10 (destruct ring as [|? ring]; [discriminate Hlen|]).
  destruct ring; [|discriminate Hlen]. clear Hlen.
  assert (Hcases : idx = 0 \/ idx = 1 \/ idx = 2 \/ idx = 3 \/ idx = 4
                   \/ idx = 5 \/ idx = 6 \/ idx = 7 \/ idx = 8 \/ idx = 9)
    by lia.
  destruct Hcases as [-> | [-> | [-> | [-> | [-> | [-> | [-> | [-> | [-> | ->]]]]]]]]];
    cbn in Hring.
  - slots_recorded c [0; 1; 2]%nat Hring.
  - slots_recorded c [1; 2; 3]%nat Hring.
  - slots_recorded c [2; 3; 4]%nat Hring.
  - slots_recorded c [3; 4; 5]%nat Hring.
  - slots_recorded c [4; 5; 6]%nat Hring.
  - slots_recorded c [5; 6; 7]%nat Hring.
  - slots_recorded c [6; 7; 8]%nat Hring.
  - slots_recorded c [7; 8; 9]%nat Hring.
  - slots_recorded c [8; 9; 0]%nat Hring.
  - slots_recorded c [9; 0; 1]%nat Hring.
Qed.

(** X19. Disabling emergency recovery does not keep the emergency
    procedure away in adaptive mode: from a reachable world with no pending
    failure, emergency recovery disabled and adaptive mode on, three
    [endTransmission] calls in a row that fail with a classified result (1
    to 4) fill three slots of the error ring, the adaptive tier finds the
    recent error rate above 20 and hands over to
    [emergencyRecoveryProcedure]: clock step 0, rise-time step 19, learning
    disabled, cooldown 15000 ms. *)
Theorem adaptive_tier_escalates
    w0 p1 n1 r1 n1' w1 p2 n2 r2 n2' w2 p3 n3 r3 n3' w3 :
  reachable w0 ->
  consecutiveErrors (ctl w0) = 0 ->
  emergencyRecovery (ctl w0) = false ->
  adaptiveMode (ctl w0) = true ->
  endTransmission p1 n1 w0 = Some (r1, n1', w1) -> 1 <= r1 <= 4 ->
  endTransmission p2 n2 w1 = Some (r2, n2', w2) -> 1 <= r2 <= 4 ->
  endTransmission p3 n3 w2 = Some (r3, n3', w3) -> 1 <= r3 <= 4 ->
  emergency_settings w3
  /\ consecutiveErrors (ctl w3) = 0
  /\ emergencyRecovery (ctl w3) = false.
Proof.
  intros Hreach0 Hk0 He0 Ha0 Hend1 Hr1 Hend2 Hr2 Hend3 Hr3.
  pose proof (endTransmission_reachable _ _ _ _ _ _ Hreach0 Hend1) as Hreach1.
  pose proof (endTransmission_reachable _ _ _ _ _ _ Hreach1 Hend2) as Hreach2.
  destruct (reachable_tuning_ok w0 Hreach0) as (_ & Hlen & Hidx).
  (* the first failure *)
  destruct (failed_endTransmission_bookkeeping _ _ _ _ _ _ Hreach0 Hend1 Hr1)
    as (v1 & Hh1 & Hk1 & Hring1 & Hidx1 & He1 & Ha1).
  rewrite Hk0 in Hk1. change (u8 (0 + 1)) with 1 in Hk1.
  rewrite handleError_below in Hh1 by (rewrite Hk1; unfold ERROR_THRESHOLD; lia).
  injection Hh1 as _ Hw1.
  destruct (recordError_bookkeeping (classifyError r1)
              (u32 (returned p1 (S (S (S (S n1)))))) v1)
    as (Hk1' & Hring1' & Hidx1' & He1' & Ha1').
  rewrite Hw1 in *. clear Hw1.
  rewrite Hk1 in Hk1'. rewrite Hring1, Hidx1, (error_code_classified r1 Hr1) in Hring1'.
  rewrite Hidx1 in Hidx1'. rewrite He1, He0 in He1'. rewrite Ha1, Ha0 in Ha1'.
  clear v1 Hk1 Hring1 Hidx1 He1 Ha1.
  (* the second failure *)
  destruct (failed_endTransmission_bookkeeping _ _ _ _ _ _ Hreach1 Hend2 Hr2)
    as (v2 & Hh2 & Hk2 & Hring2 & Hidx2 & He2 & Ha2).
  rewrite Hk1' in Hk2. change (u8 (1 + 1)) with 2 in Hk2.
  rewrite handleError_below in Hh2 by (rewrite Hk2; unfold ERROR_THRESHOLD; lia).
  injection Hh2 as _ Hw2.
  destruct (recordError_bookkeeping (classifyError r2)
              (u32 (returned p2 (S (S (S (S n2)))))) v2)
    as (Hk2' & Hring2' & Hidx2' & He2' & Ha2').
  rewrite Hw2 in *. clear Hw2.
  rewrite Hk2 in Hk2'.
  rewrite Hring2, Hidx2, Hring1', Hidx1', (error_code_classified r2 Hr2) in Hring2'.
  rewrite Hidx2, Hidx1' in Hidx2'. rewrite He2, He1' in He2'. rewrite Ha2, Ha1' in Ha2'.
  clear v2 Hk2 Hring2 Hidx2 He2 Ha2.
  (* the third failure reaches the threshold *)
  destruct (failed_endTransmission_bookkeeping _ _ _ _ _ _ Hreach2 Hend3 Hr3)
    as (v3 & Hh3 & Hk3 & Hring3 & Hidx3 & He3 & Ha3).
  rewrite Hk2' in Hk3. change (u8 (2 + 1)) with 3 in Hk3.
  rewrite He2' in He3. rewrite Ha2' in Ha3.
  rewrite handleError_adaptive in Hh3
    by (first [rewrite Hk3; unfold ERROR_THRESHOLD; lia | assumption]).
  set (v3' := recordError (classifyError r3)
                (u32 (returned p3 (S (S (S (S n3)))))) v3) in *.
  destruct (recordError_bookkeeping (classifyError r3)
              (u32 (returned p3 (S (S (S (S n3)))))) v3)
    as (_ & Hring3' & _ & He3' & _).
  fold v3' in Hring3', He3'.
  rewrite Hring3, Hidx3, Hring2', Hidx2', (error_code_classified r3 Hr3) in Hring3'.
  rewrite He3 in He3'.
  assert (Hrecent : 3 <= recentErrors (ctl v3')).
  { apply (three_slots_recorded (errorHistory (ctl w0))
             (errorHistoryIndex (ctl w0)) r1 r2 r3);
      [exact Hlen | exact Hidx | lia | lia | lia | exact Hring3']. }
  rewrite adaptiveRecovery_escalates in Hh3.
  2:{ destruct (getRecentErrorRate_thresholds (ctl v3')) as (_ & _ & ->).
      now apply Z.leb_le. }
  destruct (emergencyRecoveryProcedure_settings p3 (S (S (S (S (S n3))))) v3')
    as (w3' & Hrun & Hset & Hzero & Hflag).
  rewrite Hrun in Hh3. injection Hh3 as _ <-.
  split; [exact Hset|]. split; [exact Hzero|]. now rewrite Hflag.
Qed.

Lemma adaptive_tier_escalates_witness :
  let w0 := world_after (tape []) [OpEnableEmergencyRecovery false] in
  let p := three_failures_tape in
  let w1 := run_from p 0 w0 [OpEndTransmission] in
  let w2 := run_from p 5 w1 [OpEndTransmission] in
  let w3 := run_from p 10 w2 [OpEndTransmission] in
  endTransmission p 0%nat w0 = Some (2, 5%nat, w1)
  /\ endTransmission p 5%nat w1 = Some (2, 10%nat, w2)
  /\ endTransmission p 10%nat w2 = Some (2, 16%nat, w3)
  /\ emergency_settings w3
  /\ consecutiveErrors (ctl w3) = 0
  /\ emergencyRecovery (ctl w3) = false.
Proof.
  cbn zeta.
  set (w0 := world_after (tape []) [OpEnableEmergencyRecovery false]).
  set (w1 := run_from three_failures_tape 0 w0 [OpEndTransmission]).
  set (w2 := run_from three_failures_tape 5 w1 [OpEndTransmission]).
  set (w3 := run_from three_failures_tape 10 w2 [OpEndTransmission]).
  assert (H1 : endTransmission three_failures_tape 0%nat w0 = Some (2, 5%nat, w1))
    by (vm_compute; reflexivity).
  assert (H2 : endTransmission three_failures_tape 5%nat w1 = Some (2, 10%nat, w2))
    by (vm_compute; reflexivity).
  assert (H3 : endTransmission three_failures_tape 10%nat w2 = Some (2, 16%nat, w3))
    by (vm_compute; reflexivity).
  split; [exact H1|]. split; [exact H2|]. split; [exact H3|].
  apply (adaptive_tier_escalates w0 three_failures_tape 0 2 5 w1
           three_failures_tape 5 2 10 w2 three_failures_tape 10 2 16 w3).
  - apply world_after_reachable.
  - vm_compute; reflexivity.
  - vm_compute; reflexivity.
  - vm_compute; reflexivity.
  - exact H1.
  - lia.
  - exact H2.
  - lia.
  - exact H3.
  - lia.
Defined.

(** ** Optimising over a healthy bus *)

Lemma acks_S p n k :
  acks p n (S k) -> u8 (returned p n) = 0 /\ acks p (S n) k.
Proof.
  intros H. split.
  - rewrite <- (Nat.add_0_r n). apply H. lia.
  - intros i Hi. replace (S n + i)%nat with (n + S i)%nat by lia. apply H. lia.
Qed.

Lemma tests_acked_S p n d k :
  tests_acked p n d (S k) ->
  acks p (S n) d /\ tests_acked p (n + (d + 1)) d k.
Proof.
  intros H. split.
  - intros i Hi. specialize (H 0%nat ltac:(lia) i Hi).
    replace (S n + i)%nat with (n + (d + 1) * 0 + 1 + i)%nat by lia. exact H.
  - intros j Hj i Hi. specialize (H (S j) ltac:(lia) i Hi).
    replace (n + (d + 1) + (d + 1) * j + 1 + i)%nat
      with (n + (d + 1) * S j + 1 + i)%nat by lia.
    exact H.
Qed.

Lemma tests_acked_app p n d k1 k2 :
  tests_acked p n d (k1 + k2) ->
  tests_acked p n d k1 /\ tests_acked p (n + (d + 1) * k1) d k2.
Proof.
  intros H. split.
  - intros j Hj. apply H. lia.
  - intros j Hj i Hi. specialize (H (k1 + j)%nat ltac:(lia) i Hi).
    replace (n + (d + 1) * k1 + (d + 1) * j + 1 + i)%nat
      with (n + (d + 1) * (k1 + j) + 1 + i)%nat by lia.
    exact H.
Qed.

Lemma forEach_cons {A X} (body : A -> X -> M A) x l a :
  forEach body (x :: l) a = (let* a' := body a x in forEach body l a').
Proof. reflexivity. Qed.

(** *** The scan fills the registry *)

(** An entry stays where it is when another address is registered. *)
Lemma findDeviceConfig_addDeviceConfig_other c a b i :
  registry_ok c -> findDeviceConfig c a = None ->
  findDeviceConfig c b = Some i ->
  findDeviceConfig (addDeviceConfig a c) b = Some i.
Proof.
  intros Hok Hnone Hsome. pose proof Hok as (Hc & Hl & _).
  apply findDeviceConfig_Some in Hsome as (Hi & Hb & _).
  destruct (Z.lt_ge_cases (deviceCount c) MAX_DEVICES) as [Hroom|Hfull].
  - apply findDeviceConfig_registered;
      [now apply registry_ok_addDeviceConfig | |];
      rewrite addDeviceConfig_room by lia.
    + cbn. lia.
    + change (device (set_deviceCount (deviceCount c + 1) ?x)) with (device x).
      unfold MAX_DEVICES in *.
      rewrite device_set_insert by lia.
      destruct (decide (i = Z.to_nat (deviceCount c))); [lia | exact Hb].
  - rewrite addDeviceConfig_full by lia.
    apply findDeviceConfig_registered; assumption.
Qed.

(** A registry cannot hold 17 addresses. *)
Lemma registry_capacity c (l : list nat) :
  registry_ok c -> NoDup l ->
  Forall (fun a => findDeviceConfig c (Z.of_nat a) <> None) l ->
  (length l <= 16)%nat.
Proof.
  intros (Hc & _ & _) Hnodup Hall. unfold MAX_DEVICES in Hc.
  set (slot := fun a : nat => default 0%nat (findDeviceConfig c (Z.of_nat a))).
  assert (Hslot : forall a, a ∈ l ->
            Z.of_nat (slot a) < deviceCount c
            /\ address (device c (slot a)) = Z.of_nat a).
  { intros a Ha. rewrite Forall_forall in Hall. specialize (Hall a Ha).
    unfold slot. destruct (findDeviceConfig c (Z.of_nat a)) as [i|] eqn:Hfind;
      [|contradiction].
    apply findDeviceConfig_Some in Hfind as (Hi & Hia & _). cbn. auto. }
  assert (Hinj : NoDup (slot <$> l)).
  { apply NoDup_fmap_2_strong; [|exact Hnodup].
    intros a b Ha Hb Heq.
    destruct (Hslot a Ha) as [_ Haa]. destruct (Hslot b Hb) as [_ Hbb].
    rewrite Heq in Haa. lia. }
  assert (Hsub : slot <$> l ⊆+ seq 0 16).
  { apply NoDup_submseteq; [exact Hinj|].
    intros i Hi. apply list_elem_of_fmap in Hi as (a & -> & Ha).
    apply elem_of_seq. destruct (Hslot a Ha) as [Hlt _]. lia. }
  apply submseteq_length in Hsub.
  rewrite length_fmap, length_seq in Hsub. exact Hsub.
Qed.

(** The scan loop over acknowledging addresses: either the registry gets
    full, or every address scanned so far is registered. *)
Lemma scan_loop_registers (l : list nat) p :
  forall (scanned : list nat) found n w r n' w',
    registry_ok (ctl w) ->
    acks p n (length l) ->
    deviceCount (ctl w) = MAX_DEVICES
    \/ Forall (fun a => findDeviceConfig (ctl w) (Z.of_nat a) <> None) scanned ->
    forEach scan_step l found p n w = Some (r, n', w') ->
    registry_ok (ctl w')
    /\ (deviceCount (ctl w') = MAX_DEVICES
        \/ Forall (fun a => findDeviceConfig (ctl w') (Z.of_nat a) <> None)
                  (scanned ++ l)).
Proof.
  induction l as [|a l IH]; intros scanned found n w r n' w' Hok Hacks Hinv Hrun.
  - cbn [forEach] in Hrun. unfold ret in Hrun. injection Hrun as <- <- <-.
    rewrite app_nil_r. auto.
  - rewrite forEach_cons in Hrun. apply bind_Some in Hrun
      as (found1 & n1 & w1 & Hstep & Hrest).
    apply acks_S in Hacks as [Hack Hacks].
    assert (Hw1 : n1 = S n
                  /\ registry_ok (ctl w1)
                  /\ (deviceCount (ctl w1) = MAX_DEVICES
                      \/ Forall (fun b => findDeviceConfig (ctl w1) (Z.of_nat b)
                                          <> None) (scanned ++ [a]))).
    { unfold scan_step, wireResult in Hstep. cbv zeta in Hstep.
      unfold bind at 1 in Hstep. unfold bind at 1 in Hstep.
      unfold platformRead, ret at 1 in Hstep.
      rewrite Hack in Hstep. cbn [Z.eqb] in Hstep.
      unfold bind at 1 in Hstep. unfold getc at 1 in Hstep.
      unfold bind at 1 in Hstep.
      destruct (findDeviceConfig (ctl w) (Z.of_nat a)) as [i|] eqn:Hfind.
      - unfold ret in Hstep. injection Hstep as <- <- <-.
        split; [reflexivity|]. split; [exact Hok|].
        destruct Hinv as [Hfull|Hall]; [now left | right].
        apply Forall_app. split; [exact Hall|].
        constructor; [congruence | constructor].
      - unfold modc, modify, ret in Hstep. injection Hstep as <- <- <-.
        cbn [ctl upd_ctl set_ctl].
        split; [reflexivity|].
        split; [now apply registry_ok_addDeviceConfig|].
        pose proof Hok as (Hc & _ & _).
        destruct (Z.lt_ge_cases (deviceCount (ctl w)) MAX_DEVICES) as [Hroom|Hfull].
        + destruct Hinv as [Hfull|Hall]; [lia | right].
          apply Forall_app. split.
          * eapply Forall_impl; [exact Hall|]. cbn beta. intros b Hb.
            destruct (findDeviceConfig (ctl w) (Z.of_nat b)) as [j|] eqn:Hj;
              [|contradiction].
            now rewrite (findDeviceConfig_addDeviceConfig_other _ _ _ j Hok Hfind Hj).
          * constructor; [|constructor].
            now rewrite findDeviceConfig_addDeviceConfig by assumption.
        + left. rewrite addDeviceConfig_full by lia. lia. }
    destruct Hw1 as (-> & Hok1 & Hinv1).
    destruct (IH (scanned ++ [a]) found1 (S n) w1 r n' w' Hok1 Hacks Hinv1 Hrest)
      as [Hok' Hinv'].
    split; [exact Hok'|]. now rewrite <- app_assoc in Hinv'.
Qed.

Lemma acknowledged_acks p n k : acks p n k -> acknowledged p n k = Z.of_nat k.
Proof.
  revert n. induction k as [|k IH]; intros n Hacks; [reflexivity|].
  apply acks_S in Hacks as [Hack Hacks].
  rewrite acknowledged_S, Hack, (IH (S n) Hacks). cbn [Z.eqb]. lia.
Qed.

(** On a bus where every address answers, [scanBus] finds 126 devices and
    leaves the registry full. *)
Lemma scanBus_fills p n w :
  registry_ok (ctl w) -> acks p n 126 ->
  exists w',
    scanBus p n w = Some (126, (n + 126)%nat, w')
    /\ registry_only w w'
    /\ deviceCount (ctl w') = MAX_DEVICES.
Proof.
  intros Hok Hacks.
  destruct (scanBus_runs p n w) as (w' & Hscan & _ & Honly).
  rewrite (acknowledged_acks p n 126 Hacks) in Hscan.
  change (Z.of_nat 126) with 126 in Hscan.
  exists w'. split; [exact Hscan|]. split; [exact Honly|].
  unfold scanBus in Hscan. fold scan_step in Hscan.
  destruct (scan_loop_registers (indices 1 127) p [] 0 n w _ _ _ Hok Hacks
              (or_intror (Forall_nil_2 _)) Hscan) as [Hok' [Hfull|Hreg]];
    [exact Hfull|].
  apply (registry_capacity (ctl w') (indices 1 127) Hok') in Hreg.
  - vm_compute in Hreg. lia.
  - apply NoDup_seq.
Qed.

Lemma tested_tested cs rs m cl cs0 rs0 m0 cl0 w :
  tested cs rs m cl (tested cs0 rs0 m0 cl0 w) = tested cs rs m cl w.
Proof. reflexivity. Qed.

Lemma u32_small x : 0 <= x < 4294967296 -> u32 x = x.
Proof. intros H. unfold u32. now apply Z.mod_small. Qed.

(** One acknowledged ping. *)
Lemma test_step_acked i p n w :
  u8 (returned p n) = 0 ->
  exists m',
    test_step (true, 0) i p n w
    = Some ((true, 0), S n, upd_ctl (upd_currentConfig (set_metrics m')) w)
    /\ successfulTransactions m'
       = u32 (successfulTransactions (metrics (currentConfig (ctl w))) + 1)
    /\ failedTransactions m'
       = u32 (failedTransactions (metrics (currentConfig (ctl w))) + 0)
    /\ averageTransactionTime m'
       = averageTransactionTime (metrics (currentConfig (ctl w))).
Proof.
  intros Hack. unfold test_step, wireResult.
  unfold bind, modc, modify, platformRead, ret. cbv beta iota.
  rewrite Hack. cbn [Z.eqb negb snd]. cbv beta iota.
  eexists. split; [reflexivity|]. repeat split.
Qed.

Lemma test_loop_acked (l : list nat) p :
  forall n w,
    acks p n (length l) ->
    0 <= successfulTransactions (metrics (currentConfig (ctl w))) ->
    successfulTransactions (metrics (currentConfig (ctl w)))
      + Z.of_nat (length l) < 4294967296 ->
    failedTransactions (metrics (currentConfig (ctl w))) = 0 ->
    exists m',
      forEach test_step l (true, 0) p n w
      = Some ((true, 0), (n + length l)%nat,
              upd_ctl (upd_currentConfig (set_metrics m')) w)
      /\ successfulTransactions m'
         = successfulTransactions (metrics (currentConfig (ctl w)))
           + Z.of_nat (length l)
      /\ failedTransactions m' = 0
      /\ averageTransactionTime m'
         = averageTransactionTime (metrics (currentConfig (ctl w))).
Proof.
  induction l as [|i l IH]; intros n w Hacks Hs Hlen Hf.
  - exists (metrics (currentConfig (ctl w))). cbn [forEach length].
    unfold ret. rewrite Nat.add_0_r.
    split; [destruct w as [[[] ] ]; reflexivity|].
    split; [cbn; lia|]. split; [exact Hf | reflexivity].
  - cbn [length] in Hlen, Hacks. cbn [forEach]. unfold bind.
    apply acks_S in Hacks as [Hack Hacks].
    destruct (test_step_acked i p n w Hack) as (m1 & -> & Hs1 & Hf1 & Ha1).
    rewrite Hf in Hf1. change (u32 (0 + 0)) with 0 in Hf1.
    rewrite u32_small in Hs1 by lia.
    destruct (IH (S n) (upd_ctl (upd_currentConfig (set_metrics m1)) w))
      as (m' & -> & Hs' & Hf' & Ha').
    + exact Hacks.
    + cbn. lia.
    + cbn. lia.
    + exact Hf1.
    + exists m'. split; [f_equal; f_equal; f_equal; cbn [length]; lia|].
      cbn in Hs', Ha'. cbn [length].
      split; [lia|]. split; [exact Hf' | congruence].
Qed.

(** [testConfiguration] when every registered device acknowledges: one
    [millis()] read of any value, then one read per device. *)
Lemma testConfiguration_acked cs rs p n w :
  0 <= cs < DYNAMIC_RANGE_STEPS -> 0 <= rs < DYNAMIC_RANGE_STEPS ->
  1 <= deviceCount (ctl w) <= MAX_DEVICES ->
  acks p (S n) (Z.to_nat (deviceCount (ctl w))) ->
  exists m',
    testConfiguration cs rs p n w
    = Some (true, (S n + Z.to_nat (deviceCount (ctl w)))%nat,
            tested cs rs m'
              (calculateValueFromStep (clockSpeedRange w) cs :: wireClock w) w)
    /\ successfulTransactions m' = deviceCount (ctl w)
    /\ failedTransactions m' = 0
    /\ averageTransactionTime m' = 0.
Proof.
  intros Hcs Hrs Hcount Hacks. unfold testConfiguration.
  assert (Hvalid : negb (isStepValid cs) || negb (isStepValid rs) = false).
  { unfold isStepValid. apply orb_false_iff.
    split; apply negb_false_iff, Z.ltb_lt; lia. }
  rewrite Hvalid. fold test_step.
  unfold millis. unfold bind at 1. unfold getc at 1.
  unfold bind at 1. unfold modify at 1.
  unfold bind at 1. unfold modc at 1, modify at 1.
  unfold bind at 1. unfold bind at 1. unfold platformRead at 1, ret at 1.
  unfold bind at 1. unfold modc at 1, modify at 1.
  unfold bind at 1. unfold modify at 1.
  unfold bind at 1. unfold getc at 1.
  unfold bind at 1.
  match goal with
  | |- context [forEach test_step _ (true, 0) p (S n) ?w1] => set (w2 := w1)
  end.
  assert (Hc2 : deviceCount (ctl w2) = deviceCount (ctl w)) by reflexivity.
  assert (Hm2 : metrics (currentConfig (ctl w2))
                = set_lastUpdateTime (u32 (returned p n)) zeroMetrics)
    by reflexivity.
  unfold MAX_DEVICES in Hcount.
  assert (Hlen : length (indices 0 (deviceCount (ctl w2)))
                 = Z.to_nat (deviceCount (ctl w))).
  { rewrite Hc2. unfold indices. rewrite length_seq. cbn. lia. }
  destruct (test_loop_acked (indices 0 (deviceCount (ctl w2))) p (S n) w2)
    as (m' & Hloop & Hs & Hf & Ha).
  { now rewrite Hlen. }
  { rewrite Hm2. cbn. lia. }
  { rewrite Hm2, Hlen. cbn. lia. }
  { now rewrite Hm2. }
  rewrite Hm2 in Hs, Ha. rewrite Hlen in Hs, Hloop.
  cbn [successfulTransactions averageTransactionTime set_lastUpdateTime
       zeroMetrics] in Hs, Ha.
  rewrite Hc2 in Hloop |- *. rewrite Hloop.
  cbn [fst]. rewrite Tauto.if_same. cbn [negb].
  unfold bind, ret.
  exists m'. split; [|split; [lia | split; assumption]].
  reflexivity.
Qed.

Lemma healthy_score_computed (count : Z) :
  1 <= count <= MAX_DEVICES ->
  F32.add
    (F32.add
       (F32.mul (F32.mul (F32.div (F32.of_Z count) (F32.of_Z (u32 (count + 0))))
                         (F32.of_Z 100)) (F32.lit 6 10))
       (F32.mul F32.zero (F32.lit 25 100)))
    (F32.mul (F32.of_Z 50) (F32.lit 15 100))
  = healthy_score.
Proof.
  unfold MAX_DEVICES. intros Hc.
  assert (H : exists k : nat, (k < 16)%nat /\ count = Z.of_nat (S k))
    by (exists (Z.to_nat (count - 1)); lia).
  destruct H as (k & Hk & ->).
  do 16 (destruct k as [|k]; [vm_compute; reflexivity|]). lia.
Qed.

(** The score of the configuration left by a test that every device
    acknowledged. *)
Lemma scoreOf_acked cs rs m cl w p n :
  historyIndex (ctl w) < 3 ->
  1 <= deviceCount (ctl w) <= MAX_DEVICES ->
  successfulTransactions m = deviceCount (ctl w) ->
  failedTransactions m = 0 -> averageTransactionTime m = 0 ->
  scoreOf m p n (tested cs rs m cl w)
  = Some (healthy_score, n, tested cs rs m cl w).
Proof.
  intros Hhist Hcount Hs Hf Ha. unfold scoreOf, liftOption.
  rewrite calculatePerformanceScore_short by exact Hhist.
  assert (Hnz : (successfulTransactions m =? 0) = false)
    by (apply Z.eqb_neq; lia).
  rewrite Hnz.
  unfold calculateReliabilityScore, calculateEfficiencyScore.
  change (metrics (currentConfig (ctl (tested cs rs m cl w)))) with m.
  cbv zeta. rewrite Hs, Hf, Ha.
  assert (Htot : (u32 (deviceCount (ctl w) + 0) =? 0) = false).
  { apply Z.eqb_neq. unfold MAX_DEVICES in Hcount.
    rewrite u32_small by lia. lia. }
  rewrite Htot. cbn [Z.eqb].
  now rewrite (healthy_score_computed _ Hcount).
Qed.

Lemma healthy_score_positive :
  F32.ltb F32.zero healthy_score = true
  /\ F32.ltb healthy_score healthy_score = false.
Proof. split; vm_compute; reflexivity. Qed.

Section HealthyBus.

Variable p : Platform.
Variable w : World.
Hypothesis Hhist : historyIndex (ctl w) < 3.
Hypothesis Hcount : 1 <= deviceCount (ctl w) <= MAX_DEVICES.

(** The number of registered devices, and of pings in a test. *)
Let d : nat := Z.to_nat (deviceCount (ctl w)).

(** A configuration tried when a passed test already holds the healthy
    score: the test is passed again, scores the same, and the loop state
    stays. *)
Lemma try_configuration_keeps (c r : nat) st cs0 rs0 m0 cl0 n :
  (c < 20)%nat -> (r < 20)%nat ->
  snd st = healthy_score ->
  acks p (S n) d ->
  exists cs' rs' m' cl',
    try_configuration c st r p n (tested cs0 rs0 m0 cl0 w)
    = Some (st, (n + (d + 1))%nat, tested cs' rs' m' cl' w).
Proof.
  intros Hc Hr Hst Hacks. unfold try_configuration. unfold bind at 1.
  destruct (testConfiguration_acked (Z.of_nat c) (Z.of_nat r) p n
              (tested cs0 rs0 m0 cl0 w))
    as (m' & -> & Hs & Hf & Ha);
    [unfold DYNAMIC_RANGE_STEPS; lia | unfold DYNAMIC_RANGE_STEPS; lia
     | exact Hcount | exact Hacks |].
  rewrite tested_tested.
  change (deviceCount (ctl (tested cs0 rs0 m0 cl0 w)))
    with (deviceCount (ctl w)) in *.
  unfold bind at 1. unfold getc at 1. unfold bind at 1.
  match goal with
  | |- context [scoreOf _ _ _ (tested ?cs ?rs ?m ?cl w)] =>
      change (metrics (currentConfig (ctl (tested cs rs m cl w)))) with m;
      rewrite (scoreOf_acked cs rs m cl w) by assumption
  end.
  rewrite Hst, (proj2 healthy_score_positive). unfold ret.
  replace (S n + Z.to_nat (deviceCount (ctl w)))%nat with (n + (d + 1))%nat
    by (unfold d; lia).
  eexists _, _, _, _. reflexivity.
Qed.

(** The first configuration tried: its test is passed and beats the
    initial score 0. *)
Lemma try_configuration_first (c r : nat) cfg n :
  (c < 20)%nat -> (r < 20)%nat ->
  acks p (S n) d ->
  exists m' cl',
    try_configuration c (cfg, F32.zero) r p n w
    = Some ((currentConfig (ctl (tested (Z.of_nat c) (Z.of_nat r) m' cl' w)),
             healthy_score),
            (n + (d + 1))%nat, tested (Z.of_nat c) (Z.of_nat r) m' cl' w).
Proof.
  intros Hc Hr Hacks. unfold try_configuration. unfold bind at 1.
  destruct (testConfiguration_acked (Z.of_nat c) (Z.of_nat r) p n w)
    as (m' & -> & Hs & Hf & Ha);
    [unfold DYNAMIC_RANGE_STEPS; lia | unfold DYNAMIC_RANGE_STEPS; lia
     | exact Hcount | exact Hacks |].
  unfold bind at 1. unfold getc at 1. unfold bind at 1.
  match goal with
  | |- context [scoreOf _ _ _ (tested ?cs ?rs ?m ?cl w)] =>
      change (metrics (currentConfig (ctl (tested cs rs m cl w)))) with m;
      rewrite (scoreOf_acked cs rs m cl w) by assumption
  end.
  cbn [snd]. rewrite (proj1 healthy_score_positive). unfold ret.
  replace (S n + Z.to_nat (deviceCount (ctl w)))%nat with (n + (d + 1))%nat
    by (unfold d; lia).
  eexists _, _. reflexivity.
Qed.

Lemma inner_loop_keeps (c : nat) (l : list nat) st :
  (c < 20)%nat -> Forall (fun r => (r < 20)%nat) l ->
  snd st = healthy_score ->
  forall cs0 rs0 m0 cl0 n,
    tests_acked p n d (length l) ->
    exists cs' rs' m' cl',
      forEach (try_configuration c) l st p n (tested cs0 rs0 m0 cl0 w)
      = Some (st, (n + (d + 1) * length l)%nat, tested cs' rs' m' cl' w).
Proof.
  intros Hc Hl Hst. induction Hl as [|r l Hr Hl IH];
    intros cs0 rs0 m0 cl0 n Hacks.
  - cbn [forEach length]. unfold ret. rewrite Nat.mul_0_r, Nat.add_0_r.
    eexists _, _, _, _. reflexivity.
  - cbn [length] in Hacks. apply tests_acked_S in Hacks as [Hack Hacks].
    cbn [forEach]. unfold bind.
    destruct (try_configuration_keeps c r st cs0 rs0 m0 cl0 n Hc Hr Hst Hack)
      as (cs1 & rs1 & m1 & cl1 & ->).
    destruct (IH cs1 rs1 m1 cl1 _ Hacks) as (cs' & rs' & m' & cl' & ->).
    cbn [length].
    replace (n + (d + 1) + (d + 1) * length l)%nat
      with (n + (d + 1) * S (length l))%nat by lia.
    eexists _, _, _, _. reflexivity.
Qed.

Lemma outer_loop_keeps (lc l : list nat) st :
  Forall (fun c => (c < 20)%nat) lc -> Forall (fun r => (r < 20)%nat) l ->
  snd st = healthy_score ->
  forall cs0 rs0 m0 cl0 n,
    tests_acked p n d (length lc * length l) ->
    exists cs' rs' m' cl',
      forEach (fun st c => forEach (try_configuration c) l st) lc st p n
        (tested cs0 rs0 m0 cl0 w)
      = Some (st, (n + (d + 1) * (length lc * length l))%nat,
              tested cs' rs' m' cl' w).
Proof.
  intros Hlc Hl Hst. induction Hlc as [|c lc Hc Hlc IH];
    intros cs0 rs0 m0 cl0 n Hacks.
  - cbn [forEach length]. unfold ret. rewrite Nat.mul_0_l, Nat.mul_0_r, Nat.add_0_r.
    eexists _, _, _, _. reflexivity.
  - cbn [length] in Hacks.
    replace (S (length lc) * length l)%nat
      with (length l + length lc * length l)%nat in Hacks by lia.
    apply tests_acked_app in Hacks as [Hrow Hacks].
    cbn [forEach]. unfold bind.
    destruct (inner_loop_keeps c l st Hc Hl Hst cs0 rs0 m0 cl0 n Hrow)
      as (cs1 & rs1 & m1 & cl1 & ->).
    destruct (IH cs1 rs1 m1 cl1 _ Hacks) as (cs' & rs' & m' & cl' & ->).
    cbn [length].
    replace (n + (d + 1) * length l + (d + 1) * (length lc * length l))%nat
      with (n + (d + 1) * (S (length lc) * length l))%nat by lia.
    eexists _, _, _, _. reflexivity.
Qed.

(** The two loops of [scanAndOptimize] when every device acknowledges:
    400 tests of [d + 1] reads each, and the state they end in is the first
    configuration tried. *)
Lemma optimisation_loops cfg n :
  tests_acked p n d 400 ->
  exists m00 cl00 cs' rs' m' cl',
    forEach (fun st c =>
               forEach (try_configuration c) (indices 0 DYNAMIC_RANGE_STEPS) st)
      (indices 0 DYNAMIC_RANGE_STEPS) (cfg, F32.zero) p n w
    = Some ((currentConfig (ctl (tested 0 0 m00 cl00 w)), healthy_score),
            (n + (d + 1) * 400)%nat, tested cs' rs' m' cl' w).
Proof.
  intros Hacks.
  assert (Hsteps : Forall (fun r => (r < 20)%nat) (seq 1 19)).
  { apply Forall_forall. intros r Hr. apply elem_of_seq in Hr. lia. }
  assert (Hall : Forall (fun r => (r < 20)%nat) (indices 0 DYNAMIC_RANGE_STEPS)).
  { change (indices 0 DYNAMIC_RANGE_STEPS) with (0%nat :: seq 1 19).
    constructor; [lia | exact Hsteps]. }
  change 400%nat with (1 + (19 + 19 * 20))%nat in Hacks.
  apply tests_acked_app in Hacks as [Hfirst Hacks].
  apply tests_acked_app in Hacks as [Hrow Hrows].
  apply tests_acked_S in Hfirst as [Hfirst _].
  set (inner := indices 0 DYNAMIC_RANGE_STEPS) in *.
  change (forEach (fun st c => forEach (try_configuration c) inner st) inner)
    with (forEach (fun st c => forEach (try_configuration c) inner st)
            (0%nat :: seq 1 19)).
  rewrite forEach_cons. unfold bind at 1.
  change (forEach (try_configuration 0) inner)
    with (forEach (try_configuration 0) (0%nat :: seq 1 19)).
  rewrite forEach_cons. unfold bind at 1.
  destruct (try_configuration_first 0 0 cfg n ltac:(lia) ltac:(lia) Hfirst)
    as (m00 & cl00 & ->).
  change (Z.of_nat 0) with 0.
  replace (n + (d + 1))%nat with (n + (d + 1) * 1)%nat by lia.
  destruct (inner_loop_keeps 0 (seq 1 19)
              (currentConfig (ctl (tested 0 0 m00 cl00 w)), healthy_score)
              ltac:(lia) Hsteps eq_refl 0 0 m00 cl00 _ Hrow)
    as (cs2 & rs2 & m2 & cl2 & ->).
  rewrite length_seq.
  assert (Hinner : length inner = 20%nat) by reflexivity.
  destruct (outer_loop_keeps (seq 1 19) inner
              (currentConfig (ctl (tested 0 0 m00 cl00 w)), healthy_score)
              Hsteps Hall eq_refl cs2 rs2 m2 cl2
              (n + (d + 1) * 1 + (d + 1) * 19)%nat)
    as (cs3 & rs3 & m3 & cl3 & ->).
  { rewrite Hinner, length_seq. exact Hrows. }
  rewrite Hinner, !length_seq.
  replace (n + (d + 1) * 1 + (d + 1) * 19 + (d + 1) * (19 * 20))%nat
    with (n + (d + 1) * 400)%nat by lia.
  eexists _, _, _, _, _, _. reflexivity.
Qed.

End HealthyBus.

(** X20. On a bus where every ping is acknowledged [scanAndOptimize]
    settles on the slowest clock, whatever the clock of the platform
    reads: from every reachable world, on a platform that acknowledges the
    126 pings of the scan and the 16 pings of each of the 400 tests, it
    returns after 126 + 400 * 17 = 6926 platform reads with current and
    best configuration at clock step 0 and rise-time step 0, that is 75 kHz
    and 40 ns, and 75 kHz as the last clock pushed to [Wire.setClock].
    Every one of the 400 configurations passes its test with the same
    score, and only a strictly better score replaces the first one tried. *)
Theorem scanAndOptimize_healthy_bus p n w :
  reachable w ->
  pings_acknowledged p n ->
  exists w',
    scanAndOptimize p n w = Some (tt, (n + 126 + 17 * 400)%nat, w')
    /\ clockSpeedStep (currentConfig (ctl w')) = 0
    /\ riseTimeStep (currentConfig (ctl w')) = 0
    /\ clockSpeed (currentConfig (ctl w')) = 75000
    /\ riseTime (currentConfig (ctl w')) = 40
    /\ bestConfig (ctl w') = currentConfig (ctl w')
    /\ hd 0 (wireClock w') = 75000.
Proof.
  intros Hreach [Hscanned Htests].
  (* the scan *)
  destruct (scanBus_fills p n w (reachable_registry_inv w Hreach) Hscanned)
    as (w1 & Hscan & _ & Hfull).
  assert (Hreach1 : reachable w1).
  { apply (reachable_run p OpScanBus n w tt (n + 126) w1 Hreach).
    cbn [run]. unfold void, bind. now rewrite Hscan. }
  pose proof (reachable_historyIndex w1 Hreach1) as Hhist.
  assert (Hcount : 1 <= deviceCount (ctl w1) <= MAX_DEVICES)
    by (rewrite Hfull; unfold MAX_DEVICES; lia).
  destruct (reachable_range_definitions w1 Hreach1) as [Hc Hr].
  assert (Hclock : calculateValueFromStep (clockSpeedRange w1) 0 = 75000).
  { rewrite (calculateValueFromStep_same _ _ 0 Hc). vm_compute; reflexivity. }
  assert (Hrise : u16 (calculateValueFromStep (riseTimeRange w1) 0) = 40).
  { rewrite (calculateValueFromStep_same _ _ 0 Hr). vm_compute; reflexivity. }
  (* the two loops *)
  assert (Hd : Z.to_nat (deviceCount (ctl w1)) = 16%nat)
    by (rewrite Hfull; reflexivity).
  destruct (optimisation_loops p w1 Hhist Hcount (currentConfig (ctl w1))
              (n + 126))
    as (m00 & cl00 & cs' & rs' & m' & cl' & Hloops).
  { rewrite Hd. exact Htests. }
  rewrite Hd in Hloops.
  change (16 + 1)%nat with 17%nat in Hloops.
  unfold scanAndOptimize. unfold bind at 1. rewrite Hscan.
  change (126 =? 0) with false. cbv iota.
  unfold bind at 1. unfold getc at 1. unfold bind at 1.
  change (forEach _ (indices 0 DYNAMIC_RANGE_STEPS)
            (currentConfig (ctl w1), F32.zero) p (n + 126)%nat w1)
    with (forEach (fun st c =>
                     forEach (try_configuration c)
                       (indices 0 DYNAMIC_RANGE_STEPS) st)
            (indices 0 DYNAMIC_RANGE_STEPS) (currentConfig (ctl w1), F32.zero)
            p (n + 126)%nat w1).
  rewrite Hloops.
  unfold bind, modc, modify, ret. cbn [fst].
  eexists. split; [reflexivity|].
  unfold applyConfiguration, saveCurrentAsBest, tested.
  cbn [ctl upd_ctl set_ctl wireClock set_wireClock clockSpeedRange
       riseTimeRange].
  rewrite Hclock, Hrise. cbn [hd].
  project_records. repeat split.
Qed.

Lemma scanAndOptimize_healthy_bus_witness :
  let p := healthy_bus_at 1234567 in
  returned p 126 = 1234567
  /\ returned p (126 + 17 * 399) = 1234567
  /\ clockSpeedStep (currentConfig (ctl two_devices)) = 0
  /\ riseTimeStep (currentConfig (ctl two_devices)) = 7
  /\ exists w',
       scanAndOptimize p 0%nat two_devices
       = Some (tt, (0 + 126 + 17 * 400)%nat, w')
       /\ clockSpeedStep (currentConfig (ctl w')) = 0
       /\ riseTimeStep (currentConfig (ctl w')) = 0
       /\ clockSpeed (currentConfig (ctl w')) = 75000
       /\ riseTime (currentConfig (ctl w')) = 40
       /\ bestConfig (ctl w') = currentConfig (ctl w')
       /\ hd 0 (wireClock w') = 75000.
Proof.
  cbn zeta. split; [vm_compute; reflexivity|]. split; [vm_compute; reflexivity|].
  split; [vm_compute; reflexivity|]. split; [vm_compute; reflexivity|].
  apply (scanAndOptimize_healthy_bus (healthy_bus_at 1234567) 0 two_devices).
  - apply world_after_reachable.
  - split.
    + intros i Hi. unfold healthy_bus_at. cbn [returned].
      replace (126 <=? 0 + i)%nat with false
        by (symmetry; apply Nat.leb_gt; lia).
      reflexivity.
    + intros j Hj i Hi. unfold healthy_bus_at. cbn [returned].
      replace ((0 + 126 + (16 + 1) * j + 1 + i - 126) mod 17 =? 0)%nat
        with false; [now rewrite andb_false_r|].
      symmetry. apply Nat.eqb_neq.
      replace (0 + 126 + (16 + 1) * j + 1 + i - 126)%nat
        with (S i + j * 17)%nat by lia.
      rewrite Nat.Div0.mod_add, Nat.mod_small by lia. lia.
Defined.

(** ** A failure below the threshold *)

Lemma reachable_consecutiveErrors w :
  reachable w -> 0 <= consecutiveErrors (ctl w) < ERROR_THRESHOLD.
Proof.
  intros Hreach. destruct (reachable_idle w Hreach) as (k & e & Hk & Ht).
  apply tracked_parts in Ht as (_ & _ & Hc & _). now rewrite Hc.
Qed.

(** X21. A failure below the threshold changes no setting: from a
    reachable world with fewer than two failures pending, a failed
    [endTransmission] returns its result after five platform reads with the
    consecutive-error counter one higher and the error recorded as
    [classifyError] names it, while steps, clock speed and rise time of the
    current configuration, the best configuration, both ranges, the pushed
    clocks, the learning flag and the cooldown are as before. *)
Theorem failure_below_threshold_keeps_settings p n w :
  reachable w ->
  u8 (returned p (S n)) <> 0 ->
  consecutiveErrors (ctl w) < ERROR_THRESHOLD - 1 ->
  exists w',
    endTransmission p n w = Some (u8 (returned p (S n)), (n + 5)%nat, w')
    /\ consecutiveErrors (ctl w') = consecutiveErrors (ctl w) + 1
    /\ lastError (ctl w') = classifyError (u8 (returned p (S n)))
    /\ (clockSpeedStep (currentConfig (ctl w')),
        riseTimeStep (currentConfig (ctl w')),
        clockSpeed (currentConfig (ctl w')),
        riseTime (currentConfig (ctl w')))
       = (clockSpeedStep (currentConfig (ctl w)),
          riseTimeStep (currentConfig (ctl w)),
          clockSpeed (currentConfig (ctl w)),
          riseTime (currentConfig (ctl w)))
    /\ bestConfig (ctl w') = bestConfig (ctl w)
    /\ (clockSpeedRange w', riseTimeRange w', wireClock w')
       = (clockSpeedRange w, riseTimeRange w, wireClock w)
    /\ (learningMode (ctl w'), adjustmentCooldown (ctl w'))
       = (learningMode (ctl w), adjustmentCooldown (ctl w)).
Proof.
  intros Hreach Hres Hk.
  pose proof (reachable_historyIndex w Hreach) as Hhist.
  pose proof (reachable_consecutiveErrors w Hreach) as Hk0.
  unfold ERROR_THRESHOLD in *.
  rewrite endTransmission_reads.
  apply Z.eqb_neq in Hres. rewrite Hres. cbn [negb].
  set (e := classifyError (u8 (returned p (S n)))).
  set (t := u32 (u32 (returned p (S (S n))) - u32 (returned p n))).
  set (a := currentDeviceAddress (ctl w)).
  unfold bind at 1.
  destruct (updatePerformanceMetrics_runs false t a p (S (S (S n))) w Hhist)
    as (s & m' & -> & _ & _).
  unfold upd_ctl at 1. cbv beta.
  rewrite (record_device_registry false t a (count_transaction false t (ctl w))).
  generalize (deviceCount (record_device false t a (count_transaction false t (ctl w)))),
    (deviceConfigs (record_device false t a (count_transaction false t (ctl w)))).
  intros count devs.
  unfold bind at 1.
  rewrite handleError_below.
  2:{ unfold count_transaction. cbn.
      rewrite u8_small by lia. unfold ERROR_THRESHOLD. lia. }
  unfold ret. eexists. split; [repeat f_equal; lia|].
  unfold recordError, updateErrorHistory, count_transaction.
  cbn. rewrite u8_small by lia. repeat split.
Qed.

Lemma failure_below_threshold_keeps_settings_witness :
  let p := tape (failure_reads 2) in
  exists w',
    endTransmission p 0%nat constructor
    = Some (u8 (returned p 1), (0 + 5)%nat, w')
    /\ consecutiveErrors (ctl w') = consecutiveErrors (ctl constructor) + 1
    /\ lastError (ctl w') = classifyError (u8 (returned p 1))
    /\ (clockSpeedStep (currentConfig (ctl w')),
        riseTimeStep (currentConfig (ctl w')),
        clockSpeed (currentConfig (ctl w')),
        riseTime (currentConfig (ctl w')))
       = (clockSpeedStep (currentConfig (ctl constructor)),
          riseTimeStep (currentConfig (ctl constructor)),
          clockSpeed (currentConfig (ctl constructor)),
          riseTime (currentConfig (ctl constructor)))
    /\ bestConfig (ctl w') = bestConfig (ctl constructor)
    /\ (clockSpeedRange w', riseTimeRange w', wireClock w')
       = (clockSpeedRange constructor, riseTimeRange constructor,
          wireClock constructor)
    /\ (learningMode (ctl w'), adjustmentCooldown (ctl w'))
       = (learningMode (ctl constructor), adjustmentCooldown (ctl constructor)).
Proof.
  cbn zeta.
  apply (failure_below_threshold_keeps_settings (tape (failure_reads 2)) 0
           constructor).
  - exact reachable_constructor.
  - vm_compute. discriminate.
  - vm_compute. reflexivity.
Defined.
